(** * Website redesign pipeline: rate limiter, content chunker, model router,
      content optimizer

    A shallow embedding of the TypeScript sources

      - [src/utils/rateLimiter.ts]      (classes [TokenBucket], [RateLimiterManager])
      - [src/utils/contentChunker.ts]   (class [ContentChunker])
      - [src/utils/modelRouter.ts]      (class [ModelRouter])
      - [src/utils/contentOptimizer.ts] (class [ContentOptimizer])

    together with the properties of the specification that concern them.
    The file has three parts: the definitions made from the code, the
    definitions that follow the words of the specification, and the
    theorems.

    Conventions of the embedding.

    - JavaScript numbers that hold token counts, lengths and millisecond
      timestamps are modelled as [Z]: every such value in the program is an
      integer far below 2^53, where double arithmetic is exact.
    - [Date.now()] is an explicit argument [now] of every method that reads
      the clock. A method that reads it more than once has two forms: one
      with a single [now], the call during which the clock stands still,
      and one with an argument for each read ([consumeTokensAt],
      [waitTimeForTokensAt], [getMetricsAt]).
    - Mutable objects are modelled by state passing: a method of a class is a
      computation in the state monad [M] over the record of its fields.
    - [console.warn] and [console.log] are not modelled. *)

From Stdlib Require Import ZArith List Bool Ascii String Lia.
From Stdlib Require Import DecimalString DecimalNat.
From Stdlib Require Import Sorting.Sorted Sorting.Permutation.
From stdpp Require Import base option gmap strings.
Import ListNotations.

Local Open Scope Z_scope.

(** ** A small state monad *)

Definition M (S A : Type) : Type := S -> A * S.

Definition ret {S A} (a : A) : M S A := fun s => (a, s).
Definition bind {S A B} (m : M S A) (k : A -> M S B) : M S B :=
  fun s => let (a, s') := m s in k a s'.
Definition get {S} : M S S := fun s => (s, s).
Definition gets {S A} (f : S -> A) : M S A := fun s => (f s, s).
Definition modify {S} (f : S -> S) : M S unit := fun s => (tt, f s).
Definition evalM {S A} (m : M S A) (s : S) : A := fst (m s).
Definition execM {S A} (m : M S A) (s : S) : S := snd (m s).

Declare Scope monad_scope.
Delimit Scope monad_scope with monad.
Notation "'let*' x := m 'in' k" := (bind m (fun x => k))
  (at level 10, x name, m at level 100, k at level 200) : monad_scope.
Notation "m >> k" := (bind m (fun _ => k))
  (at level 100, k at level 200, right associativity) : monad_scope.

(** ** [rateLimiter.ts]: class [TokenBucket] *)

Module TokenBucket.

Record TokenBucketConfig := {
  maxTokens : Z;
  refillRate : Z;   (* tokens per second *)
  windowSize : Z    (* milliseconds *)
}.

Record UsageRecord := {
  timestamp : Z;
  tokensUsed : Z
}.

(** The private fields of the class. *)
Record t := {
  config : TokenBucketConfig;
  usageHistory : list UsageRecord;
  queuedRequests : Z;
  errors429Count : Z;
  waitTimes : list Z
}.

Definition set_usageHistory (h : list UsageRecord) (b : t) : t :=
  {| config := config b; usageHistory := h;
     queuedRequests := queuedRequests b;
     errors429Count := errors429Count b; waitTimes := waitTimes b |}.

Definition set_queuedRequests (q : Z) (b : t) : t :=
  {| config := config b; usageHistory := usageHistory b;
     queuedRequests := q;
     errors429Count := errors429Count b; waitTimes := waitTimes b |}.

Definition set_errors429Count (e : Z) (b : t) : t :=
  {| config := config b; usageHistory := usageHistory b;
     queuedRequests := queuedRequests b;
     errors429Count := e; waitTimes := waitTimes b |}.

Definition set_waitTimes (w : list Z) (b : t) : t :=
  {| config := config b; usageHistory := usageHistory b;
     queuedRequests := queuedRequests b;
     errors429Count := errors429Count b; waitTimes := w |}.

(** [constructor(config)] *)
Definition new (c : TokenBucketConfig) : t :=
  {| config := c; usageHistory := []; queuedRequests := 0;
     errors429Count := 0; waitTimes := [] |}.

Local Open Scope monad_scope.

(** [private cleanOldUsage()]: keep the records with
    [record.timestamp > cutoff]. *)
Definition cleanOldUsage (now : Z) : M t unit :=
  let* b := get in
  let cutoff := now - windowSize (config b) in
  modify (set_usageHistory
            (List.filter (fun record => cutoff <? timestamp record)
               (usageHistory b))).

(** [private getCurrentUsage()]: [reduce] with initial value 0. *)
Definition getCurrentUsage : M t Z :=
  gets (fun b =>
    fold_left (fun total record => total + tokensUsed record)
      (usageHistory b) 0).

(** [canProcess(tokenCount)] *)
Definition canProcess (now tokenCount : Z) : M t bool :=
  cleanOldUsage now >>
  let* currentUsage := getCurrentUsage in
  let* b := get in
  ret (currentUsage + tokenCount <=? maxTokens (config b)).

(** [consumeTokens(tokenCount)] *)
Definition consumeTokens (now tokenCount : Z) : M t unit :=
  cleanOldUsage now >>
  modify (fun b =>
    set_usageHistory
      (usageHistory b ++ [{| timestamp := now; tokensUsed := tokenCount |}])
      b).

(** [getAvailableTokens()] *)
Definition getAvailableTokens (now : Z) : M t Z :=
  cleanOldUsage now >>
  let* currentUsage := getCurrentUsage in
  let* b := get in
  ret (Z.max 0 (maxTokens (config b) - currentUsage)).

(** The [for (const usage of this.usageHistory)] loop of
    [waitTimeForTokens], with its early [return]: [Some waitTime] when a
    record is reached at which the running total covers the excess,
    [None] when the loop runs to its end. *)
Fixpoint walkUsage (now window excessTokens cumulativeTokens : Z)
    (history : list UsageRecord) : option Z :=
  match history with
  | [] => None
  | usage :: rest =>
      let cumulativeTokens := cumulativeTokens + tokensUsed usage in
      if excessTokens <=? cumulativeTokens
      then Some (Z.max 0 ((timestamp usage + window) - now))
      else walkUsage now window excessTokens cumulativeTokens rest
  end.

Definition pushWaitTime (w : Z) : M t unit :=
  modify (fun b => set_waitTimes (waitTimes b ++ [w]) b).

(** [waitTimeForTokens(tokenCount)] *)
Definition waitTimeForTokens (now tokenCount : Z) : M t Z :=
  let* ok := canProcess now tokenCount in
  if ok then ret 0
  else
    cleanOldUsage now >>
    let* currentUsage := getCurrentUsage in
    let* b := get in
    let excessTokens := (currentUsage + tokenCount) - maxTokens (config b) in
    match walkUsage now (windowSize (config b)) excessTokens 0
            (usageHistory b) with
    | Some waitTime => pushWaitTime waitTime >> ret waitTime
    | None =>
        let fallbackWait := windowSize (config b) in
        pushWaitTime fallbackWait >> ret fallbackWait
    end.

(** [recordRateLimitError()] *)
Definition recordRateLimitError : M t unit :=
  modify (fun b => set_errors429Count (errors429Count b + 1) b).

(** [incrementQueuedRequests()] *)
Definition incrementQueuedRequests : M t unit :=
  modify (fun b => set_queuedRequests (queuedRequests b + 1) b).

(** [decrementQueuedRequests()] *)
Definition decrementQueuedRequests : M t unit :=
  modify (fun b => set_queuedRequests (Z.max 0 (queuedRequests b - 1)) b).

(** [reset()] *)
Definition reset : M t unit :=
  modify (fun b =>
    {| config := config b; usageHistory := []; queuedRequests := 0;
       errors429Count := 0; waitTimes := [] |}).

(** A mean [total / samples] of integers, kept as the pair; the program
    holds the double nearest to it. *)
Record average := {
  total : Z;
  samples : Z
}.

(** [RateLimitMetrics] *)
Record RateLimitMetrics := {
  metricsTokensUsed : Z;        (* [tokensUsed] *)
  tokensAvailable : Z;
  requestsQueued : Z;
  errorsCount : Z;
  averageWaitTime : average
}.

(** [getMetrics()]; the literal 0 of an empty [waitTimes] is the mean
    0 / 1. *)
Definition getMetrics (now : Z) : M t RateLimitMetrics :=
  cleanOldUsage now >>
  let* b := get in
  let avgWaitTime :=
    if (0 <? length (waitTimes b))%nat
    then {| total := fold_left (fun sum time => sum + time) (waitTimes b) 0;
            samples := Z.of_nat (length (waitTimes b)) |}
    else {| total := 0; samples := 1 |} in
  let* used := getCurrentUsage in
  let* available := getAvailableTokens now in
  let* b' := get in
  ret {| metricsTokensUsed := used;
         tokensAvailable := available;
         requestsQueued := queuedRequests b';
         errorsCount := errors429Count b';
         averageWaitTime := avgWaitTime |}.

(** ** The clock during a call

    In the methods above every [Date.now()] of one call reads the same
    [now]: they are the calls during which the clock stands still.
    [consumeTokens] and [getMetrics] read the clock twice and
    [waitTimeForTokens] up to three times; below each read has a value of
    its own. *)

(** [consumeTokens(tokenCount)]: [now1] is read by [cleanOldUsage], [now2]
    for the [timestamp] of the record. *)
Definition consumeTokensAt (now1 now2 tokenCount : Z) : M t unit :=
  cleanOldUsage now1 >>
  modify (fun b =>
    set_usageHistory
      (usageHistory b ++ [{| timestamp := now2; tokensUsed := tokenCount |}])
      b).

(** [waitTimeForTokens(tokenCount)]: [now1] is read by [canProcess],
    [now2] by the call of [cleanOldUsage] that follows, [now3] in the loop,
    at the record where it stops. *)
Definition waitTimeForTokensAt (now1 now2 now3 tokenCount : Z) : M t Z :=
  let* ok := canProcess now1 tokenCount in
  if ok then ret 0
  else
    cleanOldUsage now2 >>
    let* currentUsage := getCurrentUsage in
    let* b := get in
    let excessTokens := (currentUsage + tokenCount) - maxTokens (config b) in
    match walkUsage now3 (windowSize (config b)) excessTokens 0
            (usageHistory b) with
    | Some waitTime => pushWaitTime waitTime >> ret waitTime
    | None =>
        let fallbackWait := windowSize (config b) in
        pushWaitTime fallbackWait >> ret fallbackWait
    end.

(** [getMetrics()]: [now1] is read by [cleanOldUsage], [now2] by
    [getAvailableTokens]; [tokensUsed] is taken between the two. *)
Definition getMetricsAt (now1 now2 : Z) : M t RateLimitMetrics :=
  cleanOldUsage now1 >>
  let* b := get in
  let avgWaitTime :=
    if (0 <? length (waitTimes b))%nat
    then {| total := fold_left (fun sum time => sum + time) (waitTimes b) 0;
            samples := Z.of_nat (length (waitTimes b)) |}
    else {| total := 0; samples := 1 |} in
  let* used := getCurrentUsage in
  let* available := getAvailableTokens now2 in
  let* b' := get in
  ret {| metricsTokensUsed := used;
         tokensAvailable := available;
         requestsQueued := queuedRequests b';
         errorsCount := errors429Count b';
         averageWaitTime := avgWaitTime |}.

End TokenBucket.

(** ** [rateLimiter.ts]: class [RateLimiterManager] *)

(** A JavaScript number that is either finite or [Infinity]
  ([getAvailableTokens] of an unknown model). *)
Inductive jsnum :=
  | Finite (z : Z)
  | Infinity.

Module RateLimiterManager.

Local Open Scope monad_scope.

(** The field [buckets : Map<string, TokenBucket>]. The buckets are mutable
    objects held by the map: a method that mutates the bucket it looked up
    is modelled by storing the new bucket state under the same key. *)
Definition t : Type := gmap string TokenBucket.t.

(** [constructor()] *)
Definition new : t :=
  <[ "gpt-4-turbo"%string :=
       TokenBucket.new {| TokenBucket.maxTokens := 450000;
                          TokenBucket.refillRate := 7500;
                          TokenBucket.windowSize := 60000 |} ]>
  (<[ "gpt-4o"%string :=
       TokenBucket.new {| TokenBucket.maxTokens := 800000;
                          TokenBucket.refillRate := 13333;
                          TokenBucket.windowSize := 60000 |} ]>
  (<[ "gpt-5"%string :=
       TokenBucket.new {| TokenBucket.maxTokens := 30000;
                          TokenBucket.refillRate := 500;
                          TokenBucket.windowSize := 60000 |} ]> ∅)).

(** Run a method of the bucket [bucket] stored under [model]. *)
Definition onBucket {A} (model : string) (bucket : TokenBucket.t)
    (m : M TokenBucket.t A) : M t A :=
  fun buckets =>
    let (a, bucket') := m bucket in (a, <[ model := bucket' ]> buckets).

(** [canProcess(tokenCount, model)] *)
Definition canProcess (now tokenCount : Z) (model : string) : M t bool :=
  let* buckets := get in
  match buckets !! model with
  | None => ret true
  | Some bucket => onBucket model bucket (TokenBucket.canProcess now tokenCount)
  end.

(** [consumeTokens(tokenCount, model)] *)
Definition consumeTokens (now tokenCount : Z) (model : string) : M t unit :=
  let* buckets := get in
  match buckets !! model with
  | Some bucket =>
      onBucket model bucket (TokenBucket.consumeTokens now tokenCount)
  | None => ret tt
  end.

(** [getAvailableTokens(model)] *)
Definition getAvailableTokens (now : Z) (model : string) : M t jsnum :=
  let* buckets := get in
  match buckets !! model with
  | Some bucket =>
      let* n := onBucket model bucket (TokenBucket.getAvailableTokens now) in
      ret (Finite n)
  | None => ret Infinity
  end.

(** [waitTimeForTokens(tokenCount, model)] *)
Definition waitTimeForTokens (now tokenCount : Z) (model : string) : M t Z :=
  let* buckets := get in
  match buckets !! model with
  | Some bucket =>
      onBucket model bucket (TokenBucket.waitTimeForTokens now tokenCount)
  | None => ret 0
  end.

(** [recordRateLimitError(model)] *)
Definition recordRateLimitError (model : string) : M t unit :=
  let* buckets := get in
  match buckets !! model with
  | Some bucket => onBucket model bucket TokenBucket.recordRateLimitError
  | None => ret tt
  end.

(** [incrementQueuedRequests(model)] *)
Definition incrementQueuedRequests (model : string) : M t unit :=
  let* buckets := get in
  match buckets !! model with
  | Some bucket => onBucket model bucket TokenBucket.incrementQueuedRequests
  | None => ret tt
  end.

(** [decrementQueuedRequests(model)] *)
Definition decrementQueuedRequests (model : string) : M t unit :=
  let* buckets := get in
  match buckets !! model with
  | Some bucket => onBucket model bucket TokenBucket.decrementQueuedRequests
  | None => ret tt
  end.

(** [getMetrics(model)], [None] for [null] *)
Definition getMetrics (now : Z) (model : string)
    : M t (option TokenBucket.RateLimitMetrics) :=
  let* buckets := get in
  match buckets !! model with
  | Some bucket =>
      let* metrics := onBucket model bucket (TokenBucket.getMetrics now) in
      ret (Some metrics)
  | None => ret None
  end.

(** [getAllMetrics()]: the object with the metrics of every bucket under
    the name of its model; each bucket is left as its [getMetrics] leaves
    it. *)
Definition getAllMetrics (now : Z)
    : M t (gmap string TokenBucket.RateLimitMetrics) :=
  fun buckets =>
    (evalM (TokenBucket.getMetrics now) <$> buckets,
     execM (TokenBucket.getMetrics now) <$> buckets).

(** [resetAllMetrics()] *)
Definition resetAllMetrics : M t unit :=
  modify (fun buckets => execM TokenBucket.reset <$> buckets).

(** [configureBucket(model, config)] *)
Definition configureBucket (model : string)
    (c : TokenBucket.TokenBucketConfig) : M t unit :=
  modify (fun buckets => <[ model := TokenBucket.new c ]> buckets).

End RateLimiterManager.

(** ** JavaScript string primitives

    Strings are sequences of 8-bit characters; [s.length] counts them. The
    embedding therefore covers documents written in ASCII, for which the
    UTF-16 length of JavaScript and the length here agree. *)

Module Str.

(** [s.length] *)
Definition len (s : string) : Z := Z.of_nat (String.length s).

(** [s.startsWith(p)] *)
Definition startsWith (s p : string) : bool := String.prefix p s.

(** [s.includes(sub)] *)
Fixpoint includes (s sub : string) : bool :=
  String.prefix sub s ||
  match s with
  | EmptyString => false
  | String _ s' => includes s' sub
  end.

Definition lowerChar (c : ascii) : ascii :=
  let n := nat_of_ascii c in
  if (65 <=? n)%nat && (n <=? 90)%nat then ascii_of_nat (n + 32) else c.

(** [s.toLowerCase()] *)
Fixpoint toLowerCase (s : string) : string :=
  match s with
  | EmptyString => EmptyString
  | String c s' => String (lowerChar c) (toLowerCase s')
  end.

(** White space as [trim] sees it: TAB, LF, VT, FF, CR and SPACE. *)
Definition isSpace (c : ascii) : bool :=
  let n := nat_of_ascii c in
  ((9 <=? n)%nat && (n <=? 13)%nat) || (n =? 32)%nat.

Fixpoint trimStart (s : string) : string :=
  match s with
  | EmptyString => EmptyString
  | String c s' => if isSpace c then trimStart s' else s
  end.

Fixpoint trimEnd (s : string) : string :=
  match s with
  | EmptyString => EmptyString
  | String c s' =>
      match trimEnd s' with
      | EmptyString => if isSpace c then EmptyString else String c EmptyString
      | r => String c r
      end
  end.

(** [s.trim()] *)
Definition trim (s : string) : string := trimEnd (trimStart s).

Definition isEmpty (s : string) : bool :=
  match s with EmptyString => true | _ => false end.

(** [s.split(sep)] for a separator of one character. *)
Fixpoint split (sep : ascii) (s : string) : list string :=
  match s with
  | EmptyString => [EmptyString]
  | String c s' =>
      let r := split sep s' in
      if Ascii.eqb c sep then EmptyString :: r
      else match r with
           | [] => [String c EmptyString]
           | h :: t => String c h :: t
           end
  end.

(** [parts.join(sep)] *)
Definition join (sep : string) (parts : list string) : string :=
  String.concat sep parts.

(** [Math.ceil(a / b)] for an integer [a] and a positive integer [b]. *)
Definition ceilDiv (a b : Z) : Z := - ((- a) / b).

(** The double quote, which a string literal of this file cannot hold. *)
Definition dquote : string := String (ascii_of_nat 34) EmptyString.

End Str.

(** [rateLimiter.ts]: [estimateTokenCount(text)],
    [Math.ceil(text.length / 4)] *)
Definition estimateTokenCount (text : string) : Z :=
  Str.ceilDiv (Str.len text) 4.

(** ** The document object model of cheerio

    [cheerio.load(html)] parses a string of markup into a tree of nodes, and
    [$.html(...)] serializes nodes back to a string. The parser is outside
    this development: a document is given by the tree that [cheerio.load]
    builds for it (the list of the children of the root, normally the single
    [html] element with its [head] and [body]), and a string of markup is
    represented by the nodes it parses to. Whatever the program does with
    markup as a string (its length, [includes], [trim]) is done here on the
    serialization [outerHTML] of those nodes. The document type declaration
    is not a node of the model; no function of the program looks at it. *)

Module Dom.

#[local] Unset Elimination Schemes.
Inductive node :=
  | Text (data : string)
  | Comment (data : string)
  | Element (name : string) (attribs : list (string * string))
            (children : list node).
#[local] Set Elimination Schemes.

Definition document := list node.

Definition isElement (n : node) : bool :=
  match n with Element _ _ _ => true | _ => false end.

Definition tagName (n : node) : string :=
  match n with Element name _ _ => name | _ => EmptyString end.

Definition childNodes (n : node) : list node :=
  match n with Element _ _ kids => kids | _ => [] end.

Fixpoint lookupAttr (a : string) (attribs : list (string * string))
    : option string :=
  match attribs with
  | [] => None
  | (k, v) :: rest => if String.eqb k a then Some v else lookupAttr a rest
  end.

(** [$el.attr(a)], [None] for [undefined]. *)
Definition attr (n : node) (a : string) : option string :=
  match n with
  | Element _ attribs _ => lookupAttr a attribs
  | _ => None
  end.

(** [$el.attr(a) || ''] *)
Definition attrOrEmpty (n : node) (a : string) : string :=
  default EmptyString (attr n a).

(** *** Serialization *)

Definition voidElements : list string :=
  ["area"; "base"; "basefont"; "bgsound"; "br"; "col"; "embed"; "frame";
   "hr"; "img"; "input"; "keygen"; "link"; "meta"; "param"; "source";
   "track"; "wbr"]%string.

Definition rawTextElements : list string :=
  ["style"; "script"; "xmp"; "iframe"; "noembed"; "noframes"; "plaintext";
   "noscript"]%string.

Definition isVoid (name : string) : bool :=
  existsb (String.eqb name) voidElements.

Definition isRawText (name : string) : bool :=
  existsb (String.eqb name) rawTextElements.

Fixpoint escapeText (s : string) : string :=
  match s with
  | EmptyString => EmptyString
  | String c s' =>
      (if Ascii.eqb c "&" then "&amp;"
       else if Ascii.eqb c "<" then "&lt;"
       else if Ascii.eqb c ">" then "&gt;"
       else String c EmptyString) +:+ escapeText s'
  end.

Fixpoint escapeAttr (s : string) : string :=
  match s with
  | EmptyString => EmptyString
  | String c s' =>
      (if Ascii.eqb c "&" then "&amp;"
       else if Ascii.eqb c (ascii_of_nat 34) then "&quot;"
       else String c EmptyString) +:+ escapeAttr s'
  end.

Definition renderAttr (kv : string * string) : string :=
  " " +:+ fst kv +:+ "=" +:+ Str.dquote +:+ escapeAttr (snd kv) +:+ Str.dquote.

(** The serializer; [raw] tells that the parent is a raw-text element,
    whose text is written as it is. *)
Fixpoint render (raw : bool) (n : node) : string :=
  match n with
  | Text data => if raw then data else escapeText data
  | Comment data => "<!--" +:+ data +:+ "-->"
  | Element name attribs kids =>
      "<" +:+ name +:+ String.concat "" (map renderAttr attribs) +:+ ">" +:+
      (if isVoid name then EmptyString
       else String.concat "" (map (render (isRawText name)) kids)
            +:+ "</" +:+ name +:+ ">")
  end.

(** [$.html(element)] *)
Definition outerHTML (n : node) : string := render false n.

(** [$.html()], and [$.html(nodes)] for a list of nodes *)
Definition renderAll (nodes : list node) : string :=
  String.concat "" (map outerHTML nodes).

(** [$el.html()] of an element *)
Definition innerHTML (n : node) : string :=
  match n with
  | Element name _ kids => String.concat "" (map (render (isRawText name)) kids)
  | _ => EmptyString
  end.

(** [$el.text()] *)
Fixpoint textContent (n : node) : string :=
  match n with
  | Text data => data
  | Comment _ => EmptyString
  | Element _ _ kids => String.concat "" (map textContent kids)
  end.

(** *** Selectors

    The selectors of the program are written as syntax trees; the string of
    the source is given next to each. A selector is a comma-separated list
    of complex selectors, a complex selector is a chain of compound
    selectors joined by the descendant combinator (a space), and a compound
    selector is a conjunction of simple selectors. *)

Inductive simple :=
  | Universal                         (* [*] *)
  | Tag (name : string)               (* [div] *)
  | Class (c : string)                (* [.c] *)
  | AttrExists (a : string)           (* [[a]] *)
  | AttrEquals (a v : string)         (* [[a="v"]] *)
  | AttrContains (a v : string).      (* [[a*="v"]] *)

Definition compound := list simple.
Definition complex := list compound.
Definition selector := list complex.

(** The class names of an element: its [class] attribute split at white
    space. *)
Fixpoint tokens (acc : string) (s : string) : list string :=
  match s with
  | EmptyString => if Str.isEmpty acc then [] else [acc]
  | String c s' =>
      if Str.isSpace c
      then (if Str.isEmpty acc then [] else [acc]) ++ tokens EmptyString s'
      else tokens (acc +:+ String c EmptyString) s'
  end.

Definition classList (n : node) : list string :=
  tokens EmptyString (attrOrEmpty n "class").

Definition matchesSimple (s : simple) (n : node) : bool :=
  isElement n &&
  match s with
  | Universal => true
  | Tag name => String.eqb (tagName n) name
  | Class c => existsb (String.eqb c) (classList n)
  | AttrExists a => match attr n a with Some _ => true | None => false end
  | AttrEquals a v =>
      match attr n a with Some w => String.eqb w v | None => false end
  | AttrContains a v =>
      match attr n a with
      | Some w => negb (Str.isEmpty v) && Str.includes w v
      | None => false
      end
  end.

Definition matchesCompound (c : compound) (n : node) : bool :=
  isElement n && forallb (fun s => matchesSimple s n) c.

(** The compounds [cs], nearest first, are matched by ancestors in
    [ancestors], nearest first. *)
Fixpoint matchesAncestors (cs : list compound) (ancestors : list node)
    : bool :=
  match cs with
  | [] => true
  | c :: cs' =>
      match ancestors with
      | [] => false
      | a :: rest =>
          if matchesCompound c a then matchesAncestors cs' rest
          else matchesAncestors cs rest
      end
  end.

Definition matchesComplex (cx : complex) (n : node) (ancestors : list node)
    : bool :=
  match rev cx with
  | [] => false
  | last :: before =>
      matchesCompound last n && matchesAncestors before ancestors
  end.

Definition matchesSelector (sel : selector) (n : node)
    (ancestors : list node) : bool :=
  existsb (fun cx => matchesComplex cx n ancestors) sel.

(** The elements of the subtree of a node, itself included, in document
    order, and the elements below a node. *)
Fixpoint subtree (n : node) : list node :=
  match n with
  | Element _ _ kids => n :: flat_map subtree kids
  | _ => []
  end.

Definition descendants (n : node) : list node :=
  flat_map subtree (childNodes n).

(** *** Elements in their document

    An element of a loaded document is known by the node itself, the chain
    of its ancestors (nearest first) and its path from the root (the child
    index at each level), which tells it from an equal node elsewhere. *)

Record handle := {
  self : node;
  ancestors : list node;
  path : list nat
}.

(** The elements of the subtree of [n], itself included, in document
    order. *)
Fixpoint handlesOf (anc : list node) (p : list nat) (n : node)
    : list handle :=
  match n with
  | Element _ _ kids =>
      {| self := n; ancestors := anc; path := p |} ::
      (fix go (i : nat) (l : list node) : list handle :=
         match l with
         | [] => []
         | k :: l' => handlesOf (n :: anc) (p ++ [i]) k ++ go (S i) l'
         end) 0%nat kids
  | _ => []
  end.

Fixpoint handlesOfList (anc : list node) (p : list nat) (i : nat)
    (l : list node) : list handle :=
  match l with
  | [] => []
  | k :: l' => handlesOf anc (p ++ [i]) k ++ handlesOfList anc p (S i) l'
  end.

(** Every element of the document, in document order. *)
Definition allElements (doc : document) : list handle :=
  handlesOfList [] [] 0 doc.

Definition matches (sel : selector) (h : handle) : bool :=
  matchesSelector sel (self h) (ancestors h).

(** [$(selector)] *)
Definition select (doc : document) (sel : selector) : list handle :=
  List.filter (matches sel) (allElements doc).

(** [$el.find(selector)]: the proper descendants that match. *)
Definition find (h : handle) (sel : selector) : list handle :=
  List.filter (matches sel)
    (handlesOfList (self h :: ancestors h) (path h) 0 (childNodes (self h))).

(** The element and its ancestors as handles, nearest first. *)
Fixpoint lineage (n : node) (anc : list node) (p : list nat)
    : list handle :=
  {| self := n; ancestors := anc; path := p |} ::
  match anc with
  | [] => []
  | a :: rest => lineage a rest (removelast p)
  end.

(** [$el.closest(selector)]: the element or its nearest ancestor that
    matches, if any. *)
Definition closest (h : handle) (sel : selector) : option handle :=
  List.find (matches sel) (lineage (self h) (ancestors h) (path h)).

Definition samePath (p q : list nat) : bool :=
  bool_decide (p = q).

(** [$set.index($el)]: the position of the element in the set, or -1. *)
Fixpoint indexOf (i : Z) (set : list handle) (h : handle) : Z :=
  match set with
  | [] => -1
  | x :: rest =>
      if samePath (path x) (path h) then i else indexOf (i + 1) rest h
  end.

End Dom.

(** ** [Array.prototype.sort]

    The sort of JavaScript is stable. It is modelled by the insertion sort
    below, which places each element, taken in array order, before the first
    element that the comparator puts after it. For a comparator that is a
    consistent ordering every stable sort returns this same array. *)

Module JsArray.

Fixpoint insertSorted {A} (cmp : A -> A -> Z) (x : A) (sorted : list A)
    : list A :=
  match sorted with
  | [] => [x]
  | y :: rest =>
      if cmp x y <? 0 then x :: y :: rest
      else y :: insertSorted cmp x rest
  end.

Definition sort {A} (cmp : A -> A -> Z) (l : list A) : list A :=
  fold_left (fun sorted x => insertSorted cmp x sorted) l [].

(** [l.reduce((sum, x) => sum + f(x), 0)] *)
Definition sumBy {A} (f : A -> Z) (l : list A) : Z :=
  fold_left (fun sum x => sum + f x) l 0.

End JsArray.

(** ** [contentChunker.ts]: class [ContentChunker] *)

Module ContentChunker.

Import Dom.

Inductive Importance :=
  | ImpCritical | ImpProduct | ImpHero | ImpDecorative.

Inductive SectionType :=
  | TyHeader | TyNav | TyHero | TyMain | TyProduct | TyGallery | TyAside
  | TyFooter | TyMixed.

Inductive Priority :=
  | PrioCritical | PrioHigh | PrioMedium | PrioLow.

Definition Importance_eqb (a b : Importance) : bool :=
  match a, b with
  | ImpCritical, ImpCritical | ImpProduct, ImpProduct
  | ImpHero, ImpHero | ImpDecorative, ImpDecorative => true
  | _, _ => false
  end.

Definition SectionType_eqb (a b : SectionType) : bool :=
  match a, b with
  | TyHeader, TyHeader | TyNav, TyNav | TyHero, TyHero | TyMain, TyMain
  | TyProduct, TyProduct | TyGallery, TyGallery | TyAside, TyAside
  | TyFooter, TyFooter | TyMixed, TyMixed => true
  | _, _ => false
  end.

Record ImageInfo := {
  src : string;
  alt : string;
  imageTokens : Z;            (* [estimatedTokens] *)
  importance : Importance;
  context : string
}.

Record ImageAnalysis := {
  count : Z;
  totalEstimatedTokens : Z;
  criticalImages : list ImageInfo;
  productImages : list ImageInfo;
  heroImages : list ImageInfo;
  decorativeImages : list ImageInfo
}.

(** The field [html] holds the markup of the chunk as the nodes it parses
    to; [htmlText] is the string. *)
Record ContentChunk := {
  id : string;
  type : SectionType;
  html : list node;
  css : string;
  javascript : string;
  images : list ImageInfo;
  estimatedTokens : Z;
  priority : Priority;
  preserveOrder : bool
}.

Definition htmlText (chunk : ContentChunk) : string := renderAll (html chunk).

(** The fields [chunks], [totalEstimatedTokens] and [imageAnalysis] of the
    result; [metadata] compares sizes with the unparsed input text and is
    left out. *)
Record ChunkingResult := {
  chunks : list ContentChunk;
  totalTokens : Z;
  imageAnalysis : ImageAnalysis
}.

(** [CRITICAL_IMAGE_SELECTORS] *)
Definition CRITICAL_IMAGE_SELECTORS : list complex :=
  [ [[Class "product"]; [Tag "img"]];          (* '.product img' *)
    [[Class "product-image"]];                 (* '.product-image' *)
    [[Class "product-photo"]];                 (* '.product-photo' *)
    [[Class "product-gallery"]; [Tag "img"]];  (* '.product-gallery img' *)
    [[Class "shop"]; [Tag "img"]];             (* '.shop img' *)
    [[Class "catalog"]; [Tag "img"]];          (* '.catalog img' *)
    [[Class "item-image"]];                    (* '.item-image' *)
    [[AttrExists "data-product-image"]];       (* '[data-product-image]' *)
    [[Class "hero"]; [Tag "img"]];             (* '.hero img' *)
    [[Class "hero-image"]];                    (* '.hero-image' *)
    [[Class "banner"]; [Tag "img"]];           (* '.banner img' *)
    [[Class "main-image"]] ]%string.           (* '.main-image' *)

(** [SECTION_SELECTORS] *)
Definition SECTION_SELECTORS (ty : SectionType) : selector :=
  match ty with
  | TyHeader =>  (* 'header, .header, .site-header, .main-header, [role="banner"]' *)
      [ [[Tag "header"]]; [[Class "header"]]; [[Class "site-header"]];
        [[Class "main-header"]]; [[AttrEquals "role" "banner"]] ]
  | TyNav =>     (* 'nav, .nav, .navigation, .navbar, .menu, [role="navigation"]' *)
      [ [[Tag "nav"]]; [[Class "nav"]]; [[Class "navigation"]];
        [[Class "navbar"]]; [[Class "menu"]];
        [[AttrEquals "role" "navigation"]] ]
  | TyHero =>    (* '.hero, .hero-section, .banner, .jumbotron, .intro-section' *)
      [ [[Class "hero"]]; [[Class "hero-section"]]; [[Class "banner"]];
        [[Class "jumbotron"]]; [[Class "intro-section"]] ]
  | TyMain =>    (* 'main, .main, .main-content, .content, [role="main"]' *)
      [ [[Tag "main"]]; [[Class "main"]]; [[Class "main-content"]];
        [[Class "content"]]; [[AttrEquals "role" "main"]] ]
  | TyProduct => (* '.product, .products, .shop, .catalog, .items, .product-grid, .product-list' *)
      [ [[Class "product"]]; [[Class "products"]]; [[Class "shop"]];
        [[Class "catalog"]]; [[Class "items"]]; [[Class "product-grid"]];
        [[Class "product-list"]] ]
  | TyGallery => (* '.gallery, .photo-gallery, .image-gallery, .portfolio' *)
      [ [[Class "gallery"]]; [[Class "photo-gallery"]];
        [[Class "image-gallery"]]; [[Class "portfolio"]] ]
  | TyAside =>   (* 'aside, .aside, .sidebar, .side-content, [role="complementary"]' *)
      [ [[Tag "aside"]]; [[Class "aside"]]; [[Class "sidebar"]];
        [[Class "side-content"]]; [[AttrEquals "role" "complementary"]] ]
  | TyFooter =>  (* 'footer, .footer, .site-footer, .main-footer, [role="contentinfo"]' *)
      [ [[Tag "footer"]]; [[Class "footer"]]; [[Class "site-footer"]];
        [[Class "main-footer"]]; [[AttrEquals "role" "contentinfo"]] ]
  | TyMixed => []
  end%string.

(** [estimateImageTokens(src, context)] *)
Definition estimateImageTokens (src context : string) : Z :=
  if Str.startsWith src "data:image/"
  then Str.ceilDiv (2 * Str.len src) 7          (* [Math.ceil(src.length / 3.5)] *)
  else Str.ceilDiv (Str.len src + Str.len context) 4.

(** [selector.split(' ')[0]] of a complex selector *)
Definition firstCompound (cx : complex) : complex :=
  match cx with
  | c :: _ => [c]
  | [] => []
  end.

Definition productKeywords : list string :=
  ["product"; "item"; "shop"; "buy"; "catalog"; "store"]%string.

Definition heroKeywords : list string :=
  ["hero"; "banner"; "main"; "featured"; "primary"]%string.

(** [keywords.some(keyword => alt.toLowerCase().includes(keyword) || ...)] *)
Definition someKeyword (keywords : list string) (alt className context : string)
    : bool :=
  existsb (fun keyword =>
    Str.includes (Str.toLowerCase alt) keyword ||
    Str.includes (Str.toLowerCase className) keyword ||
    Str.includes (Str.toLowerCase context) keyword) keywords.

(** [$img.closest('body').find('img')] and [$allImages.index($img)] *)
Definition imagePosition (img : handle) : Z :=
  let allImages :=
    match closest img [[[Tag "body"]]] with
    | Some body => find body [[[Tag "img"]]]
    | None => []
    end in
  indexOf 0 allImages img.

(** [classifyImageImportance($img, context)] *)
Definition classifyImageImportance (img : handle) (context : string)
    : Importance :=
  let src := attrOrEmpty (self img) "src" in
  let alt := attrOrEmpty (self img) "alt" in
  let className := attrOrEmpty (self img) "class" in
  if Str.startsWith src "data:image/" && (50000 <? Str.len src)
  then ImpCritical
  else if existsb (fun selector =>
               matches [selector] img ||
               match closest img [firstCompound selector] with
               | Some _ => true
               | None => false
               end) CRITICAL_IMAGE_SELECTORS
  then ImpCritical
  else if someKeyword productKeywords alt className context
  then ImpProduct
  else if someKeyword heroKeywords alt className context
  then ImpHero
  else
    let position := imagePosition img in
    if (position <? 3) && (10000 <? Str.len src) then ImpHero
    else ImpDecorative.

(** The selector of the context of an image:
    '[class*="product"], [class*="hero"], [class*="gallery"], section, div' *)
Definition contextSelector : selector :=
  [ [[AttrContains "class" "product"]]; [[AttrContains "class" "hero"]];
    [[AttrContains "class" "gallery"]]; [[Tag "section"]]; [[Tag "div"]] ]%string.

(** The body of the callback of [$('img').each] in [analyzeImages]: the
    record pushed for an image, none for an image without source. *)
Definition analyzeImage (img : handle) : list ImageInfo :=
  let src := attrOrEmpty (self img) "src" in
  let alt := attrOrEmpty (self img) "alt" in
  if Str.isEmpty src then []
  else
    let context :=
      match closest img contextSelector with
      | Some el => innerHTML (self el)
      | None => EmptyString
      end in
    [ {| src := src;
         alt := alt;
         imageTokens := estimateImageTokens src context;
         importance := classifyImageImportance img context;
         context := String.substring 0 200 context |} ].

Definition hasImportance (i : Importance) (img : ImageInfo) : bool :=
  Importance_eqb (importance img) i.

(** The array [images] of [analyzeImages]. *)
Definition detectedImages (doc : document) : list ImageInfo :=
  flat_map analyzeImage (select doc [[[Tag "img"]]]).

(** [analyzeImages(html)] *)
Definition analyzeImages (doc : document) : ImageAnalysis :=
  let images := detectedImages doc in
  {| count := Z.of_nat (length images);
     totalEstimatedTokens := JsArray.sumBy imageTokens images;
     criticalImages := List.filter (hasImportance ImpCritical) images;
     productImages := List.filter (hasImportance ImpProduct) images;
     heroImages := List.filter (hasImportance ImpHero) images;
     decorativeImages := List.filter (hasImportance ImpDecorative) images |}.


(** *** Extraction of the sections of one type

    [$(selector).each(...)] visits the elements that match at the time of
    the call, in document order, whatever the callback does to the
    document in between. The callback skips a section of fewer than 50
    characters, which stays where it is, and removes every other section
    from the document after its chunk is made. An element that matches
    inside a section already removed is still visited, and yields a chunk
    of its own.

    [extractRelevantCSS], called for a section when [css] is not empty,
    passes the section and each element below it to [cheerio.load]; loading
    a node moves it out of its parent into a document of its own. After
    the call every element of the section stands alone, with its text and
    comment children only; this is how an element inside the section is
    found ([detached]) when its turn comes.

    The result is the list of sections for which a chunk is made, each in
    the state in which the callback sees it, and what is left in place of
    the node visited. *)

Definition withoutElements (kids : list node) : list node :=
  List.filter (fun k => negb (isElement k)) kids.

(** The sections found in a list of nodes by [visit], and what is left of
    the list. *)
Definition gather (visit : node -> list node * list node) (l : list node)
    : list node * list node :=
  fold_right (fun (k : node) (found : list node * list node) =>
    let (s1, k') := visit k in
    let (s2, l') := found in
    (s1 ++ s2, k' ++ l')) ([], []) l.

Fixpoint extractSections (cssGiven : bool) (sel : selector)
    (detached : bool) (anc : list node) (n : node)
    : list node * list node :=
  match n with
  | Element name attribs kids =>
      let below := fun flag =>
        gather (extractSections cssGiven sel flag (n :: anc)) kids in
      if matchesSelector sel n anc then
        let section :=
          if detached then Element name attribs (withoutElements kids)
          else n in
        if Str.len (outerHTML section) <? 50 then
          let (ss, kids') := below detached in
          (ss, [Element name attribs kids'])
        else
          let (ss, _) := below (detached || cssGiven) in
          (section :: ss, [])
      else
        let (ss, kids') := below detached in
        (ss, [Element name attribs kids'])
  | _ => ([], [n])
  end.

Definition extractSectionsList (cssGiven : bool) (sel : selector)
    (detached : bool) (anc : list node) (l : list node)
    : list node * list node :=
  gather (extractSections cssGiven sel detached anc) l.

(** *** The chunk of a section *)

Definition newline : string := String (ascii_of_nat 10) EmptyString.

(** A section that is handed to a function as [$section]. *)
Definition asHandle (section : node) : handle :=
  {| self := section; ancestors := []; path := [] |}.

(** [extractRelevantCSS(css, $section)] *)
Definition extractRelevantCSS (css : string) (section : node) : string :=
  if Str.isEmpty css then EmptyString
  else
    (* [$section.find('*').addBack()] *)
    let elements := map self (handlesOf [] [] section) in
    let classNames :=
      flat_map (fun el =>
        match attr el "class" with
        | Some className =>
            List.filter (fun c => negb (Str.isEmpty (Str.trim c)))
              (if Str.isEmpty className then [] else Str.split " " className)
        | None => []
        end) elements in
    let ids :=
      flat_map (fun el =>
        match attr el "id" with
        | Some i => if Str.isEmpty i then [] else [i]
        | None => []
        end) elements in
    let cssRules :=
      List.filter (fun rule => negb (Str.isEmpty (Str.trim rule)))
        (Str.split "}" css) in
    let relevantCSS :=
      flat_map (fun rule =>
        let selector := Str.trim (hd EmptyString (Str.split "{" rule)) in
        if Str.isEmpty selector then []
        else
          let applies :=
            existsb (fun className => Str.includes selector ("." +:+ className))
              classNames ||
            existsb (fun i => Str.includes selector ("#" +:+ i)) ids ||
            Str.includes selector "body" ||
            Str.includes selector "*" ||
            Str.includes selector "@" in
          if applies then [rule +:+ "}"] else []) cssRules in
    Str.join newline relevantCSS.

(** [extractRelevantJS(javascript, $section)] *)
Definition extractRelevantJS (javascript : string) (section : node) : string :=
  if Str.isEmpty javascript then EmptyString
  else if 10000 <? Str.len javascript then EmptyString else javascript.

(** All the records of an analysis, in the order
    [criticalImages.concat(productImages, heroImages, decorativeImages)]. *)
Definition knownImages (analysis : ImageAnalysis) : list ImageInfo :=
  criticalImages analysis ++ productImages analysis ++
  heroImages analysis ++ decorativeImages analysis.

(** The callback of [$section.find('img').each]: the record of the first
    known image with the same source, if the image has a source. *)
Definition lookupImage (analysis : ImageAnalysis) (img : node)
    : list ImageInfo :=
  let s := attrOrEmpty img "src" in
  if Str.isEmpty s then []
  else match List.find (fun i => String.eqb (src i) s) (knownImages analysis) with
       | Some existingImage => [existingImage]
       | None => []
       end.

Definition sectionImagesOf (analysis : ImageAnalysis) (section : node)
    : list ImageInfo :=
  flat_map (fun img => lookupImage analysis (self img))
    (find (asHandle section) [[[Tag "img"]]]).

Definition isCriticalOrProduct (img : ImageInfo) : bool :=
  hasImportance ImpCritical img || hasImportance ImpProduct img.

Definition sectionPriority (sectionType : SectionType)
    (sectionImages : list ImageInfo) : Priority :=
  if existsb isCriticalOrProduct sectionImages then PrioCritical
  else if existsb (hasImportance ImpHero) sectionImages
          || SectionType_eqb sectionType TyHero then PrioHigh
  else if SectionType_eqb sectionType TyFooter
          || SectionType_eqb sectionType TyNav then PrioLow
  else PrioMedium.

(** [`chunk-${chunkId}`] *)
Definition chunkName (chunkId : nat) : string :=
  "chunk-" +:+ NilZero.string_of_uint (Nat.to_uint chunkId).

(** [estimateTokens(content)] *)
Definition estimateTokens (content : string) : Z :=
  Str.ceilDiv (Str.len content) 4.

(** The chunk pushed for a section. *)
Definition sectionChunk (css javascript : string) (analysis : ImageAnalysis)
    (sectionType : SectionType) (chunkId : nat) (section : node)
    : ContentChunk :=
  let sectionHtml := outerHTML section in
  let sectionImages := sectionImagesOf analysis section in
  let sectionTokens :=
    Str.ceilDiv (Str.len sectionHtml) 4 +
    JsArray.sumBy imageTokens sectionImages in
  {| id := chunkName chunkId;
     type := sectionType;
     html := [section];
     css := extractRelevantCSS css section;
     javascript := extractRelevantJS javascript section;
     images := sectionImages;
     estimatedTokens := sectionTokens;
     priority := sectionPriority sectionType sectionImages;
     preserveOrder := SectionType_eqb sectionType TyHeader
                      || SectionType_eqb sectionType TyFooter |}.

Fixpoint numberChunks (mk : nat -> node -> ContentChunk) (chunkId : nat)
    (sections : list node) : list ContentChunk :=
  match sections with
  | [] => []
  | s :: rest => mk chunkId s :: numberChunks mk (S chunkId) rest
  end.

(** *** [sortChunksByPriority] *)

Definition priorityOrder (p : Priority) : Z :=
  match p with
  | PrioCritical => 0 | PrioHigh => 1 | PrioMedium => 2 | PrioLow => 3
  end.

(** The comparator of [sortChunksByPriority]. *)
Definition compareChunks (a b : ContentChunk) : Z :=
  let priorityDiff := priorityOrder (priority a) - priorityOrder (priority b) in
  if negb (priorityDiff =? 0) then priorityDiff
  else if SectionType_eqb (type a) TyHeader then -1
  else if SectionType_eqb (type b) TyHeader then 1
  else if SectionType_eqb (type a) TyFooter then 1
  else if SectionType_eqb (type b) TyFooter then -1
  else 0.

Definition sortChunksByPriority (chunks : list ContentChunk)
    : list ContentChunk :=
  JsArray.sort compareChunks chunks.

(** *** [chunkContent] *)

Definition sectionTypes : list SectionType :=
  [TyHeader; TyNav; TyHero; TyMain; TyProduct; TyGallery; TyAside; TyFooter].

(** The state of the loop over [sectionTypes]: the document [$], the array
    [chunks] and the counter [chunkId]. *)
Record ChunkerState := {
  dom : document;
  made : list ContentChunk;
  chunkId : nat
}.

(** One turn of the loop [for (const sectionType of sectionTypes)]. *)
Definition extractType (css javascript : string) (analysis : ImageAnalysis)
    (st : ChunkerState) (sectionType : SectionType) : ChunkerState :=
  let (sections, rest) :=
    extractSectionsList (negb (Str.isEmpty css))
      (SECTION_SELECTORS sectionType) false [] (dom st) in
  {| dom := rest;
     made := made st ++
             numberChunks (sectionChunk css javascript analysis sectionType)
               (chunkId st) sections;
     chunkId := (chunkId st + length sections)%nat |}.

Definition extractAllTypes (css javascript : string)
    (analysis : ImageAnalysis) (doc : document) : ChunkerState :=
  fold_left (extractType css javascript analysis) sectionTypes
    {| dom := doc; made := []; chunkId := 1 |}.

(** [$('body').html() || ''], as nodes *)
Definition bodyContent (doc : document) : list node :=
  match select doc [[[Tag "body"]]] with
  | body :: _ => childNodes (self body)
  | [] => []
  end.

(** The chunk of type [mixed], made when the markup that is left, trimmed,
    has more than 100 characters. *)
Definition mixedChunk (css javascript : string) (analysis : ImageAnalysis)
    (st : ChunkerState) : list ContentChunk :=
  let remaining := bodyContent (dom st) in
  let remainingHtml := renderAll remaining in
  if 100 <? Str.len (Str.trim remainingHtml) then
    let remainingImages :=
      List.filter (fun img => Str.includes remainingHtml (src img))
        (decorativeImages analysis) in
    let remainingTokens :=
      Str.ceilDiv (Str.len remainingHtml) 4 +
      JsArray.sumBy imageTokens remainingImages in
    [ {| id := chunkName (chunkId st);
         type := TyMixed;
         html := remaining;
         css := css;
         javascript := javascript;
         images := remainingImages;
         estimatedTokens := remainingTokens;
         priority := PrioLow;
         preserveOrder := false |} ]
  else [].

(** The array [chunks] before it is sorted. *)
Definition unsortedChunks (doc : document) (css javascript : string)
    : list ContentChunk :=
  let analysis := analyzeImages doc in
  let st := extractAllTypes css javascript analysis doc in
  made st ++ mixedChunk css javascript analysis st.

(** [chunkContent(html, css, javascript)] *)
Definition chunkContent (doc : document) (css javascript : string)
    : ChunkingResult :=
  let all := unsortedChunks doc css javascript in
  {| chunks := sortChunksByPriority all;
     totalTokens := JsArray.sumBy estimatedTokens all;
     imageAnalysis := analyzeImages doc |}.

(** [validateChunkSizes(chunks, maxTokensPerChunk)] *)
Definition validateChunkSizes (chunks : list ContentChunk)
    (maxTokensPerChunk : Z) : bool :=
  forallb (fun chunk => estimatedTokens chunk <=? maxTokensPerChunk) chunks.

(** *** [splitOversizedChunks] *)

(** [cheerio.load(markup)] for markup that is body content: the parser puts
    it into the [body] of a new document. *)
Definition loadMarkup (markup : list node) : document :=
  [ Element "html" [] [ Element "head" [] []; Element "body" [] markup ] ].

(** 'section, article, div' *)
Definition subSectionSelector : selector :=
  [ [[Tag "section"]]; [[Tag "article"]]; [[Tag "div"]] ]%string.

(** The loop [for (const subSection of subSections)]; [subChunkId] counts
    the sub-chunks pushed. [cheerio.load(subSection).html()] is the markup
    of the sub-section itself: loading moves it out of the chunk, with
    everything below it. *)
Fixpoint splitAlong (chunk : ContentChunk) (maxTokensPerChunk : Z)
    (subChunkId : nat) (subSections : list node) : list ContentChunk :=
  match subSections with
  | [] => []
  | subSection :: rest =>
      let subHtml := outerHTML subSection in
      let subTokens := estimateTokens subHtml in
      if subTokens <=? maxTokensPerChunk then
        {| id := id chunk +:+ "-sub-" +:+
                 NilZero.string_of_uint (Nat.to_uint subChunkId);
           type := type chunk;
           html := [subSection];
           css := css chunk;
           javascript := javascript chunk;
           images := List.filter (fun img => Str.includes subHtml (src img))
                       (images chunk);
           estimatedTokens := subTokens;
           priority := priority chunk;
           preserveOrder := preserveOrder chunk |}
        :: splitAlong chunk maxTokensPerChunk (S subChunkId) rest
      else splitAlong chunk maxTokensPerChunk subChunkId rest
  end.

(** The body of the loop [for (const chunk of chunks)]: what is pushed to
    [result] for one chunk. *)
Definition splitChunk (maxTokensPerChunk : Z) (chunk : ContentChunk)
    : list ContentChunk :=
  if estimatedTokens chunk <=? maxTokensPerChunk then [chunk]
  else
    let subSections :=
      map self (select (loadMarkup (html chunk)) subSectionSelector) in
    if (1 <? length subSections)%nat
    then splitAlong chunk maxTokensPerChunk 1 subSections
    else [chunk].

(** [splitOversizedChunks(chunks, maxTokensPerChunk)] *)
Definition splitOversizedChunks (chunks : list ContentChunk)
    (maxTokensPerChunk : Z) : list ContentChunk :=
  flat_map (splitChunk maxTokensPerChunk) chunks.

End ContentChunker.

(** ** [modelRouter.ts]: class [ModelRouter] *)

Module ModelRouter.

Import ContentChunker.
Local Open Scope monad_scope.

Inductive Model := Gpt5 | Gpt4o | Gpt4Turbo | Gpt4.

(** The string of a model, as the rate limiter receives it. *)
Definition modelName (m : Model) : string :=
  match m with
  | Gpt5 => "gpt-5" | Gpt4o => "gpt-4o"
  | Gpt4Turbo => "gpt-4-turbo" | Gpt4 => "gpt-4"
  end.

(** [ModelSelection], without the field [reasoning], a text for the log
    whose percentages are rounded floating-point numbers. *)
Record ModelSelection := {
  model : Model;
  selectionTokens : Z;      (* [estimatedTokens] *)
  canProcess : bool;
  waitTime : Z
}.

Record RoutingStrategy := {
  name : string;
  description : string;
  gpt5Budget : Z;
  gpt4oBudget : Z;
  bufferTokens : Z
}.

(** [getDefaultStrategy()] *)
Definition getDefaultStrategy : RoutingStrategy :=
  {| name := "Image-Preserving Hybrid";
     description := "GPT-5 for critical images, GPT-4o for text content";
     gpt5Budget := 20000;
     gpt4oBudget := 10000;
     bufferTokens := 3000 |}.

(** The quotient [a / b] of two integers as JavaScript computes it, kept
    as the pair; a zero divisor gives [Infinity], [-Infinity] or [NaN]. *)
Record quotient := { numerator : Z; denominator : Z }.

(** [q < p / 10] *)
Definition ltTenths (q : quotient) (p : Z) : bool :=
  let (a, b) := q in
  if b =? 0 then a <? 0
  else if 0 <? b then 10 * a <? p * b
  else p * b <? 10 * a.

(** [q > p / 10] *)
Definition gtTenths (q : quotient) (p : Z) : bool :=
  let (a, b) := q in
  if b =? 0 then 0 <? a
  else if 0 <? b then p * b <? 10 * a
  else 10 * a <? p * b.

Record ChunkRoutingAnalysis := {
  imageCount : Z;
  hasCriticalImages : bool;
  hasProductImages : bool;
  hasHeroImages : bool;
  imageTokenRatio : quotient;
  isTextHeavy : bool;
  isImageHeavy : bool;
  chunkType : SectionType;
  chunkPriority : Priority      (* [priority] *)
}.

(** [analyzeChunkForRouting(chunk)] *)
Definition analyzeChunkForRouting (chunk : ContentChunk)
    : ChunkRoutingAnalysis :=
  let ratio :=
    {| numerator := JsArray.sumBy imageTokens (images chunk);
       denominator := estimatedTokens chunk |} in
  {| imageCount := Z.of_nat (length (images chunk));
     hasCriticalImages := existsb (hasImportance ImpCritical) (images chunk);
     hasProductImages := existsb (hasImportance ImpProduct) (images chunk);
     hasHeroImages := existsb (hasImportance ImpHero) (images chunk);
     imageTokenRatio := ratio;
     isTextHeavy := ltTenths ratio 3;
     isImageHeavy := gtTenths ratio 7;
     chunkType := type chunk;
     chunkPriority := priority chunk |}.

Definition isHigh (p : Priority) : bool :=
  match p with PrioHigh => true | _ => false end.

(** [selectOptimalModel(analysis)] *)
Definition selectOptimalModel (analysis : ChunkRoutingAnalysis) : Model :=
  if hasCriticalImages analysis || hasProductImages analysis then Gpt5
  else if hasHeroImages analysis || isHigh (chunkPriority analysis) then Gpt5
  else if isImageHeavy analysis && (2 <? imageCount analysis) then Gpt5
  else if isTextHeavy analysis
          || SectionType_eqb (chunkType analysis) TyFooter
          || SectionType_eqb (chunkType analysis) TyNav then Gpt4o
  else Gpt4o.

(** The two calls to the shared [rateLimiter] that close a routing
    decision. *)
Definition admission (now : Z) (chunk : ContentChunk) (m : Model)
    : M RateLimiterManager.t ModelSelection :=
  let* ok := RateLimiterManager.canProcess now (estimatedTokens chunk)
               (modelName m) in
  let* wait :=
    if ok then ret 0
    else RateLimiterManager.waitTimeForTokens now (estimatedTokens chunk)
           (modelName m) in
  ret {| model := m;
         selectionTokens := estimatedTokens chunk;
         canProcess := ok;
         waitTime := wait |}.

(** [routeContentChunk(chunk)] *)
Definition routeContentChunk (now : Z) (chunk : ContentChunk)
    : M RateLimiterManager.t ModelSelection :=
  let routing := analyzeChunkForRouting chunk in
  let m := selectOptimalModel routing in
  admission now chunk m.

(** [getNumericPriority(chunk)] *)
Definition getNumericPriority (chunk : ContentChunk) : Z :=
  match priority chunk with
  | PrioCritical => 0 | PrioHigh => 1 | PrioMedium => 2 | PrioLow => 3
  end.

(** The local variables of [routeMultipleChunks]. The map [routingMap] is
    keyed by the chunk objects; the chunks of the array are distinct
    objects, so that the map is the list of its entries in the order in
    which they are set. *)
Record RoutingState := {
  routingMap : list (ContentChunk * ModelSelection);
  gpt5TokensUsed : Z;
  gpt4oTokensUsed : Z
}.

(** The model chosen in one turn of the loop, with the two counters
    after it. *)
Definition chooseModel (strategy : RoutingStrategy) (st : RoutingState)
    (chunk : ContentChunk) : Model * Z * Z :=
  let routing := analyzeChunkForRouting chunk in
  let gpt5 := gpt5TokensUsed st in
  let gpt4o := gpt4oTokensUsed st in
  if hasCriticalImages routing || hasProductImages routing then
    if gpt5 + estimatedTokens chunk <=? gpt5Budget strategy
    then (Gpt5, gpt5 + estimatedTokens chunk, gpt4o)
    else (Gpt5, gpt5 + estimatedTokens chunk, gpt4o)
  else if hasHeroImages routing
          && (gpt5 + estimatedTokens chunk <=? gpt5Budget strategy)
  then (Gpt5, gpt5 + estimatedTokens chunk, gpt4o)
  else if gpt4o + estimatedTokens chunk <=? gpt4oBudget strategy
  then (Gpt4o, gpt5, gpt4o + estimatedTokens chunk)
  else if 0 <? imageCount routing
  then (Gpt5, gpt5 + estimatedTokens chunk, gpt4o)
  else (Gpt4o, gpt5, gpt4o + estimatedTokens chunk).

(** One turn of the loop [for (const chunk of sortedChunks)]. *)
Definition routeOne (strategy : RoutingStrategy) (now : Z)
    (st : RoutingState) (chunk : ContentChunk)
    : M RateLimiterManager.t RoutingState :=
  let '(selectedModel, gpt5, gpt4o) := chooseModel strategy st chunk in
  let* selection := admission now chunk selectedModel in
  ret {| routingMap := routingMap st ++ [(chunk, selection)];
         gpt5TokensUsed := gpt5;
         gpt4oTokensUsed := gpt4o |}.

Fixpoint forEach {S A B} (body : B -> A -> M S B) (l : list A) (acc : B)
    : M S B :=
  match l with
  | [] => ret acc
  | x :: rest => let* acc' := body acc x in forEach body rest acc'
  end.

(** [routeMultipleChunks(chunks)] *)
Definition routeMultipleChunks (strategy : RoutingStrategy) (now : Z)
    (chunks : list ContentChunk)
    : M RateLimiterManager.t (list (ContentChunk * ModelSelection)) :=
  let sortedChunks :=
    JsArray.sort (fun a b => getNumericPriority a - getNumericPriority b)
      chunks in
  let* st := forEach (routeOne strategy now) sortedChunks
               {| routingMap := []; gpt5TokensUsed := 0;
                  gpt4oTokensUsed := 0 |} in
  ret (routingMap st).

(** [selection.model === 'gpt-5'] *)
Definition isGpt5 (m : Model) : bool :=
  match m with Gpt5 => true | _ => false end.

(** [RoutingMetrics], the object [budgetUtilization] laid out in its three
    fields. *)
Record RoutingMetrics := {
  totalChunks : Z;
  gpt5Chunks : Z;
  gpt4oChunks : Z;
  criticalImagesPreserved : Z;
  totalImagesPreserved : Z;
  estimatedProcessingTime : Z;
  gpt5Used : Z;
  gpt4oUsed : Z;
  totalBudget : Z
}.

(** The local variables of [analyzeRoutingMetrics]. *)
Record MetricsState := {
  countGpt5Chunks : Z;      (* [gpt5Chunks] *)
  countGpt4oChunks : Z;     (* [gpt4oChunks] *)
  gpt5Tokens : Z;
  gpt4oTokens : Z;
  criticalImageCount : Z;   (* [criticalImages] *)
  totalImages : Z;
  maxWaitTime : Z
}.

(** One turn of the loop [for (const [chunk, selection] of routingMap)]. *)
Definition countEntry (st : MetricsState)
    (entry : ContentChunk * ModelSelection) : MetricsState :=
  let (chunk, selection) := entry in
  let gpt5 := isGpt5 (model selection) in
  {| countGpt5Chunks :=
       if gpt5 then countGpt5Chunks st + 1 else countGpt5Chunks st;
     countGpt4oChunks :=
       if gpt5 then countGpt4oChunks st else countGpt4oChunks st + 1;
     gpt5Tokens :=
       if gpt5 then gpt5Tokens st + selectionTokens selection
       else gpt5Tokens st;
     gpt4oTokens :=
       if gpt5 then gpt4oTokens st
       else gpt4oTokens st + selectionTokens selection;
     criticalImageCount :=
       criticalImageCount st +
       Z.of_nat (length (List.filter isCriticalOrProduct (images chunk)));
     totalImages := totalImages st + Z.of_nat (length (images chunk));
     maxWaitTime := Z.max (maxWaitTime st) (waitTime selection) |}.

(** [analyzeRoutingMetrics(chunks, routingMap)] *)
Definition analyzeRoutingMetrics (strategy : RoutingStrategy)
    (chunks : list ContentChunk)
    (routingMap : list (ContentChunk * ModelSelection)) : RoutingMetrics :=
  let st :=
    fold_left countEntry routingMap
      {| countGpt5Chunks := 0; countGpt4oChunks := 0; gpt5Tokens := 0;
         gpt4oTokens := 0; criticalImageCount := 0; totalImages := 0;
         maxWaitTime := 0 |} in
  {| totalChunks := Z.of_nat (length chunks);
     gpt5Chunks := countGpt5Chunks st;
     gpt4oChunks := countGpt4oChunks st;
     criticalImagesPreserved := criticalImageCount st;
     totalImagesPreserved := totalImages st;
     estimatedProcessingTime := Str.ceilDiv (maxWaitTime st) 60000;
     gpt5Used := gpt5Tokens st;
     gpt4oUsed := gpt4oTokens st;
     totalBudget := gpt5Budget strategy + gpt4oBudget strategy |}.

(** An integer in a template literal. *)
Definition showZ (z : Z) : string := NilZero.string_of_int (Z.to_int z).

Record Feasibility := {
  feasible : bool;
  issues : list string;
  recommendations : list string
}.

(** [validateRoutingFeasibility(chunks)] *)
Definition validateRoutingFeasibility (strategy : RoutingStrategy)
    (chunks : list ContentChunk) : Feasibility :=
  let totalTokens := JsArray.sumBy estimatedTokens chunks in
  let totalBudget := gpt5Budget strategy + gpt4oBudget strategy in
  let overBudget := totalBudget <? totalTokens in
  let criticalImageChunks :=
    List.filter (fun chunk => existsb isCriticalOrProduct (images chunk))
      chunks in
  let criticalTokens := JsArray.sumBy estimatedTokens criticalImageChunks in
  let overCritical := gpt5Budget strategy <? criticalTokens in
  let oversizedChunks :=
    List.filter (fun chunk => 25000 <? estimatedTokens chunk) chunks in
  let oversized := (0 <? length oversizedChunks)%nat in
  let issues :=
    (if overBudget
     then ["Total tokens (" +:+ showZ totalTokens +:+
           ") exceed available budget (" +:+ showZ totalBudget +:+ ")"]
     else []) ++
    (if overCritical
     then ["Critical image content (" +:+ showZ criticalTokens +:+
           " tokens) exceeds GPT-5 budget (" +:+
           showZ (gpt5Budget strategy) +:+ ")"]
     else []) ++
    (if oversized
     then [showZ (Z.of_nat (length oversizedChunks)) +:+
           " chunks exceed recommended size limit"]
     else []) in
  let recommendations :=
    (if overBudget
     then ["Consider splitting request into multiple processing rounds"]
     else []) ++
    (if overCritical
     then ["Increase GPT-5 budget allocation or process in multiple rounds"]
     else []) ++
    (if oversized
     then ["Split oversized chunks into smaller sections"]
     else []) in
  {| feasible := (length issues =? 0)%nat;
     issues := issues;
     recommendations := recommendations |}%string.

(** The numbers of the strategy that [suggestOptimalStrategy] returns. The
    texts [name] and [description] are left out: the first holds a
    percentage rounded from a floating-point product. *)
Record BudgetAllocation := {
  suggestedGpt5Budget : Z;      (* [gpt5Budget] *)
  suggestedGpt4oBudget : Z;     (* [gpt4oBudget] *)
  suggestedBufferTokens : Z     (* [bufferTokens] *)
}.

(** [suggestOptimalStrategy(chunks)] *)
Definition suggestOptimalStrategy (chunks : list ContentChunk)
    : BudgetAllocation :=
  let imageHeavyChunks :=
    List.filter (fun chunk => (0 <? length (images chunk))%nat) chunks in
  let imageRatio :=
    {| numerator := Z.of_nat (length imageHeavyChunks);
       denominator := Z.of_nat (length chunks) |} in
  if gtTenths imageRatio 7 then
    {| suggestedGpt5Budget := 25000; suggestedGpt4oBudget := 5000;
       suggestedBufferTokens := 3000 |}
  else if ltTenths imageRatio 3 then
    {| suggestedGpt5Budget := 15000; suggestedGpt4oBudget := 15000;
       suggestedBufferTokens := 3000 |}
  else
    {| suggestedGpt5Budget := 20000; suggestedGpt4oBudget := 10000;
       suggestedBufferTokens := 3000 |}.

End ModelRouter.

(** ** [modelRouter.ts]: the object [RoutingUtils] *)

Module RoutingUtils.

Import ContentChunker.

Definition isCritical (p : Priority) : bool :=
  match p with PrioCritical => true | _ => false end.

(** [requiresGPT5(chunk)] *)
Definition requiresGPT5 (chunk : ContentChunk) : bool :=
  existsb isCriticalOrProduct (images chunk) || isCritical (priority chunk).

End RoutingUtils.

(** ** [contentOptimizer.ts]: class [ContentOptimizer] *)

Module ContentOptimizer.

Import Dom.

(** [ANALYTICS_PATTERNS]: each pattern is a literal text matched without
    regard to case, given here in lower case. *)
Definition ANALYTICS_PATTERNS : list string :=
  [ "google-analytics.com"; "googletagmanager.com"; "gtag("; "ga("; "_gaq";
    "facebook.net"; "fbevents"; "twitter.com/i/adsct";
    "linkedin.com/px-api"; "hotjar."; "crazyegg."; "optimizely.";
    "segment."; "mixpanel."; "intercom."; "zendesk."; "livechat";
    "hubspot" ]%string.

(** [pattern.test(s)] *)
Definition test (pattern s : string) : bool :=
  Str.includes (Str.toLowerCase s) pattern.

Definition scriptWith (v : string) : selector :=
  [[[Tag "script"; AttrContains "src" v]]].
Definition iframeWith (v : string) : selector :=
  [[[Tag "iframe"; AttrContains "src" v]]].
Definition classIs (c : string) : selector := [[[Class c]]].
Definition classWith (v : string) : selector := [[[AttrContains "class" v]]].
Definition idWith (v : string) : selector := [[[AttrContains "id" v]]].

(** [IRRELEVANT_SELECTORS] *)
Definition IRRELEVANT_SELECTORS : list selector :=
  [ scriptWith "analytics"; scriptWith "gtag"; scriptWith "facebook";
    scriptWith "twitter"; scriptWith "linkedin"; scriptWith "hotjar";
    scriptWith "optimizely"; scriptWith "segment"; scriptWith "mixpanel";
    scriptWith "intercom"; scriptWith "zendesk"; scriptWith "livechat";
    scriptWith "tawk.to";
    classIs "intercom-frame"; classIs "zendesk-widget";
    classIs "livechat-widget";
    classWith "cookie"; idWith "cookie"; classWith "gdpr";
    classWith "consent"; classIs "cookie-banner"; classIs "privacy-banner";
    iframeWith "facebook.com/plugins"; iframeWith "twitter.com/widgets";
    iframeWith "linkedin.com/widgets";
    classIs "fb-like"; classIs "twitter-tweet"; classIs "linkedin-widget";
    classWith "ad-"; classWith "ads-"; idWith "ad-"; idWith "ads-";
    classIs "advertisement"; classIs "google-ads"; classIs "adsense"
  ]%string.

(** [$(...).remove()] for the elements that satisfy [p]: an element is
    judged as it stands before the call, with its ancestors [anc]. *)
Fixpoint removeWhere (p : node -> list node -> bool) (anc : list node)
    (n : node) : list node :=
  match n with
  | Element name attribs kids =>
      if p n anc then []
      else [Element name attribs (flat_map (removeWhere p (n :: anc)) kids)]
  | _ => [n]
  end.

(** [$(el).replaceWith(replacement)] for the elements that satisfy [p]. *)
Fixpoint replaceWhere (p : node -> list node -> bool)
    (replacement : list node) (anc : list node) (n : node) : list node :=
  match n with
  | Element name attribs kids =>
      if p n anc then replacement
      else [Element name attribs
              (flat_map (replaceWhere p replacement (n :: anc)) kids)]
  | _ => [n]
  end.

(** [$(target).append(extra)] for the elements that satisfy [p]. *)
Fixpoint appendWhere (p : node -> list node -> bool) (extra : list node)
    (anc : list node) (n : node) : node :=
  match n with
  | Element name attribs kids =>
      Element name attribs
        (map (appendWhere p extra (n :: anc)) kids ++
         (if p n anc then extra else []))
  | _ => n
  end.

Definition hasTag (names : list string) (n : node) : bool :=
  isElement n && existsb (String.eqb (tagName n)) names.

(** The elements removed for one of [IRRELEVANT_SELECTORS]:
    [$(selector).not('img').not(':has(img)')] *)
Definition irrelevant (sel : selector) (n : node) (anc : list node) : bool :=
  matchesSelector sel n anc
  && negb (hasTag ["img"%string] n)
  && negb (existsb (hasTag ["img"%string]) (descendants n)).

(** The test of [$('script').each]. *)
Definition isAnalyticsScript (n : node) (anc : list node) : bool :=
  hasTag ["script"%string] n &&
  let src := attrOrEmpty n "src" in
  let content := innerHTML n in
  existsb (fun pattern => test pattern src || test pattern content)
    ANALYTICS_PATTERNS.

(** The test of [$('svg').each]. *)
Definition isHeavySvg (n : node) (anc : list node) : bool :=
  hasTag ["svg"%string] n && (10000 <? Str.len (outerHTML n)).

(** '<div class="svg-placeholder">[Large SVG removed for optimization]</div>' *)
Definition svgPlaceholder : list node :=
  [ Element "div" [("class", "svg-placeholder")]%string
      [ Text "[Large SVG removed for optimization]" ] ].

(** The test of the loop that removes empty elements. *)
Definition isEmptyElement (n : node) (anc : list node) : bool :=
  isElement n
  && negb (hasTag ["img"; "input"; "br"; "hr"; "area"; "base"; "col";
                   "embed"; "source"; "track"; "wbr"]%string n)
  && Str.isEmpty (Str.trim (textContent n))
  && negb (existsb (hasTag ["img"; "input"; "br"; "hr"]%string)
             (descendants n)).

Definition onDocument (f : list node -> node -> list node) (doc : document)
    : document :=
  flat_map (f []) doc.

(** The document after the four removals. *)
Definition cleaned (doc : document) : document :=
  let d1 :=
    fold_left (fun d sel => onDocument (removeWhere (irrelevant sel)) d)
      IRRELEVANT_SELECTORS doc in
  let d2 := onDocument (removeWhere isAnalyticsScript) d1 in
  let d3 := onDocument (replaceWhere isHeavySvg svgPlaceholder) d2 in
  onDocument (removeWhere isEmptyElement) d3.

(** All the [img] elements of a document, in document order. *)
Definition imagesOf (doc : document) : list node :=
  map self (select doc [[[Tag "img"]]]).

(** The set [currentImages]: the sources, not empty, of the images of the
    document. *)
Definition sourcesOf (doc : document) : gset string :=
  list_to_set
    (flat_map (fun img =>
       match attr img "src" with
       | Some src => if Str.isEmpty src then [] else [src]
       | None => []
       end) (imagesOf doc)).

(** The images to restore: those stored in [allImages] whose source is not
    in [currentImages]. The markup stored for an image parses back to the
    image. *)
Definition lostImages (allImages : list node) (currentImages : gset string)
    : list node :=
  List.filter (fun img =>
    match attr img "src" with
    | Some src => negb (Str.isEmpty src) && bool_decide (src ∉ currentImages)
    | None => false
    end) allImages.

Definition isBody (n : node) (anc : list node) : bool :=
  matchesSelector [[[Tag "body"]]] n anc.

(** [removeIrrelevantContent(html)]; the result is the document whose
    serialization [$.html()] the function returns. *)
Definition removeIrrelevantContent (doc : document) : document :=
  let allImages := imagesOf doc in
  let d := cleaned doc in
  let currentImages := sourcesOf d in
  map (appendWhere isBody (lostImages allImages currentImages) []) d.

(** The bytes that the UTF-8 encoding of a [Blob] takes for one code unit
    of a text: one below 128 and two from there on, the code units of the
    texts here being those below 256. (A code unit above takes at most
    three.) *)
Definition utf8Width (c : ascii) : Z :=
  if (nat_of_ascii c <? 128)%nat then 1 else 2.

(** [new Blob([content]).size]: the bytes of the encoded text.
    [getContentSize(content)] is this number over 1024. *)
Fixpoint blobSize (content : string) : Z :=
  match content with
  | EmptyString => 0
  | String c rest => utf8Width c + blobSize rest
  end.

(** [needsOptimization(data)]: [getContentSize(...) > 500], that is
    [size / 1024 > 500]; the division by a power of two is exact. *)
Definition needsOptimization (html css javascript : string) : bool :=
  500 * 1024 <? blobSize (html +:+ css +:+ javascript).

End ContentOptimizer.

(** ** [llmService.ts]: the choice between the two ways of processing *)

Module LlmService.

(** The number of matches of [html.match(/<img[^>]*>/g)], found from left
    to right. A match opens at the text '<img' and closes at the next '>';
    what stands in between holds no '>', hence the start of no other
    match. [inTag] tells that a match is open. An opening that no '>'
    follows is no match, and nothing after it is one. *)
Fixpoint countImgTags (inTag : bool) (s : string) : Z :=
  match s with
  | EmptyString => 0
  | String c s' =>
      if inTag then
        if Ascii.eqb c ">" then 1 + countImgTags false s'
        else countImgTags true s'
      else if String.prefix "<img" s then countImgTags true s'
      else countImgTags false s'
  end.

(** [shouldUseChunkedProcessing(websiteData)] *)
Definition shouldUseChunkedProcessing (html css javascript : string) : bool :=
  let totalSize := Str.len html + Str.len css + Str.len javascript in
  let estimatedTokens := estimateTokenCount (html +:+ css +:+ javascript) in
  let imageCount := countImgTags false html in
  (75000 <? totalSize) || (20000 <? estimatedTokens) || (8 <? imageCount)
  || ((50000 <? totalSize) && (5 <? imageCount)).

End LlmService.


(** ** [metrics.ts]: the arrays of the class [MetricsCollector] *)

Module MetricsCollector.

(** [MAX_METRICS_STORED] *)
Definition MAX_METRICS_STORED : nat := 1000.

(** [trimMetrics(metricsArray)]: [splice(0, n)] takes the first [n]
    elements out of the array. *)
Definition trimMetrics {T} (metricsArray : list T) : list T :=
  if (MAX_METRICS_STORED <? length metricsArray)%nat
  then skipn (length metricsArray - MAX_METRICS_STORED) metricsArray
  else metricsArray.

(** The body that [recordRequest], [recordRateLimit] and [recordQuality]
    share: the metrics are pushed with the time of the call, and the
    array is trimmed. The pair stands for the object
    [{...metrics, timestamp: Date.now()}]. *)
Definition recordMetrics {T} (now : Z) (metrics : T)
    (metricsArray : list (Z * T)) : list (Z * T) :=
  trimMetrics (metricsArray ++ [(now, metrics)]).

End MetricsCollector.
(** * Specification-level definitions

  The definitions of this part follow the words of the specification; the
  theorems below compare them with the definitions made from the code. *)

Module DomSpec.

Import Dom.


(** Nodes that are no elements: text and comments, and the doctype, which
    no selector matches. *)
Definition bare (l : list node) : Prop :=
  Forall (fun n => isElement n = false) l.

(** A page as the parser builds it: at the root the nodes [top], the
    [html] element and the nodes [bottom]; in the [html] element the nodes
    [before], the [body] with the nodes [body], and the nodes [after]. *)
Definition page (top : list node) (htmlAttribs : list (string * string))
    (before : list node) (bodyAttribs : list (string * string))
    (body after bottom : list node) : document :=
  top ++ Element "html" htmlAttribs
           (before ++ Element "body" bodyAttribs body :: after) :: bottom.

End DomSpec.

Module LimiterSpec.

Import TokenBucket.

(** The records of the bucket that lie in the window that ends at [now]. *)
Definition inWindow (now : Z) (b : TokenBucket.t) : list UsageRecord :=
  List.filter (fun r => now - windowSize (config b) <? timestamp r)
    (usageHistory b).

(** The tokens recorded by a list of records. *)
Fixpoint usage (h : list UsageRecord) : Z :=
  match h with
  | [] => 0
  | r :: rest => tokensUsed r + usage rest
  end.

(** The bucket with the usage history [h]. *)
Definition withHistory (h : list UsageRecord) (b : TokenBucket.t)
    : TokenBucket.t :=
  set_usageHistory h b.

(** Walking [h] oldest-first: the first record at which the running total
    reaches [excess]. *)
Definition firstReaching (excess : Z) (h : list UsageRecord)
    : option UsageRecord :=
  match List.find (fun i => excess <=? usage (firstn (S i) h))
          (seq 0 (length h)) with
  | Some i => nth_error h i
  | None => None
  end.

(** The wait of the specification: nothing when the request is admitted;
    otherwise the time until the record found by the walk leaves the
    window, floored at 0, or a full window when the walk finds none. *)
Definition specWait (now tokens : Z) (b : TokenBucket.t) : Z :=
  let h := inWindow now b in
  let excess := usage h + tokens - maxTokens (config b) in
  if usage h + tokens <=? maxTokens (config b) then 0
  else match firstReaching excess h with
       | Some r => Z.max 0 (timestamp r + windowSize (config b) - now)
       | None => windowSize (config b)
       end.

(** A bucket state as the program can reach it at time [now]: the window
    is positive and no record comes from the future. *)
Definition wellFormed (now : Z) (b : TokenBucket.t) : Prop :=
  0 < windowSize (config b) /\
  Forall (fun r => timestamp r <= now) (usageHistory b).

(** The wait of the specification when the clock moves during the call:
    the request is admitted or not at [now1], the excess is that of the
    window at [now2], and the time until the record found leaves the
    window is taken at [now3]. *)
Definition specWaitAt (now1 now2 now3 tokens : Z) (b : TokenBucket.t) : Z :=
  if usage (inWindow now1 b) + tokens <=? maxTokens (config b) then 0
  else
    let h := inWindow now2 b in
    let excess := usage h + tokens - maxTokens (config b) in
    match firstReaching excess h with
    | Some r => Z.max 0 (timestamp r + windowSize (config b) - now3)
    | None => windowSize (config b)
    end.

(** The claim of the specification at one state and one request: the wait
    is 0 exactly when the request is admitted, and otherwise positive and
    at most a window. *)
Definition claimedWait (now tokens : Z) (b : TokenBucket.t) : Prop :=
  let ok := evalM (canProcess now tokens) b in
  let wait := evalM (waitTimeForTokens now tokens) b in
  (wait = 0 <-> ok = true) /\
  (ok = false -> 0 < wait <= windowSize (config b)).

End LimiterSpec.

Module ChunkerSpec.

Import Dom ContentChunker.

(** *** The order of the chunk list *)

(** The list is sorted by priority: critical, high, medium, low. *)
Definition sortedByPriority (l : list ContentChunk) : Prop :=
  forall i j a b, (i < j)%nat ->
    nth_error l i = Some a -> nth_error l j = Some b ->
    priorityOrder (priority a) <= priorityOrder (priority b).

(** The header chunk is the first of the whole list. *)
Definition headerFirst (l : list ContentChunk) : Prop :=
  forall c, In c l -> type c = TyHeader -> hd_error l = Some c.

(** The footer chunk is the last of the whole list. *)
Definition footerLast (l : list ContentChunk) : Prop :=
  forall c, In c l -> type c = TyFooter -> hd_error (rev l) = Some c.

(** The order of the list as the specification states it. *)
Definition claimedOrdering (l : list ContentChunk) : Prop :=
  sortedByPriority l /\ headerFirst l /\ footerLast l.

(** The place of a section type among chunks of one priority. *)
Definition typeRank (ty : SectionType) : Z :=
  match ty with
  | TyHeader => 0
  | TyFooter => 2
  | _ => 1
  end.

(** [a] may stand before [b]: by priority, and by header first and footer
    last among chunks of the same priority. *)
Definition chunkOrder (a b : ContentChunk) : Prop :=
  priorityOrder (priority a) < priorityOrder (priority b) \/
  (priorityOrder (priority a) = priorityOrder (priority b) /\
   typeRank (type a) <= typeRank (type b)).

(** The order of the list in words: sorted by priority, and within one
    priority no chunk stands before a header and no footer stands before
    another chunk. *)
Definition orderedWithinPriority (l : list ContentChunk) : Prop :=
  forall i j a b, (i < j)%nat ->
    nth_error l i = Some a -> nth_error l j = Some b ->
    priorityOrder (priority a) <= priorityOrder (priority b) /\
    (priority a = priority b ->
       (type b = TyHeader -> type a = TyHeader) /\
       (type a = TyFooter -> type b = TyFooter)).

(** *** The chunk of the markup that is left *)

(** The markup left in the body after the typed extractions. *)
Definition leftover (doc : document) (css javascript : string) : list node :=
  bodyContent (dom (extractAllTypes css javascript (analyzeImages doc) doc)).

(** The claim of the specification: whenever any markup is left, the list
    ends with the one chunk of type mixed, which carries all of [css] and
    [javascript]. *)
Definition claimedMixed (doc : document) (css javascript : string) : Prop :=
  renderAll (leftover doc css javascript) <> EmptyString ->
  exists before mixed,
    chunks (chunkContent doc css javascript) = before ++ [mixed] /\
    type mixed = TyMixed /\
    ContentChunker.css mixed = css /\
    ContentChunker.javascript mixed = javascript /\
    Forall (fun c => type c <> TyMixed) before.

(** *** The importance of an image *)

Definition hasClass (c : string) (n : node) : bool :=
  existsb (String.eqb c) (classList n).

Definition hasAttr (a : string) (n : node) : bool :=
  match attr n a with Some _ => true | None => false end.

(** The image or one of its ancestors satisfies [p]. *)
Definition inContext (p : node -> bool) (img : handle) : bool :=
  existsb p (self img :: ancestors img).

(** A product, shop or catalog context. *)
Definition productContext (n : node) : bool :=
  hasClass "product" n || hasClass "product-image" n
  || hasClass "product-photo" n || hasClass "product-gallery" n
  || hasClass "shop" n || hasClass "catalog" n || hasClass "item-image" n
  || hasAttr "data-product-image" n.

(** A hero, banner or main-image context. *)
Definition heroContext (n : node) : bool :=
  hasClass "hero" n || hasClass "hero-image" n || hasClass "banner" n
  || hasClass "main-image" n.

(** The six rules, first match first, with the structural contexts
    [structural] of the second rule and the keywords [heroWords] of the
    fourth. *)
Definition importanceByRules (structural : node -> bool)
    (heroWords : list string) (img : handle) (context : string)
    : Importance :=
  let src := attrOrEmpty (self img) "src" in
  let alt := attrOrEmpty (self img) "alt" in
  let className := attrOrEmpty (self img) "class" in
  if Str.startsWith src "data:image/" && (50000 <? Str.len src)
  then ImpCritical
  else if inContext structural img then ImpCritical
  else if someKeyword ["product"; "item"; "shop"; "buy"; "catalog"; "store"]
            alt className context
  then ImpProduct
  else if someKeyword heroWords alt className context then ImpHero
  else if (imagePosition img <? 3) && (10000 <? Str.len src) then ImpHero
  else ImpDecorative.

(** The rules as the specification states them. *)
Definition claimedImportance (img : handle) (context : string) : Importance :=
  importanceByRules productContext ["hero"; "banner"; "featured"] img context.

(** The rules that the code follows: the hero, banner and main-image
    contexts are structural contexts of the second rule too, and the
    fourth rule knows the keywords main and primary as well. *)
Definition specImportance (img : handle) (context : string) : Importance :=
  importanceByRules (fun n => productContext n || heroContext n)
    ["hero"; "banner"; "main"; "featured"; "primary"] img context.

(** *** Conservation of images *)

(** The images attached to the chunks of a list, counted with
    multiplicity. *)
Definition attachedImages (l : list ContentChunk) : Z :=
  JsArray.sumBy (fun chunk => Z.of_nat (length (images chunk))) l.


(** An element that one of the section selectors matches. *)
Definition isSection (n : node) : bool :=
  existsb (fun ty => matchesSelector (SECTION_SELECTORS ty) n []) sectionTypes.

Definition isImage (n : node) : bool := matchesCompound [Tag "img"] n.

(** A region: a section of at least 50 characters that is not itself an
    image and has no section below it. *)
Definition isRegion (n : node) : Prop :=
  isSection n = true /\ isImage n = false /\
  50 <= Str.len (outerHTML n) /\
  Forall (fun d => isSection d = false) (descendants n).

(** Plain markup: no section and no image in it. *)
Definition isPlain (n : node) : Prop :=
  Forall (fun d => isSection d = false /\ isImage d = false) (subtree n).

(** The nodes of a body that stand outside the sections. *)
Definition outsideSections (body : list node) : list node :=
  List.filter (fun n => negb (isSection n)) body.

(** A flat page: its body is a sequence of regions and plain markup, and
    the plain markup, trimmed, has at most 100 characters. *)
Definition flatBody (body : list node) : Prop :=
  Forall (fun n => isRegion n \/ isPlain n) body /\
  Str.len (Str.trim (renderAll (outsideSections body))) <= 100.

(** An image with a source. *)
Definition sourced (n : node) : bool :=
  isImage n && negb (Str.isEmpty (attrOrEmpty n "src")).

(** The images with a source in a list of nodes. *)
Definition imageCount (l : list node) : nat :=
  length (List.filter sourced (flat_map subtree l)).

(** An element of the markup around the body: no section, no image and no
    [body] of its own. *)
Definition isShell (n : node) : bool :=
  negb (isSection n) && negb (isImage n)
  && negb (matchesCompound [Tag "body"] n).

(** A flat page: a page as the parser builds it whose [html] and [body]
    elements are no sections, with no section, image or [body] before its
    body, and whose body is flat. *)
Definition flatPage (doc : document) : Prop :=
  exists top htmlAttribs before bodyAttribs body after bottom,
    doc = DomSpec.page top htmlAttribs before bodyAttribs body after bottom /\
    DomSpec.bare top /\ DomSpec.bare after /\ DomSpec.bare bottom /\
    isSection (Element "html" htmlAttribs []) = false /\
    isSection (Element "body" bodyAttribs []) = false /\
    Forall (fun d => isShell d = true) (flat_map subtree before) /\
    flatBody body.

End ChunkerSpec.

(** * The model router *)

Module RouterSpec.

Import ContentChunker ModelRouter.

(** What a chunk with a critical or product image is mapped to. *)
Definition respectsCritical (entry : ContentChunk * ModelSelection) : Prop :=
  existsb isCriticalOrProduct (images (fst entry)) = true ->
  model (snd entry) = Gpt5.

End RouterSpec.

(** * The content optimizer *)

Module OptimizerSpec.

Import Dom ContentOptimizer DomSpec.

Definition isImg (n : node) : bool := hasTag ["img"%string] n.

(** A document as the parser builds it. Beside the doctype and comments
    the root holds the [html] element. In it stand, before the [body], the
    [head], white space and comments, none with an image, and after the
    [body] comments only; or the document has a [frameset] for a body, and
    then no image at all. No image stands below a [script] element, whose
    content is text. *)
Definition parsed (doc : document) : Prop :=
  ((exists top htmlAttribs before bodyAttribs body after bottom,
      doc = page top htmlAttribs before bodyAttribs body after bottom /\
      bare top /\ bare after /\ bare bottom /\
      Forall (fun n => isImg n = false) (flat_map subtree before)) \/
   Forall (fun n => isImg n = false) (flat_map subtree doc)) /\
  Forall (fun n => hasTag ["script"%string] n = true ->
                   Forall (fun d => isImg d = false) (descendants n))
    (flat_map subtree doc).

(** An image stands in the subtree of the node. *)
Definition hasImage (n : node) : bool := existsb isImg (subtree n).

(** An image can be reached from the node without entering a [script]
    element. *)
Fixpoint reachableImage (n : node) : bool :=
  match n with
  | Element name _ kids =>
      negb (String.eqb name "script")
      && (String.eqb name "img" || existsb reachableImage kids)
  | _ => false
  end.

(** A string of white space only. *)
Fixpoint allSpace (s : string) : bool :=
  match s with
  | EmptyString => true
  | String c s' => Str.isSpace c && allSpace s'
  end.

(** The text of the nodes is blank. *)
Definition blankText (l : list node) : bool :=
  forallb (fun n => allSpace (textContent n)) l.

End OptimizerSpec.

(** * Sample documents *)

Module Samples.

Import Dom ContentChunker.

(** '<header><h1>Welcome to the site of the year, friends</h1></header>' *)
Definition header : node :=
  Element "header" []
    [Element "h1" [] [Text "Welcome to the site of the year, friends"]].

(** '<div class="product"><img src="p.png">A very nice thing to have</div>' *)
Definition product : node :=
  Element "div" [("class", "product")]%string
    [Element "img" [("src", "p.png")]%string [];
     Text "A very nice thing to have"].

(** '<footer><p>Copyright 2024 the company, all rights reserved</p></footer>' *)
Definition footer : node :=
  Element "footer" []
    [Element "p" [] [Text "Copyright 2024 the company, all rights reserved"]].

(** A page with a header, a product section and a footer. *)
Definition shopPage : document := loadMarkup [header; product; footer].



(** '<p>hi</p>' alone in the body. *)
Definition shortPage : document :=
  loadMarkup [Element "p" [] [Text "hi"]].

(** '<div class="hero"><img src="a.png" alt="hero shot"></div>' *)
Definition heroImage : node :=
  Element "img" [("src", "a.png"); ("alt", "hero shot")]%string [].
Definition heroSection : node :=
  Element "div" [("class", "hero")]%string [heroImage].
Definition heroPage : document := loadMarkup [heroSection].

(** The image of [heroPage] as [$('img')] finds it. *)
Definition heroHandle : handle :=
  {| self := heroImage;
     ancestors :=
       [ heroSection;
         Element "body" [] [heroSection];
         Element "html" [] [Element "head" [] [];
                            Element "body" [] [heroSection]] ];
     path := [0; 1; 0; 0]%nat |}.

(** A page with a footer and a paragraph of more than 100 characters. *)
Definition longParagraph : node :=
  Element "p" []
    [Text "This paragraph stands outside every section of the page, and it is long enough to be kept as a chunk."].
Definition longPage : document := loadMarkup [footer; longParagraph].

(** A chunk with one image of importance critical. *)
Definition criticalChunk : ContentChunk :=
  {| id := "chunk-1";
     type := TyProduct;
     html := [product];
     css := "";
     javascript := "";
     images := [ {| src := "p.png"; alt := ""; imageTokens := 20;
                    importance := ImpCritical; context := "" |} ];
     estimatedTokens := 38;
     priority := PrioCritical;
     preserveOrder := false |}.

(** '<main><img src="a.png"><div>first part</div><div>second part</div></main>' *)
Definition mainSection : node :=
  Element "main" []
    [ Element "img" [("src", "a.png")]%string [];
      Element "div" [] [Text "first part"];
      Element "div" [] [Text "second part"] ].
Definition mainPage : document := loadMarkup [mainSection].

(** The same section in a body that is itself a section:
    '<body class="main"><main>...</main></body>' *)
Definition mainBodyPage : document :=
  [ Element "html" []
      [ Element "head" [] [];
        Element "body" [("class", "main")]%string [mainSection] ] ].

(** A page whose only image stands inside a vector graphic of more than
    10 000 characters:
    '<svg><foreignObject><img src="x.png"></foreignObject>aaa...</svg>' *)
Definition padding : string :=
  string_of_list_ascii (repeat "a"%char (100 * 100)).
Definition heavySvg : node :=
  Element "svg" []
    [ Element "foreignObject" []
        [Element "img" [("src", "x.png")]%string []];
      Text padding ].
Definition svgPage : document :=
  [ Element "html" []
      [ Element "head" [] []; Element "body" [] [heavySvg] ] ].

(** A page as it is written: a doctype, a title in the head, a line break
    after the head, the body with the heavy graphic and a paragraph, and
    comments after the body and after the document:
    '<!DOCTYPE html><html lang="en"><head><title>Shop</title></head>
     <body class="home"><svg>...</svg><p>Hello</p></body><!-- a --></html>
     <!-- b -->' *)
Definition typicalPage : document :=
  [ Comment "DOCTYPE html";
    Element "html" [("lang", "en")]%string
      [ Element "head" [] [Element "title" [] [Text "Shop"]];
        Text (String (ascii_of_nat 10) EmptyString);
        Element "body" [("class", "home")]%string
          [heavySvg; Element "p" [] [Text "Hello"]];
        Comment " a " ];
    Comment " b " ].

(** A bucket of 1000 tokens a minute after 900 tokens are consumed at
    time 0. *)
Definition sampleBucket : TokenBucket.t :=
  execM (TokenBucket.consumeTokens 0 900)
    (TokenBucket.new {| TokenBucket.maxTokens := 1000;
                        TokenBucket.refillRate := 16;
                        TokenBucket.windowSize := 60000 |}).

(** A bucket of 10 tokens whose window is empty: [windowSize] is 0. *)
Definition zeroWindowBucket : TokenBucket.t :=
  TokenBucket.new {| TokenBucket.maxTokens := 10;
                     TokenBucket.refillRate := 1;
                     TokenBucket.windowSize := 0 |}.

(** A bucket of 1000 tokens a second that holds a record stamped at 3000,
    as it is read when the clock shows 100. *)
Definition futureBucket : TokenBucket.t :=
  execM (TokenBucket.consumeTokens 3000 900)
    (TokenBucket.new {| TokenBucket.maxTokens := 1000;
                        TokenBucket.refillRate := 1000;
                        TokenBucket.windowSize := 1000 |}).

End Samples.

(** * Histories of a token bucket *)

Module LimiterHistory.

Import TokenBucket LimiterSpec.

(** The records stand in the order of their times, as [consumeTokens]
    pushes them. *)
Definition chronological (h : list UsageRecord) : Prop :=
  StronglySorted (fun r s => timestamp r <= timestamp s) h.

(** No record gives tokens back. *)
Definition nonNegative (h : list UsageRecord) : Prop :=
  Forall (fun r => 0 <= tokensUsed r) h.

(** The methods of the class. *)
Inductive call :=
  | CanProcess (tokenCount : Z)
  | ConsumeTokens (tokenCount : Z)
  | GetAvailableTokens
  | WaitTimeForTokens (tokenCount : Z)
  | RecordRateLimitError
  | IncrementQueuedRequests
  | DecrementQueuedRequests
  | GetMetrics
  | Reset.

(** The state that a call made at time [now] leaves. *)
Definition perform (now : Z) (c : call) (b : TokenBucket.t) : TokenBucket.t :=
  match c with
  | CanProcess tokenCount => execM (canProcess now tokenCount) b
  | ConsumeTokens tokenCount => execM (consumeTokens now tokenCount) b
  | GetAvailableTokens => execM (getAvailableTokens now) b
  | WaitTimeForTokens tokenCount => execM (waitTimeForTokens now tokenCount) b
  | RecordRateLimitError => execM recordRateLimitError b
  | IncrementQueuedRequests => execM incrementQueuedRequests b
  | DecrementQueuedRequests => execM decrementQueuedRequests b
  | GetMetrics => execM (getMetrics now) b
  | Reset => execM reset b
  end.

(** The readings of the clock during one call, in the order in which the
    call makes them. A method that reads the clock once reads [read1];
    [consumeTokens] and [getMetrics] read [read1] and [read2]. *)
Record readings := {
  read1 : Z;
  read2 : Z;
  read3 : Z
}.

(** The state that a call leaves when the clock moves during the call. *)
Definition performAt (r : readings) (c : call) (b : TokenBucket.t)
    : TokenBucket.t :=
  match c with
  | CanProcess tokenCount => execM (canProcess (read1 r) tokenCount) b
  | ConsumeTokens tokenCount =>
      execM (consumeTokensAt (read1 r) (read2 r) tokenCount) b
  | GetAvailableTokens => execM (getAvailableTokens (read1 r)) b
  | WaitTimeForTokens tokenCount =>
      execM (waitTimeForTokensAt (read1 r) (read2 r) (read3 r) tokenCount) b
  | RecordRateLimitError => execM recordRateLimitError b
  | IncrementQueuedRequests => execM incrementQueuedRequests b
  | DecrementQueuedRequests => execM decrementQueuedRequests b
  | GetMetrics => execM (getMetricsAt (read1 r) (read2 r)) b
  | Reset => execM reset b
  end.

(** The state after a sequence of calls, each with the readings of the
    clock that it makes. *)
Definition performAll (calls : list (readings * call)) (b : TokenBucket.t)
    : TokenBucket.t :=
  fold_left (fun b rc => performAt (fst rc) (snd rc) b) calls b.

(** The clock does not run backwards during a call. *)
Definition steady (r : readings) : Prop := read1 r <= read2 r <= read3 r.

(** The clock does not run backwards, during the calls and from one call
    to the next. *)
Definition clockwise (calls : list (readings * call)) : Prop :=
  Forall (fun rc => steady (fst rc)) calls /\
  StronglySorted (fun x y => read3 (fst x) <= read1 (fst y)) calls.

(** No call consumes a negative number of tokens. *)
Definition consumesTokens (rc : readings * call) : Prop :=
  match snd rc with
  | ConsumeTokens tokenCount => 0 <= tokenCount
  | _ => True
  end.

(** What holds of a state at time [now]: the window is positive, the
    records lie in the past, in the order of their times, none is
    negative, the two counters are not negative, and every wait recorded
    lies between 0 and a window. *)
Definition sound (now : Z) (b : TokenBucket.t) : Prop :=
  wellFormed now b /\
  chronological (usageHistory b) /\
  nonNegative (usageHistory b) /\
  0 <= queuedRequests b /\
  0 <= errors429Count b /\
  Forall (fun w => 0 <= w <= windowSize (config b)) (waitTimes b).

(** A call that only observes the bucket or moves its counters: every
    method but [consumeTokens] and [reset]. *)
Definition observes (c : call) : bool :=
  match c with
  | ConsumeTokens _ | Reset => false
  | _ => true
  end.

(** The wait of a request that is refused: what the walk over the records
    of the window finds, or a full window. *)
Definition foundWait (now tokens : Z) (b : TokenBucket.t) : Z :=
  let h := inWindow now b in
  match walkUsage now (windowSize (config b))
          (usage h + tokens - maxTokens (config b)) 0 h with
  | Some w => w
  | None => windowSize (config b)
  end.

(** The wait of a request that is refused when the clock moves: the walk
    over the records of the window at [now2], the time of the record found
    taken at [now3]. *)
Definition foundWaitAt (now2 now3 tokens : Z) (b : TokenBucket.t) : Z :=
  let h := inWindow now2 b in
  match walkUsage now3 (windowSize (config b))
          (usage h + tokens - maxTokens (config b)) 0 h with
  | Some w => w
  | None => windowSize (config b)
  end.

End LimiterHistory.

(** * The buckets of the manager *)

Module ManagerSpec.

(** The method [m] of the manager leaves the bucket of [model] as it
    is. *)
Definition untouched {A} (model : string) (m : M RateLimiterManager.t A)
    (buckets : RateLimiterManager.t) : Prop :=
  (execM m buckets : gmap string TokenBucket.t) !! model
  = (buckets : gmap string TokenBucket.t) !! model.

(** What a bucket that has just been made answers. *)
Definition freshAnswers (now tokens : Z) (model : string)
    (c : TokenBucket.TokenBucketConfig) (buckets : RateLimiterManager.t)
    : Prop :=
  evalM (RateLimiterManager.canProcess now tokens model) buckets
  = (tokens <=? TokenBucket.maxTokens c) /\
  evalM (RateLimiterManager.getAvailableTokens now model) buckets
  = Finite (Z.max 0 (TokenBucket.maxTokens c)) /\
  evalM (RateLimiterManager.waitTimeForTokens now tokens model) buckets
  = if tokens <=? TokenBucket.maxTokens c then 0
    else TokenBucket.windowSize c.

(** Two states of the manager know the same models and hold for each the
    same configuration and, from time [now] on, the same records in its
    window. *)
Definition sameWindows (now : Z) (l1 l2 : RateLimiterManager.t) : Prop :=
  forall model,
    match (l1 : gmap string TokenBucket.t) !! model,
          (l2 : gmap string TokenBucket.t) !! model with
    | Some b1, Some b2 =>
        TokenBucket.config b1 = TokenBucket.config b2 /\
        forall now', now <= now' ->
          LimiterSpec.inWindow now' b1 = LimiterSpec.inWindow now' b2
    | None, None => True
    | _, _ => False
    end.

End ManagerSpec.

(** * Scripts and images as the parser builds them *)

Module MarkupSpec.

Import Dom ContentOptimizer.

(** A [script] or an [img] element. *)
Definition isLeafTag (n : node) : bool := hasTag ["script"; "img"]%string n.

(** The children of the node are text and comments. *)
Definition noElements (n : node) : Prop :=
  Forall (fun k => isElement k = false) (childNodes n).

(** A [script] holds text only and an [img] holds no element: what the
    parser builds for every document. *)
Definition leafy (n : node) : Prop := isLeafTag n = true -> noElements n.

Definition wellNested (l : list node) : Prop :=
  Forall leafy (flat_map subtree l).

(** No tracking script: the test of [removeIrrelevantContent] fails. *)
Definition clean (n : node) : Prop := isAnalyticsScript n [] = false.

(** A property of nodes that looks at the name and the attributes of an
    element, and at its children only if it is a [script] or an [img]. *)
Definition shallow (P : node -> Prop) : Prop :=
  forall name attribs kids kids',
    (isLeafTag (Element name attribs kids) = true -> kids' = kids) ->
    P (Element name attribs kids) -> P (Element name attribs kids').

End MarkupSpec.

(** * More sample documents *)

Module MoreSamples.

Import Dom.

(** A page with a tracking script, a script of its own, a paragraph and an
    image:
    '<script src="https://www.google-analytics.com/analytics.js"></script>
     <script>start()</script><p>Hello</p><img src="a.png">' *)
Definition trackedPage : document :=
  ContentChunker.loadMarkup
    [ Element "script"
        [("src", "https://www.google-analytics.com/analytics.js")]%string [];
      Element "script" [] [Text "start()"];
      Element "p" [] [Text "Hello"];
      Element "img" [("src", "a.png")]%string [] ].

End MoreSamples.

(** * Properties of the document object model *)

Module DomProofs.

Import Dom DomSpec.

(** Induction over a node and the nodes below it. *)
Lemma node_induction (P : node -> Prop) :
  (forall data, P (Text data)) ->
  (forall data, P (Comment data)) ->
  (forall name attribs kids, Forall P kids -> P (Element name attribs kids)) ->
  forall n, P n.
Proof.
  intros HT HC HE. fix IH 1. intros [data|data|name attribs kids].
  - apply HT.
  - apply HC.
  - apply HE. induction kids as [|k kids IHk]; constructor.
    + apply IH.
    + exact IHk.
Qed.

Lemma existsb_orb {A} (f g : A -> bool) (l : list A) :
  existsb (fun x => f x || g x) l = existsb f l || existsb g l.
Proof.
  induction l as [|x l IH]; simpl; [reflexivity|].
  rewrite IH. destruct (f x), (g x), (existsb f l); reflexivity.
Qed.

Lemma map_filter {A B} (f : A -> B) (p : B -> bool) (l : list A) :
  map f (List.filter (fun x => p (f x)) l) = List.filter p (map f l).
Proof.
  induction l as [|x l IH]; simpl; [reflexivity|].
  destruct (p (f x)); simpl; rewrite IH; reflexivity.
Qed.

Lemma filter_ext {A} (p q : A -> bool) (l : list A) :
  (forall x, p x = q x) -> List.filter p l = List.filter q l.
Proof.
  intros H. induction l as [|x l IH]; simpl; [reflexivity|].
  rewrite H, IH. reflexivity.
Qed.

Lemma lineage_self (n : node) (anc : list node) (p : list nat) :
  map self (lineage n anc p) = n :: anc.
Proof.
  revert n p. induction anc as [|a anc IH]; intros n p; simpl;
    [reflexivity|]. rewrite IH. reflexivity.
Qed.

Lemma matchesAncestors_nil (anc : list node) : matchesAncestors [] anc = true.
Proof. destruct anc; reflexivity. Qed.

Lemma matches_compound (c : compound) (h : handle) :
  matches [[c]] h = matchesCompound c (self h).
Proof.
  unfold matches, matchesSelector, matchesComplex.
  cbn [rev app existsb].
  rewrite matchesAncestors_nil, orb_false_r, andb_true_r. reflexivity.
Qed.

Lemma find_existsb {A} (f : A -> bool) (l : list A) :
  match List.find f l with Some _ => true | None => false end = existsb f l.
Proof.
  induction l as [|x l IH]; simpl; [reflexivity|].
  destruct (f x); [reflexivity | exact IH].
Qed.

Lemma existsb_map {A B} (f : B -> bool) (g : A -> B) (l : list A) :
  existsb f (map g l) = existsb (fun x => f (g x)) l.
Proof.
  induction l as [|x l IH]; simpl; [reflexivity|]. rewrite IH. reflexivity.
Qed.

Lemma existsb_ext {A} (f g : A -> bool) (l : list A) :
  (forall x, f x = g x) -> existsb f l = existsb g l.
Proof.
  intros H. induction l as [|x l IH]; simpl; [reflexivity|].
  rewrite H, IH. reflexivity.
Qed.


(** The handles of a subtree stand for its elements, in document order. *)
Lemma handlesOf_unfold (anc : list node) (p : list nat) (name : string)
    (attribs : list (string * string)) (kids : list node) :
  handlesOf anc p (Element name attribs kids)
  = {| self := Element name attribs kids; ancestors := anc; path := p |}
    :: handlesOfList (Element name attribs kids :: anc) p 0 kids.
Proof.
  cbn [handlesOf]. f_equal.
  generalize (Element name attribs kids :: anc) as anc'.
  generalize 0%nat as i.
  induction kids as [|k kids IH]; intros i anc'; [reflexivity|].
  cbn [handlesOfList]. rewrite <- IH. reflexivity.
Qed.

Lemma handlesOf_self (n : node) :
  forall anc p, map self (handlesOf anc p n) = subtree n.
Proof.
  induction n as [data|data|name attribs kids IH] using node_induction;
    intros anc p; [reflexivity | reflexivity |].
  rewrite handlesOf_unfold. cbn [map self subtree]. f_equal.
  generalize 0%nat as i.
  generalize (Element name attribs kids :: anc) as anc'.
  induction IH as [|k kids Hk _ IHkids]; intros anc' i; [reflexivity|].
  cbn [handlesOfList flat_map]. rewrite map_app, Hk, IHkids. reflexivity.
Qed.

Lemma handlesOfList_self (anc : list node) (p : list nat) (i : nat)
    (l : list node) :
  map self (handlesOfList anc p i l) = flat_map subtree l.
Proof.
  revert i. induction l as [|k l IH]; intros i; [reflexivity|].
  cbn [handlesOfList flat_map]. rewrite map_app, handlesOf_self, IH.
  reflexivity.
Qed.

(** [$(selector)] and [$el.find(selector)] for a compound selector. *)
Lemma select_self (c : compound) (doc : document) :
  map self (select doc [[c]])
  = List.filter (matchesCompound c) (flat_map subtree doc).
Proof.
  unfold select, allElements.
  rewrite <- (handlesOfList_self [] [] 0 doc), <- map_filter.
  f_equal. apply filter_ext. intros h. apply matches_compound.
Qed.



(** Selectors match elements only. *)
Lemma matchesSelector_element (sel : selector) (n : node) (anc : list node) :
  matchesSelector sel n anc = true -> isElement n = true.
Proof.
  unfold matchesSelector. intros H. apply existsb_exists in H.
  destruct H as (cx & _ & H). unfold matchesComplex in H.
  destruct (rev cx) as [|c before]; [discriminate H|].
  apply andb_prop in H. destruct H as [H _].
  unfold matchesCompound in H. apply andb_prop in H. apply H.
Qed.



(** *** Pages *)

Lemma bare_subtree (l : list node) : bare l -> flat_map subtree l = [].
Proof.
  induction 1 as [|n l Hn _ IH]; [reflexivity|].
  destruct n; try discriminate Hn; exact IH.
Qed.

(** The elements of a page: the [html] element, the elements before the
    body, the [body] and the elements of the body. *)
Lemma subtree_page (top : list node) (htmlAttribs : list (string * string))
    (before : list node) (bodyAttribs : list (string * string))
    (body after bottom : list node) :
  bare top -> bare after -> bare bottom ->
  flat_map subtree (page top htmlAttribs before bodyAttribs body after bottom)
  = Element "html" htmlAttribs
      (before ++ Element "body" bodyAttribs body :: after)
    :: flat_map subtree before
       ++ Element "body" bodyAttribs body :: flat_map subtree body.
Proof.
  intros Htop Hafter Hbottom.
  unfold page. rewrite flat_map_app. cbn [flat_map subtree].
  rewrite (bare_subtree top Htop), (bare_subtree bottom Hbottom).
  rewrite flat_map_app. cbn [flat_map subtree app].
  rewrite (bare_subtree after Hafter), !app_nil_r. reflexivity.
Qed.

End DomProofs.
(** * Properties of the token bucket *)

Module TokenBucketProofs.

Import TokenBucket LimiterSpec.

Lemma fold_usage (h : list UsageRecord) (acc : Z) :
  fold_left (fun total record => total + tokensUsed record) h acc
  = acc + usage h.
Proof.
  revert acc. induction h as [|r h IH]; intros acc; simpl.
  - lia.
  - rewrite IH. lia.
Qed.

Lemma cleanOldUsage_exec (now : Z) (b : TokenBucket.t) :
  execM (cleanOldUsage now) b = withHistory (inWindow now b) b.
Proof. reflexivity. Qed.

Lemma inWindow_idem (now : Z) (b : TokenBucket.t) :
  inWindow now (withHistory (inWindow now b) b) = inWindow now b.
Proof.
  unfold inWindow. simpl.
  induction (usageHistory b) as [|r h IH]; simpl; [reflexivity|].
  destruct (now - windowSize (config b) <? timestamp r) eqn:E; simpl.
  - rewrite E. f_equal. exact IH.
  - exact IH.
Qed.

Lemma canProcess_run (now tokens : Z) (b : TokenBucket.t) :
  canProcess now tokens b
  = (usage (inWindow now b) + tokens <=? maxTokens (config b),
     withHistory (inWindow now b) b).
Proof.
  unfold canProcess, bind, cleanOldUsage, getCurrentUsage, get, gets, modify,
    ret. simpl.
  rewrite fold_usage. reflexivity.
Qed.

Lemma consumeTokens_run (now tokens : Z) (b : TokenBucket.t) :
  consumeTokens now tokens b
  = (tt, withHistory
           (inWindow now b ++ [{| timestamp := now; tokensUsed := tokens |}])
           b).
Proof. reflexivity. Qed.

Lemma usage_app (h1 h2 : list UsageRecord) :
  usage (h1 ++ h2) = usage h1 + usage h2.
Proof. induction h1 as [|r h IH]; simpl; lia. Qed.

Lemma inWindow_app (now : Z) (b : TokenBucket.t) (h1 h2 : list UsageRecord) :
  inWindow now (withHistory (h1 ++ h2) b)
  = inWindow now (withHistory h1 b) ++ inWindow now (withHistory h2 b).
Proof. unfold inWindow. simpl. apply List.filter_app. Qed.

Lemma walkUsage_spec (now window excess : Z) (h : list UsageRecord) (cum : Z) :
  walkUsage now window excess cum h
  = match List.find (fun i => excess <=? cum + usage (firstn (S i) h))
            (seq 0 (length h)) with
    | Some i =>
        option_map (fun r => Z.max 0 (timestamp r + window - now))
          (nth_error h i)
    | None => None
    end.
Proof.
  revert cum. induction h as [|r h IH]; intros cum; [reflexivity|].
  change (seq 0 (length (r :: h))) with (0%nat :: seq 1 (length h)).
  cbn [walkUsage List.find].
  change (usage (firstn 1 (r :: h))) with (tokensUsed r + 0).
  replace (cum + (tokensUsed r + 0)) with (cum + tokensUsed r) by lia.
  destruct (excess <=? cum + tokensUsed r) eqn:E; [reflexivity|].
  rewrite IH, <- seq_shift.
  clear IH E.
  generalize (seq 0 (length h)) as l.
  induction l as [|i l IHl]; [reflexivity|].
  cbn [map List.find].
  change (usage (firstn (S (S i)) (r :: h)))
    with (tokensUsed r + usage (firstn (S i) h)).
  replace (cum + (tokensUsed r + usage (firstn (S i) h)))
    with (cum + tokensUsed r + usage (firstn (S i) h)) by lia.
  destruct (excess <=? cum + tokensUsed r + usage (firstn (S i) h));
    [reflexivity | exact IHl].
Qed.

Lemma cleanOldUsage_run (now : Z) (b : TokenBucket.t) :
  cleanOldUsage now b = (tt, withHistory (inWindow now b) b).
Proof. reflexivity. Qed.

Lemma getCurrentUsage_run (b : TokenBucket.t) :
  getCurrentUsage b = (usage (usageHistory b), b).
Proof.
  unfold getCurrentUsage, gets. rewrite fold_usage. reflexivity.
Qed.

Lemma firstReaching_walk (now window excess : Z) (h : list UsageRecord) :
  walkUsage now window excess 0 h
  = option_map (fun r => Z.max 0 (timestamp r + window - now))
      (firstReaching excess h).
Proof.
  rewrite walkUsage_spec. unfold firstReaching.
  assert (Hf : forall l,
    List.find (fun i => excess <=? 0 + usage (firstn (S i) h)) l
    = List.find (fun i => excess <=? usage (firstn (S i) h)) l).
  { intros l. induction l as [|i l IHl]; simpl; [reflexivity|].
    rewrite IHl. reflexivity. }
  rewrite Hf. destruct (List.find _ _); reflexivity.
Qed.

Lemma waitTimeForTokens_eval (now tokens : Z) (b : TokenBucket.t) :
  evalM (waitTimeForTokens now tokens) b = specWait now tokens b.
Proof.
  unfold evalM, waitTimeForTokens, bind at 1.
  rewrite canProcess_run. unfold specWait.
  destruct (usage (inWindow now b) + tokens <=? maxTokens (config b)) eqn:E;
    [reflexivity|].
  unfold bind. rewrite cleanOldUsage_run, getCurrentUsage_run.
  unfold get.
  cbn [usageHistory withHistory set_usageHistory config].
  fold (withHistory (inWindow now b) b).
  rewrite inWindow_idem.
  cbn [usageHistory withHistory set_usageHistory config].
  rewrite firstReaching_walk.
  destruct (firstReaching _ _); reflexivity.
Qed.

Lemma firstReaching_In (excess : Z) (h : list UsageRecord) (r : UsageRecord) :
  firstReaching excess h = Some r -> In r h.
Proof.
  unfold firstReaching.
  destruct (List.find _ _) as [i|]; [|discriminate].
  apply nth_error_In.
Qed.

Lemma inWindow_In (now : Z) (b : TokenBucket.t) (r : UsageRecord) :
  In r (inWindow now b)
  <-> In r (usageHistory b) /\ now - windowSize (config b) < timestamp r.
Proof.
  unfold inWindow. rewrite List.filter_In, Z.ltb_lt. reflexivity.
Qed.

(** The state that a bucket reaches stays well formed as the clock moves
    on. *)
Lemma wellFormed_consumeTokens (now now' tokens : Z) (b : TokenBucket.t) :
  wellFormed now b -> now <= now' ->
  wellFormed now' (execM (consumeTokens now' tokens) b).
Proof.
  intros [HW HF] Hle. split; [exact HW|].
  unfold execM. rewrite consumeTokens_run. cbn [snd withHistory usageHistory
    set_usageHistory].
  apply List.Forall_app. split.
  - rewrite List.Forall_forall in *. intros r Hr.
    apply inWindow_In in Hr. destruct Hr as [Hr _].
    specialize (HF r Hr). simpl in HF. lia.
  - constructor; [simpl; lia | constructor].
Qed.

Lemma wellFormed_new (now : Z) (c : TokenBucketConfig) :
  0 < windowSize c -> wellFormed now (TokenBucket.new c).
Proof. intros H. split; [exact H | constructor]. Qed.

Lemma wellFormed_later (now now' : Z) (b : TokenBucket.t) :
  wellFormed now b -> now <= now' -> wellFormed now' b.
Proof.
  intros [HW HF] Hle. split; [exact HW|].
  eapply List.Forall_impl; [|exact HF]. simpl. intros r Hr. lia.
Qed.

(** C2. [canProcess(tokens)] leaves in the history exactly the records
    younger than [now - windowSize] and answers true if and only if the
    tokens of those records plus the tokens asked for are at most
    [maxTokens]; a record of time [t] counts for nothing once [now] is
    past [t + windowSize]. *)
Theorem canProcess_sliding_window (now tokens : Z) (b : TokenBucket.t) :
  let window := windowSize (config b) in
  let result := canProcess now tokens b in
  usageHistory (snd result) = inWindow now b /\
  (forall r, In r (usageHistory (snd result))
             <-> In r (usageHistory b) /\ now - window < timestamp r) /\
  (fst result = true
   <-> usage (inWindow now b) + tokens <= maxTokens (config b)) /\
  (forall before after r,
      usageHistory b = before ++ r :: after ->
      timestamp r + window < now ->
      fst result
      = fst (canProcess now tokens (withHistory (before ++ after) b))).
Proof.
  intros window result. subst result. rewrite canProcess_run.
  cbn [fst snd usageHistory withHistory set_usageHistory].
  split; [reflexivity|]. split; [|split].
  - intros r. apply inWindow_In.
  - apply Z.leb_le.
  - intros before after r Hb Ht.
    rewrite canProcess_run. cbn [fst].
    assert (E : inWindow now b = inWindow now (withHistory (before ++ after) b)).
    { unfold inWindow at 1. rewrite Hb.
      unfold inWindow. cbn [withHistory set_usageHistory usageHistory config].
      rewrite !List.filter_app. cbn [List.filter].
      fold window.
      destruct (now - window <? timestamp r) eqn:E; [|reflexivity].
      apply Z.ltb_lt in E. lia. }
    rewrite <- E. reflexivity.
Qed.

Lemma canProcess_sliding_window_witness :
  fst (TokenBucket.canProcess 60001 200 Samples.sampleBucket)
  = fst (TokenBucket.canProcess 60001 200
           (withHistory ([] ++ []) Samples.sampleBucket)).
Proof.
  destruct (canProcess_sliding_window 60001 200 Samples.sampleBucket)
    as (_ & _ & _ & H).
  apply (H [] [] {| timestamp := 0; tokensUsed := 900 |}).
  - reflexivity.
  - simpl. lia.
Defined.

(** A consumption at time [t] counts for nothing once the clock is past
    [t + windowSize]. *)
Lemma consumeTokens_expires (t n now tokens : Z) (b : TokenBucket.t) :
  0 <= windowSize (config b) -> t + windowSize (config b) < now ->
  evalM (canProcess now tokens) (execM (consumeTokens t n) b)
  = evalM (canProcess now tokens) b.
Proof.
  intros HW Ht. unfold evalM, execM.
  rewrite consumeTokens_run, !canProcess_run. cbn [fst snd].
  assert (E : inWindow now
                (withHistory
                   (inWindow t b ++ [{| timestamp := t; tokensUsed := n |}]) b)
              = inWindow now b).
  { unfold inWindow.
    cbn [withHistory set_usageHistory usageHistory config].
    rewrite List.filter_app. cbn [List.filter timestamp].
    destruct (now - windowSize (config b) <? t) eqn:E;
      [apply Z.ltb_lt in E; lia|].
    rewrite app_nil_r.
    induction (usageHistory b) as [|r h IH]; [reflexivity|].
    cbn [List.filter].
    destruct (t - windowSize (config b) <? timestamp r) eqn:E1;
      cbn [List.filter];
      destruct (now - windowSize (config b) <? timestamp r) eqn:E2;
      rewrite IH; try reflexivity.
    apply Z.ltb_ge in E1. apply Z.ltb_lt in E2. lia. }
  rewrite E. reflexivity.
Qed.

(** The scenario of the specification: a bucket of 1000 tokens with a
    window of 60 000 ms, 900 tokens consumed at time 0. *)
Lemma limiter_scenario :
  evalM (canProcess 0 200) Samples.sampleBucket = false /\
  evalM (waitTimeForTokens 0 200) Samples.sampleBucket = 60000 /\
  evalM (canProcess 60001 200) Samples.sampleBucket = true.
Proof. repeat split. Qed.

(** A purge at [now] removes nothing that a purge at a later time
    keeps. *)
Lemma inWindow_later (now now' : Z) (b : TokenBucket.t) :
  now <= now' ->
  inWindow now' (withHistory (inWindow now b) b) = inWindow now' b.
Proof.
  intros Hle. unfold inWindow.
  cbn [withHistory set_usageHistory usageHistory config].
  induction (usageHistory b) as [|r h IH]; [reflexivity|].
  cbn [List.filter].
  destruct (now' - windowSize (config b) <? timestamp r) eqn:E'.
  - replace (now - windowSize (config b) <? timestamp r) with true
      by (symmetry; apply Z.ltb_lt; apply Z.ltb_lt in E'; lia).
    cbn [List.filter]. rewrite E', IH. reflexivity.
  - destruct (now - windowSize (config b) <? timestamp r);
      cbn [List.filter]; rewrite ?E'; exact IH.
Qed.

(** [waitTimeForTokens] when the clock moves during the call. *)
Lemma waitTimeForTokensAt_run (now1 now2 now3 tokens : Z)
    (b : TokenBucket.t) :
  now1 <= now2 ->
  waitTimeForTokensAt now1 now2 now3 tokens b
  = if usage (inWindow now1 b) + tokens <=? maxTokens (config b)
    then (0, withHistory (inWindow now1 b) b)
    else (LimiterHistory.foundWaitAt now2 now3 tokens b,
          set_waitTimes
            (waitTimes b ++ [LimiterHistory.foundWaitAt now2 now3 tokens b])
            (withHistory (inWindow now2 b) b)).
Proof.
  intros Hle. unfold waitTimeForTokensAt, bind at 1.
  rewrite canProcess_run.
  destruct (usage (inWindow now1 b) + tokens <=? maxTokens (config b)) eqn:E;
    [reflexivity|].
  unfold bind. rewrite cleanOldUsage_run, getCurrentUsage_run.
  unfold get, LimiterHistory.foundWaitAt.
  cbn [usageHistory withHistory set_usageHistory config].
  fold (withHistory (inWindow now1 b) b).
  rewrite (inWindow_later now1 now2 b Hle).
  cbn [usageHistory withHistory set_usageHistory config].
  destruct (walkUsage _ _ _ _ _); reflexivity.
Qed.

Lemma waitTimeForTokensAt_eval (now1 now2 now3 tokens : Z)
    (b : TokenBucket.t) :
  now1 <= now2 ->
  evalM (waitTimeForTokensAt now1 now2 now3 tokens) b
  = specWaitAt now1 now2 now3 tokens b.
Proof.
  intros Hle. unfold evalM. rewrite (waitTimeForTokensAt_run _ _ _ _ _ Hle).
  unfold specWaitAt, LimiterHistory.foundWaitAt.
  destruct (usage (inWindow now1 b) + tokens <=? maxTokens (config b));
    [reflexivity|].
  cbn [fst]. rewrite firstReaching_walk.
  destruct (firstReaching _ _); reflexivity.
Qed.

(** When the clock stands still the call is [waitTimeForTokens now]. *)
Lemma waitTimeForTokensAt_still (now tokens : Z) :
  waitTimeForTokensAt now now now tokens = waitTimeForTokens now tokens.
Proof. reflexivity. Qed.

(** The wait of a request that is refused lies between 0 and a window, and
    is positive when the clock does not move between the purge and the
    loop. *)
Lemma specWaitAt_bounds (now1 now2 now3 tokens : Z) (b : TokenBucket.t) :
  wellFormed now1 b -> now1 <= now2 <= now3 ->
  (usage (inWindow now1 b) + tokens <=? maxTokens (config b)) = false ->
  0 <= specWaitAt now1 now2 now3 tokens b <= windowSize (config b) /\
  (now3 = now2 -> 0 < specWaitAt now1 now2 now3 tokens b).
Proof.
  intros [HW HF] Hclock E. unfold specWaitAt. rewrite E.
  destruct (firstReaching _ _) as [r|] eqn:F; [|lia].
  apply firstReaching_In, inWindow_In in F. destruct F as [Hin Hlt].
  rewrite List.Forall_forall in HF. specialize (HF r Hin). simpl in HF. lia.
Qed.

(** The claim of the specification fails in a bucket whose window is
    empty: the request is refused and the wait is 0. *)
Lemma zero_window_refused : ~ claimedWait 0 20 Samples.zeroWindowBucket.
Proof.
  unfold claimedWait. intros [H _].
  assert (E : evalM (canProcess 0 20) Samples.zeroWindowBucket = false)
    by reflexivity.
  rewrite E in H. destruct H as [H _].
  specialize (H eq_refl). discriminate H.
Qed.

(** It fails at a record stamped after the clock: the wait, 3900, is
    longer than the window, 1000. *)
Lemma future_record_waits_longer :
  evalM (canProcess 100 200) Samples.futureBucket = false /\
  evalM (waitTimeForTokens 100 200) Samples.futureBucket = 3900 /\
  ~ claimedWait 100 200 Samples.futureBucket.
Proof.
  split; [reflexivity|]. split; [reflexivity|].
  unfold claimedWait. intros [_ H].
  specialize (H eq_refl).
  change (evalM (waitTimeForTokens 100 200) Samples.futureBucket)
    with 3900 in H.
  change (windowSize (config Samples.futureBucket)) with 1000 in H. lia.
Qed.

(** And it fails when the clock moves during the call: the record of
    time 0 leaves the window of 60 000 ms at 60 000, between the purge and
    the loop, and the request that is refused is told to wait 0. *)
Lemma refused_with_wait_zero :
  evalM (canProcess 59999 200) Samples.sampleBucket = false /\
  evalM (waitTimeForTokensAt 59999 59999 60000 200) Samples.sampleBucket = 0.
Proof. split; reflexivity. Qed.

(** C3. In a state with a positive window and no record from the future,
    read by a clock that does not run backwards during the call,
    [waitTimeForTokens(tokens)] is 0 when [canProcess(tokens)] is true;
    otherwise it lies between 0 and [windowSize]; when the clock does not
    move between the purge and the loop it is positive, so that it is 0
    exactly when the request is admitted; and it is the wait that the walk
    of the specification finds. *)
Theorem waitTimeForTokens_spec (now1 now2 now3 tokens : Z)
    (b : TokenBucket.t) :
  wellFormed now1 b -> now1 <= now2 <= now3 ->
  let ok := evalM (canProcess now1 tokens) b in
  let wait := evalM (waitTimeForTokensAt now1 now2 now3 tokens) b in
  (ok = true -> wait = 0) /\
  (ok = false -> 0 <= wait <= windowSize (config b)) /\
  (now3 = now2 ->
   (wait = 0 <-> ok = true) /\
   (ok = false -> 0 < wait <= windowSize (config b))) /\
  wait = specWaitAt now1 now2 now3 tokens b.
Proof.
  intros Hwf Hclock ok wait. subst ok wait.
  rewrite waitTimeForTokensAt_eval by lia.
  unfold evalM. rewrite canProcess_run. cbn [fst].
  pose proof (specWaitAt_bounds now1 now2 now3 tokens b Hwf Hclock) as Hb.
  destruct (usage (inWindow now1 b) + tokens <=? maxTokens (config b)) eqn:E.
  - assert (E0 : specWaitAt now1 now2 now3 tokens b = 0)
      by (unfold specWaitAt; rewrite E; reflexivity).
    rewrite E0. repeat split; try reflexivity; try discriminate; try lia.
  - destruct (Hb eq_refl) as [Hrange Hpos].
    split; [discriminate|]. split; [intros _; exact Hrange|].
    split; [|reflexivity].
    intros Hstill. specialize (Hpos Hstill).
    split; [split; [lia | discriminate]|].
    intros _. lia.
Qed.

Lemma waitTimeForTokens_spec_witness :
  wellFormed 1000 Samples.sampleBucket /\
  evalM (canProcess 1000 200) Samples.sampleBucket = false /\
  evalM (waitTimeForTokensAt 1000 1000 1001 200) Samples.sampleBucket
  = 58999.
Proof.
  assert (W : wellFormed 1000 Samples.sampleBucket).
  { split; [reflexivity|]. repeat constructor. simpl. lia. }
  split; [exact W|].
  assert (C : 1000 <= 1000 <= 1001) by lia.
  destruct (waitTimeForTokens_spec 1000 1000 1001 200 Samples.sampleBucket
              W C) as (_ & _ & _ & E).
  split; [reflexivity|]. rewrite E. reflexivity.
Defined.

End TokenBucketProofs.

(** * Properties of the rate limiter manager *)

Module RateLimiterManagerProofs.

Import RateLimiterManager.

(** The models for which the constructor configures a bucket. *)
Lemma new_unknown (model : string) :
  (RateLimiterManager.new : gmap string TokenBucket.t) !! model = None
  <-> model <> "gpt-5"%string /\ model <> "gpt-4o"%string
      /\ model <> "gpt-4-turbo"%string.
Proof.
  unfold RateLimiterManager.new.
  rewrite !lookup_insert_None. split.
  - intros (((_ & H1) & H2) & H3). repeat split; congruence.
  - intros (H1 & H2 & H3).
    repeat split; congruence || apply lookup_empty.
Qed.

(** No method but [configureBucket] changes the set of configured
    models. *)
Lemma onBucket_dom {A} (model : string) (bucket : TokenBucket.t)
    (m : M TokenBucket.t A) (buckets : gmap string TokenBucket.t) :
  buckets !! model = Some bucket ->
  dom (snd (onBucket model bucket m buckets)) = dom buckets.
Proof.
  intros H. unfold onBucket. destruct (m bucket) as [a bucket'].
  cbn [snd]. apply elem_of_dom_2 in H.
  rewrite (dom_insert_L buckets model bucket').
  apply subseteq_union_1_L, singleton_subseteq_l, H.
Qed.

(** C9. For a model without a bucket, [canProcess] answers true,
    [waitTimeForTokens] answers 0, [getAvailableTokens] answers
    [Infinity] and [consumeTokens] does nothing; none of them changes the
    state of any bucket. *)
Theorem unknown_model_admitted (now tokens : Z) (model : string)
    (buckets : gmap string TokenBucket.t) :
  buckets !! model = None ->
  canProcess now tokens model buckets = (true, buckets) /\
  waitTimeForTokens now tokens model buckets = (0, buckets) /\
  getAvailableTokens now model buckets = (Infinity, buckets) /\
  consumeTokens now tokens model buckets = (tt, buckets).
Proof.
  intros H.
  unfold canProcess, waitTimeForTokens, getAvailableTokens, consumeTokens,
    bind, get, RateLimiterManager.t.
  rewrite H. repeat split.
Qed.

Lemma unknown_model_admitted_witness :
  canProcess 0 1000000 "gpt-4" RateLimiterManager.new
    = (true, RateLimiterManager.new) /\
  waitTimeForTokens 0 1000000 "gpt-4" RateLimiterManager.new
    = (0, RateLimiterManager.new) /\
  getAvailableTokens 0 "gpt-4" RateLimiterManager.new
    = (Infinity, RateLimiterManager.new) /\
  consumeTokens 0 1000000 "gpt-4" RateLimiterManager.new
    = (tt, RateLimiterManager.new).
Proof.
  apply (unknown_model_admitted 0 1000000 "gpt-4" RateLimiterManager.new).
  reflexivity.
Defined.

End RateLimiterManagerProofs.

(** * Properties of the sort *)

Module JsArrayProofs.

Import JsArray.

Lemma insertSorted_perm {A} (cmp : A -> A -> Z) (x : A) (l : list A) :
  Permutation (insertSorted cmp x l) (x :: l).
Proof.
  induction l as [|y l IH]; simpl; [reflexivity|].
  destruct (cmp x y <? 0); [reflexivity|].
  rewrite IH. apply perm_swap.
Qed.

Lemma sort_perm {A} (cmp : A -> A -> Z) (l : list A) :
  Permutation (sort cmp l) l.
Proof.
  unfold sort.
  assert (H : forall acc, Permutation
              (fold_left (fun sorted x => insertSorted cmp x sorted) l acc)
              (acc ++ l)).
  { induction l as [|x l IH]; intros acc; simpl.
    - rewrite app_nil_r. reflexivity.
    - rewrite IH, insertSorted_perm.
      change (x :: acc) with ([x] ++ acc).
      rewrite (Permutation_app_comm [x] acc), <- app_assoc. reflexivity. }
  apply (H []).
Qed.

Lemma sort_In {A} (cmp : A -> A -> Z) (l : list A) (x : A) :
  In x (sort cmp l) <-> In x l.
Proof.
  split; apply Permutation_in; [|symmetry]; apply sort_perm.
Qed.

Lemma sumBy_fold {A} (f : A -> Z) (l : list A) (acc : Z) :
  fold_left (fun sum x => sum + f x) l acc = acc + sumBy f l.
Proof.
  unfold sumBy. revert acc.
  induction l as [|x l IH] using rev_ind; intros acc; simpl; [lia|].
  rewrite !fold_left_app. simpl. rewrite IH. lia.
Qed.

Lemma sumBy_cons {A} (f : A -> Z) (x : A) (l : list A) :
  sumBy f (x :: l) = f x + sumBy f l.
Proof. unfold sumBy at 1. simpl. rewrite sumBy_fold. lia. Qed.


Lemma sumBy_perm {A} (f : A -> Z) (l1 l2 : list A) :
  Permutation l1 l2 -> sumBy f l1 = sumBy f l2.
Proof.
  induction 1 as [|x l l' _ IH|x y l|l l' l'' _ IH1 _ IH2].
  - reflexivity.
  - rewrite !sumBy_cons, IH. reflexivity.
  - rewrite !sumBy_cons. lia.
  - congruence.
Qed.

(** The sort orders its result by every order that the comparator
    respects. *)
Section Sorted.

Context {A : Type} (cmp : A -> A -> Z) (le : A -> A -> Prop).
Hypothesis le_trans : forall x y z, le x y -> le y z -> le x z.
Hypothesis cmp_before : forall x y, cmp x y < 0 -> le x y.
Hypothesis cmp_after : forall x y, 0 <= cmp x y -> le y x.

Lemma insertSorted_sorted (x : A) (l : list A) :
  StronglySorted le l -> StronglySorted le (insertSorted cmp x l).
Proof.
  induction 1 as [|y l Hs IH Hy]; simpl.
  - constructor; constructor.
  - destruct (cmp x y <? 0) eqn:E.
    + apply Z.ltb_lt in E. constructor.
      * constructor; assumption.
      * constructor; [apply cmp_before, E|].
        eapply List.Forall_impl; [|exact Hy].
        intros z Hz. eapply le_trans; [apply cmp_before, E | exact Hz].
    + apply Z.ltb_ge in E. constructor; [exact IH|].
      rewrite List.Forall_forall. intros z Hz.
      apply (Permutation_in _ (insertSorted_perm cmp x l)) in Hz.
      destruct Hz as [<-|Hz]; [apply cmp_after, E|].
      rewrite List.Forall_forall in Hy. apply Hy, Hz.
Qed.

Lemma sort_sorted (l : list A) : StronglySorted le (sort cmp l).
Proof.
  unfold sort.
  assert (H : forall acc, StronglySorted le acc ->
            StronglySorted le
              (fold_left (fun sorted x => insertSorted cmp x sorted) l acc)).
  { induction l as [|x l IH]; intros acc Hacc; simpl; [exact Hacc|].
    apply IH, insertSorted_sorted, Hacc. }
  apply H. constructor.
Qed.

End Sorted.

Lemma StronglySorted_nth {A} (R : A -> A -> Prop) (l : list A) :
  StronglySorted R l ->
  forall i j a b, (i < j)%nat ->
    nth_error l i = Some a -> nth_error l j = Some b -> R a b.
Proof.
  induction 1 as [|x l Hs IH Hx]; intros i j a b Hij Ha Hb.
  - destruct i; discriminate.
  - destruct j as [|j]; [lia|]. simpl in Hb.
    destruct i as [|i]; simpl in Ha.
    + injection Ha as <-. rewrite List.Forall_forall in Hx.
      apply Hx. eapply nth_error_In, Hb.
    + apply (IH i j); [lia | assumption | assumption].
Qed.

Lemma StronglySorted_tail {A} (R : A -> A -> Prop) (l1 l2 : list A) :
  StronglySorted R (l1 ++ l2) -> StronglySorted R l2.
Proof.
  induction l1 as [|x l1 IH]; simpl; intros H; [exact H|].
  apply StronglySorted_inv in H. apply IH, H.
Qed.

End JsArrayProofs.

(** * Properties of the model router *)

Module ModelRouterProofs.

Import ContentChunker ModelRouter RouterSpec.

Lemma critical_analysis (chunk : ContentChunk) :
  hasCriticalImages (analyzeChunkForRouting chunk)
  || hasProductImages (analyzeChunkForRouting chunk)
  = existsb isCriticalOrProduct (images chunk).
Proof. symmetry. apply DomProofs.existsb_orb. Qed.

Lemma admission_model (now : Z) (chunk : ContentChunk) (m : Model)
    (limiter : RateLimiterManager.t) :
  model (fst (admission now chunk m limiter)) = m.
Proof.
  unfold admission, bind.
  destruct (RateLimiterManager.canProcess _ _ _ _) as [ok limiter'].
  destruct ok.
  - reflexivity.
  - destruct (RateLimiterManager.waitTimeForTokens _ _ _ _). reflexivity.
Qed.

Lemma chooseModel_critical (strategy : RoutingStrategy) (st : RoutingState)
    (chunk : ContentChunk) :
  existsb isCriticalOrProduct (images chunk) = true ->
  fst (fst (chooseModel strategy st chunk)) = Gpt5.
Proof.
  intros H. unfold chooseModel. rewrite critical_analysis, H.
  destruct (_ <=? _); reflexivity.
Qed.

Lemma routeOne_run (strategy : RoutingStrategy) (now : Z)
    (st : RoutingState) (chunk : ContentChunk)
    (limiter : RateLimiterManager.t) :
  exists selection,
    routingMap (fst (routeOne strategy now st chunk limiter))
    = routingMap st ++ [(chunk, selection)] /\
    respectsCritical (chunk, selection).
Proof.
  unfold routeOne.
  pose proof (chooseModel_critical strategy st chunk) as Hc.
  destruct (chooseModel strategy st chunk) as [[m g5] g4o]. simpl in Hc.
  unfold bind.
  pose proof (admission_model now chunk m limiter) as Hm.
  destruct (admission now chunk m limiter) as [selection limiter'].
  simpl in Hm. exists selection. split; [reflexivity|].
  intros H. simpl in *. rewrite Hm. apply Hc, H.
Qed.

Lemma forEach_routeOne (strategy : RoutingStrategy) (now : Z)
    (l : list ContentChunk) (st : RoutingState)
    (limiter : RateLimiterManager.t) :
  let st' := fst (forEach (routeOne strategy now) l st limiter) in
  map fst (routingMap st') = map fst (routingMap st) ++ l /\
  (Forall respectsCritical (routingMap st) ->
   Forall respectsCritical (routingMap st')).
Proof.
  revert st limiter. induction l as [|chunk l IH]; intros st limiter; simpl.
  - rewrite app_nil_r. split; [reflexivity | auto].
  - unfold bind.
    destruct (routeOne_run strategy now st chunk limiter) as (sel & E & Hs).
    destruct (routeOne strategy now st chunk limiter) as [st1 limiter1].
    simpl in E.
    destruct (IH st1 limiter1) as [IH1 IH2]. split.
    + rewrite IH1, E, map_app. simpl. rewrite <- app_assoc. reflexivity.
    + intros HF. apply IH2. rewrite E. apply List.Forall_app. split; [exact HF|].
      constructor; [exact Hs | constructor].
Qed.

Lemma routeMultipleChunks_entries (strategy : RoutingStrategy) (now : Z)
    (chunks : list ContentChunk) (limiter : RateLimiterManager.t) :
  let routing := evalM (routeMultipleChunks strategy now chunks) limiter in
  Permutation (map fst routing) chunks /\
  Forall respectsCritical routing.
Proof.
  unfold evalM, routeMultipleChunks, bind.
  set (sorted := JsArray.sort _ chunks).
  pose proof (forEach_routeOne strategy now sorted
    {| routingMap := []; gpt5TokensUsed := 0; gpt4oTokensUsed := 0 |}
    limiter) as [H1 H2].
  destruct (forEach _ _ _ _) as [st limiter']. simpl in *. split.
  - rewrite H1. apply JsArrayProofs.sort_perm.
  - apply H2. constructor.
Qed.

(** C4. A chunk with an image of importance critical or product is given
    to gpt-5 by [routeContentChunk], by every turn of the loop of
    [routeMultipleChunks] whatever the tokens counted so far, and so in
    the map that [routeMultipleChunks] returns, where it has an entry. *)
Theorem critical_images_route_to_gpt5 (strategy : RoutingStrategy) (now : Z)
    (limiter : RateLimiterManager.t) (chunk : ContentChunk) :
  existsb isCriticalOrProduct (images chunk) = true ->
  model (evalM (routeContentChunk now chunk) limiter) = Gpt5 /\
  (forall st, fst (fst (chooseModel strategy st chunk)) = Gpt5) /\
  (forall chunks, In chunk chunks ->
     let routing := evalM (routeMultipleChunks strategy now chunks) limiter in
     (exists selection, In (chunk, selection) routing) /\
     (forall selection, In (chunk, selection) routing ->
        model selection = Gpt5)).
Proof.
  intros H. split; [|split].
  - unfold evalM, routeContentChunk. rewrite admission_model.
    unfold selectOptimalModel. rewrite critical_analysis, H. reflexivity.
  - intros st. apply chooseModel_critical, H.
  - intros chunks Hin routing.
    destruct (routeMultipleChunks_entries strategy now chunks limiter)
      as [Hp Hf]. fold routing in Hp, Hf. split.
    + apply (Permutation_in _ (Permutation_sym Hp)) in Hin.
      apply in_map_iff in Hin. destruct Hin as ([c sel] & Hc & Hin).
      simpl in Hc. subst c. exists sel. exact Hin.
    + intros selection Hs. rewrite List.Forall_forall in Hf.
      apply (Hf _ Hs). exact H.
Qed.

Lemma critical_images_route_to_gpt5_witness :
  model (evalM (routeContentChunk 0 Samples.criticalChunk)
           RateLimiterManager.new) = Gpt5 /\
  (forall st,
     fst (fst (chooseModel getDefaultStrategy st Samples.criticalChunk)) = Gpt5) /\
  (forall chunks, In Samples.criticalChunk chunks ->
     let routing :=
       evalM (routeMultipleChunks getDefaultStrategy 0 chunks)
         RateLimiterManager.new in
     (exists selection, In (Samples.criticalChunk, selection) routing) /\
     (forall selection, In (Samples.criticalChunk, selection) routing ->
        model selection = Gpt5)).
Proof.
  apply (critical_images_route_to_gpt5 getDefaultStrategy 0
           RateLimiterManager.new Samples.criticalChunk).
  reflexivity.
Defined.

End ModelRouterProofs.

(** * The order of the chunk list *)

Module ChunkOrderProofs.

Import Dom ContentChunker ChunkerSpec.

Lemma chunkOrder_trans (x y z : ContentChunk) :
  chunkOrder x y -> chunkOrder y z -> chunkOrder x z.
Proof. unfold chunkOrder. lia. Qed.

Lemma typeRank_header (ty : SectionType) :
  typeRank ty = 0 <-> ty = TyHeader.
Proof. destruct ty; simpl; split; intros H; try lia; congruence. Qed.

Lemma typeRank_footer (ty : SectionType) :
  typeRank ty = 2 <-> ty = TyFooter.
Proof. destruct ty; simpl; split; intros H; try lia; congruence. Qed.

Lemma typeRank_range (ty : SectionType) : 0 <= typeRank ty <= 2.
Proof. destruct ty; simpl; lia. Qed.

Lemma compareChunks_before (a b : ContentChunk) :
  compareChunks a b < 0 -> chunkOrder a b.
Proof.
  unfold compareChunks, chunkOrder.
  destruct (priorityOrder (priority a) - priorityOrder (priority b) =? 0) eqn:E;
    simpl.
  - apply Z.eqb_eq in E.
    destruct (type a), (type b); simpl; lia.
  - lia.
Qed.

Lemma compareChunks_after (a b : ContentChunk) :
  0 <= compareChunks a b -> chunkOrder b a.
Proof.
  unfold compareChunks, chunkOrder.
  destruct (priorityOrder (priority a) - priorityOrder (priority b) =? 0) eqn:E;
    simpl.
  - apply Z.eqb_eq in E.
    destruct (type a), (type b); simpl; lia.
  - apply Z.eqb_neq in E. lia.
Qed.

Lemma sortChunksByPriority_sorted (l : list ContentChunk) :
  StronglySorted chunkOrder (sortChunksByPriority l).
Proof.
  apply JsArrayProofs.sort_sorted.
  - exact chunkOrder_trans.
  - exact compareChunks_before.
  - exact compareChunks_after.
Qed.

Lemma priorityOrder_inj (p q : Priority) :
  priorityOrder p = priorityOrder q -> p = q.
Proof. destruct p, q; simpl; intros H; try reflexivity; lia. Qed.

Lemma chunkOrder_words (a b : ContentChunk) :
  chunkOrder a b ->
  priorityOrder (priority a) <= priorityOrder (priority b) /\
  (priority a = priority b ->
     (type b = TyHeader -> type a = TyHeader) /\
     (type a = TyFooter -> type b = TyFooter)).
Proof.
  intros H. split; [unfold chunkOrder in H; lia|].
  intros E. unfold chunkOrder in H. rewrite E in H.
  split; intros T.
  - apply typeRank_header. rewrite T in H. simpl in H.
    pose proof (typeRank_range (type a)). lia.
  - apply typeRank_footer. rewrite T in H. simpl in H.
    pose proof (typeRank_range (type b)). lia.
Qed.

(** C5, as amended. The list that [chunkContent] returns holds the chunks
    made, sorted by priority; among chunks of one priority the header
    chunks come first and the footer chunks last. *)
Theorem chunks_ordered_within_priority (doc : document)
    (css javascript : string) :
  Permutation (chunks (chunkContent doc css javascript))
    (unsortedChunks doc css javascript) /\
  orderedWithinPriority (chunks (chunkContent doc css javascript)).
Proof.
  split.
  - apply JsArrayProofs.sort_perm.
  - intros i j a b Hij Ha Hb.
    apply chunkOrder_words.
    eapply (JsArrayProofs.StronglySorted_nth chunkOrder); eauto.
    apply sortChunksByPriority_sorted.
Qed.

(** On the sample page the product chunk, of priority critical, stands
    before the header chunk, of priority medium. *)
Lemma shopPage_chunks :
  map (fun c => (type c, priority c))
    (chunks (chunkContent Samples.shopPage "" ""))
  = [(TyProduct, PrioCritical); (TyHeader, PrioMedium); (TyFooter, PrioLow)].
Proof. vm_compute. reflexivity. Qed.

(** C5, as stated, fails: the header chunk is not first when a chunk of a
    higher priority exists. *)
Lemma header_not_first :
  ~ claimedOrdering (chunks (chunkContent Samples.shopPage "" "")).
Proof.
  intros (_ & Hh & _).
  pose proof shopPage_chunks as E.
  destruct (chunks (chunkContent Samples.shopPage "" ""))
    as [|c1 [|c2 [|c3 [|c4 l]]]]; try discriminate E.
  injection E as E1 P1 E2 P2 E3 P3.
  specialize (Hh c2 (or_intror (or_introl eq_refl)) E2).
  simpl in Hh. injection Hh as Hh. subst c2. congruence.
Qed.

Lemma chunks_ordered_within_priority_witness :
  orderedWithinPriority (chunks (chunkContent Samples.shopPage "" "")).
Proof.
  exact (proj2 (chunks_ordered_within_priority Samples.shopPage "" "")).
Defined.

End ChunkOrderProofs.

(** * The chunk of type mixed *)

Module MixedChunkProofs.

Import Dom ContentChunker ChunkerSpec.

Lemma sort_snoc {A} (cmp : A -> A -> Z) (l : list A) (x : A) :
  JsArray.sort cmp (l ++ [x])
  = JsArray.insertSorted cmp x (JsArray.sort cmp l).
Proof. unfold JsArray.sort. rewrite fold_left_app. reflexivity. Qed.

(** Where [insertSorted] puts an element: before the first element that
    the comparator puts after it. *)
Lemma insertSorted_split {A} (cmp : A -> A -> Z) (x : A) (l : list A) :
  exists before after,
    JsArray.insertSorted cmp x l = before ++ x :: after /\
    l = before ++ after /\
    (after = [] \/ exists y rest, after = y :: rest /\ cmp x y < 0).
Proof.
  induction l as [|y l IH]; simpl.
  - exists [], []. repeat split. left. reflexivity.
  - destruct (cmp x y <? 0) eqn:E.
    + exists [], (y :: l). repeat split. right.
      exists y, l. split; [reflexivity | apply Z.ltb_lt, E].
    + destruct IH as (before & after & E1 & E2 & H).
      exists (y :: before), after. rewrite E1, E2. repeat split. exact H.
Qed.

Lemma numberChunks_type (css javascript : string) (analysis : ImageAnalysis)
    (ty : SectionType) (k : nat) (sections : list node) :
  Forall (fun c => type c = ty)
    (numberChunks (sectionChunk css javascript analysis ty) k sections).
Proof.
  revert k. induction sections as [|s l IH]; intros k; simpl;
    constructor; [reflexivity | apply IH].
Qed.

Lemma extractType_made (css javascript : string) (analysis : ImageAnalysis)
    (st : ChunkerState) (ty : SectionType) :
  ty <> TyMixed ->
  Forall (fun c => type c <> TyMixed) (made st) ->
  Forall (fun c => type c <> TyMixed)
    (made (extractType css javascript analysis st ty)).
Proof.
  intros Hty Hst. unfold extractType.
  destruct (extractSectionsList _ _ _ _ _) as [sections rest]. simpl.
  apply List.Forall_app. split; [exact Hst|].
  eapply List.Forall_impl; [|apply numberChunks_type].
  simpl. intros c Hc. congruence.
Qed.

Lemma extractAllTypes_made (css javascript : string)
    (analysis : ImageAnalysis) (doc : document) :
  Forall (fun c => type c <> TyMixed)
    (made (extractAllTypes css javascript analysis doc)).
Proof.
  unfold extractAllTypes.
  assert (H : forall types st,
    Forall (fun ty => ty <> TyMixed) types ->
    Forall (fun c => type c <> TyMixed) (made st) ->
    Forall (fun c => type c <> TyMixed)
      (made (fold_left (extractType css javascript analysis) types st))).
  { induction types as [|ty types IH]; intros st Ht Hst; simpl; [exact Hst|].
    inversion Ht; subst. apply IH; [assumption|].
    apply extractType_made; assumption. }
  apply H; [|constructor].
  unfold sectionTypes. repeat constructor; discriminate.
Qed.

(** A chunk that the comparator puts after the mixed chunk is a footer of
    priority low. *)
Lemma after_mixed (m y : ContentChunk) :
  type m = TyMixed -> priority m = PrioLow ->
  compareChunks m y < 0 -> type y = TyFooter /\ priority y = PrioLow.
Proof.
  intros Tm Pm. unfold compareChunks. rewrite Tm, Pm.
  destruct (priority y), (type y); simpl; intros H; try lia;
    split; reflexivity.
Qed.

Lemma after_low_footer (y z : ContentChunk) :
  type y = TyFooter -> priority y = PrioLow ->
  chunkOrder y z -> type z = TyFooter.
Proof.
  intros Ty Py. unfold chunkOrder. rewrite Ty, Py.
  destruct (priority z), (type z); simpl; intros H; try lia; reflexivity.
Qed.

Lemma mixedChunk_over (css javascript : string) (analysis : ImageAnalysis)
    (st : ChunkerState) :
  100 < Str.len (Str.trim (renderAll (bodyContent (dom st)))) ->
  exists m,
    mixedChunk css javascript analysis st = [m] /\
    type m = TyMixed /\ priority m = PrioLow /\
    html m = bodyContent (dom st) /\
    ContentChunker.css m = css /\
    ContentChunker.javascript m = javascript.
Proof.
  intros H. apply Z.ltb_lt in H. unfold mixedChunk. rewrite H.
  eexists. split; [reflexivity|]. repeat split.
Qed.

(** C6, as amended. When the markup left in the body, trimmed, has more
    than 100 characters, the list that [chunkContent] returns has exactly
    one chunk of type mixed; it holds that markup with all of [css] and
    [javascript], and only footer chunks stand after it. *)
Theorem mixed_chunk_over_threshold (doc : document) (css javascript : string) :
  100 < Str.len (Str.trim (renderAll (leftover doc css javascript))) ->
  exists before mixed after,
    chunks (chunkContent doc css javascript) = before ++ mixed :: after /\
    type mixed = TyMixed /\
    html mixed = leftover doc css javascript /\
    ContentChunker.css mixed = css /\
    ContentChunker.javascript mixed = javascript /\
    Forall (fun c => type c <> TyMixed) (before ++ after) /\
    Forall (fun c => type c = TyFooter) after.
Proof.
  intros Hlen. unfold leftover in *.
  unfold chunkContent, chunks, unsortedChunks, sortChunksByPriority.
  set (analysis := analyzeImages doc) in *.
  set (st := extractAllTypes css javascript analysis doc) in *.
  pose proof (extractAllTypes_made css javascript analysis doc) as Hmade.
  fold st in Hmade.
  destruct (mixedChunk_over css javascript analysis st Hlen)
    as (m & -> & Tm & Pm & Hm & Cm & Jm).
  rewrite sort_snoc.
  destruct (insertSorted_split compareChunks m
              (JsArray.sort compareChunks (made st)))
    as (before & after & E1 & E2 & Hafter).
  exists before, m, after. rewrite E1.
  split; [reflexivity|]. split; [exact Tm|]. split; [exact Hm|].
  split; [exact Cm|]. split; [exact Jm|].
  pose proof (ChunkOrderProofs.sortChunksByPriority_sorted (made st)) as Hs.
  unfold sortChunksByPriority in Hs. rewrite E2 in Hs.
  split.
  - rewrite <- E2. rewrite List.Forall_forall in *. intros c Hc.
    apply Hmade. apply (JsArrayProofs.sort_In compareChunks). exact Hc.
  - destruct Hafter as [->|(y & rest & -> & Hy)]; [constructor|].
    apply after_mixed in Hy; [|exact Tm|exact Pm].
    destruct Hy as [Ty Py].
    constructor; [exact Ty|].
    apply JsArrayProofs.StronglySorted_tail in Hs.
    apply StronglySorted_inv in Hs. destruct Hs as [_ Hs].
    eapply List.Forall_impl; [|exact Hs].
    intros z Hz. eapply after_low_footer; eauto.
Qed.

(** On the short sample page markup is left and no chunk is made. *)
Lemma shortPage_chunks :
  renderAll (leftover Samples.shortPage "" "") = "<p>hi</p>"%string /\
  chunks (chunkContent Samples.shortPage "" "") = [].
Proof. vm_compute. split; reflexivity. Qed.

(** C6, as stated, fails: markup of 100 characters or fewer that is left
    gets no chunk. *)
Lemma short_leftover_dropped : ~ claimedMixed Samples.shortPage "" "".
Proof.
  destruct shortPage_chunks as [E1 E2].
  intros H. destruct H as (before & mixed & E & _).
  - rewrite E1. discriminate.
  - rewrite E2 in E. destruct before; discriminate E.
Qed.

Lemma mixed_chunk_over_threshold_witness :
  exists before mixed after,
    chunks (chunkContent Samples.longPage "p{}" "f()")
      = before ++ mixed :: after /\
    type mixed = TyMixed /\
    html mixed = leftover Samples.longPage "p{}" "f()" /\
    ContentChunker.css mixed = "p{}"%string /\
    ContentChunker.javascript mixed = "f()"%string /\
    Forall (fun c => type c <> TyMixed) (before ++ after) /\
    Forall (fun c => type c = TyFooter) after.
Proof.
  apply (mixed_chunk_over_threshold Samples.longPage "p{}" "f()").
  vm_compute. reflexivity.
Defined.

(** On that page the footer chunk stands after the mixed chunk. *)
Lemma longPage_chunks :
  map type (chunks (chunkContent Samples.longPage "p{}" "f()"))
  = [TyMixed; TyFooter].
Proof. vm_compute. reflexivity. Qed.

End MixedChunkProofs.

(** * The importance of an image *)

Module ImportanceProofs.

Import Dom ContentChunker ChunkerSpec DomProofs.

(** [closest] with a compound selector finds an element if and only if
    the element or one of its ancestors matches. *)
Lemma closest_compound (c : compound) (h : handle) :
  match closest h [[c]] with Some _ => true | None => false end
  = existsb (matchesCompound c) (self h :: ancestors h).
Proof.
  unfold closest. rewrite find_existsb.
  rewrite <- (lineage_self (self h) (ancestors h) (path h)), existsb_map.
  apply existsb_ext. intros x. apply matches_compound.
Qed.

Lemma matchesAncestors_one (c : compound) (anc : list node) :
  matchesAncestors [c] anc = existsb (matchesCompound c) anc.
Proof.
  induction anc as [|a anc IH]; simpl; [reflexivity|].
  destruct (matchesCompound c a); [|exact IH].
  apply matchesAncestors_nil.
Qed.

Lemma matches_descendant (c1 c2 : compound) (h : handle) :
  matches [[c1; c2]] h
  = matchesCompound c2 (self h) && existsb (matchesCompound c1) (ancestors h).
Proof.
  unfold matches, matchesSelector, matchesComplex.
  cbn [rev app existsb]. rewrite orb_false_r, matchesAncestors_one.
  reflexivity.
Qed.

(** The test of the loop over [CRITICAL_IMAGE_SELECTORS] for a selector of
    one compound, and for a selector '<compound> img'. *)
Lemma critical_single (c : compound) (h : handle) :
  matches [[c]] h
  || match closest h [firstCompound [c]] with Some _ => true | None => false end
  = existsb (matchesCompound c) (self h :: ancestors h).
Proof.
  cbn [firstCompound]. rewrite closest_compound, matches_compound.
  cbn [existsb]. destruct (matchesCompound c (self h)); reflexivity.
Qed.

Lemma critical_descendant (c c' : compound) (h : handle) :
  matches [[c; c']] h
  || match closest h [firstCompound [c; c']] with
     | Some _ => true
     | None => false
     end
  = existsb (matchesCompound c) (self h :: ancestors h).
Proof.
  cbn [firstCompound]. rewrite closest_compound, matches_descendant.
  cbn [existsb].
  destruct (matchesCompound c' (self h)), (matchesCompound c (self h)),
    (existsb (matchesCompound c) (ancestors h)); reflexivity.
Qed.

Lemma matchesCompound_class (c : string) (n : node) :
  matchesCompound [Class c] n = hasClass c n.
Proof.
  unfold matchesCompound, matchesSimple, hasClass. cbn [forallb].
  destruct n; reflexivity || (simpl; apply andb_true_r).
Qed.

Lemma matchesCompound_attr (a : string) (n : node) :
  matchesCompound [AttrExists a] n = hasAttr a n.
Proof.
  unfold matchesCompound, matchesSimple, hasAttr. cbn [forallb].
  destruct n; reflexivity || (simpl; apply andb_true_r).
Qed.

Lemma existsb_class (c : string) (l : list node) :
  existsb (matchesCompound [Class c]) l = existsb (hasClass c) l.
Proof. apply existsb_ext. intros n. apply matchesCompound_class. Qed.

Lemma existsb_attr (a : string) (l : list node) :
  existsb (matchesCompound [AttrExists a]) l = existsb (hasAttr a) l.
Proof. apply existsb_ext. intros n. apply matchesCompound_attr. Qed.

Lemma existsb_or {A} (f g : A -> bool) (l : list A) :
  existsb f l || existsb g l = existsb (fun x => f x || g x) l.
Proof. symmetry. apply DomProofs.existsb_orb. Qed.

(** The loop over [CRITICAL_IMAGE_SELECTORS] answers whether the image
    stands in one of the structural contexts. *)
Lemma criticalSelectors_context (img : handle) :
  existsb (fun selector =>
    matches [selector] img ||
    match closest img [firstCompound selector] with
    | Some _ => true
    | None => false
    end) CRITICAL_IMAGE_SELECTORS
  = inContext (fun n => productContext n || heroContext n) img.
Proof.
  unfold CRITICAL_IMAGE_SELECTORS. cbn [existsb].
  rewrite !critical_single, !critical_descendant.
  rewrite !existsb_class, !existsb_attr, orb_false_r.
  rewrite !existsb_or. unfold inContext.
  apply existsb_ext. intros n. unfold productContext, heroContext.
  rewrite <- !orb_assoc. reflexivity.
Qed.

(** C7, as amended. [classifyImageImportance] follows the six rules in
    their order, where the structural contexts that make an image critical
    are the product, shop and catalog contexts and the hero, banner and
    main-image contexts as well, and the hero keywords are hero, banner,
    main, featured and primary. *)
Theorem classifyImageImportance_rules (img : handle) (context : string) :
  classifyImageImportance img context = specImportance img context.
Proof.
  unfold classifyImageImportance, specImportance, importanceByRules.
  rewrite criticalSelectors_context. reflexivity.
Qed.

(** The image of the sample page stands in a hero section and has a hero
    keyword in its alternative text; the code makes it critical, the rules
    of the specification make it hero. *)
Lemma heroHandle_found :
  select Samples.heroPage [[[Tag "img"]]] = [Samples.heroHandle].
Proof. vm_compute. reflexivity. Qed.

Lemma heroImage_importance :
  map importance (detectedImages Samples.heroPage) = [ImpCritical] /\
  claimedImportance Samples.heroHandle
    (innerHTML Samples.heroSection) = ImpHero.
Proof. vm_compute. split; reflexivity. Qed.

(** C7, as stated, fails: an image in a hero context is critical. *)
Lemma hero_context_is_critical :
  ~ (forall img context,
       classifyImageImportance img context = claimedImportance img context).
Proof.
  intros H.
  specialize (H Samples.heroHandle (innerHTML Samples.heroSection)).
  vm_compute in H. discriminate H.
Qed.

End ImportanceProofs.

(** * Splitting oversized chunks *)

Module SplitProofs.

Import Dom ContentChunker.

(** A chunk at or below the ceiling is returned as it is. *)
Lemma splitChunk_fits (maxTokensPerChunk : Z) (chunk : ContentChunk) :
  estimatedTokens chunk <= maxTokensPerChunk ->
  splitChunk maxTokensPerChunk chunk = [chunk].
Proof.
  intros H. unfold splitChunk. apply Z.leb_le in H. rewrite H. reflexivity.
Qed.

Lemma splitOversizedChunks_fits (chunks : list ContentChunk)
    (maxTokensPerChunk : Z) :
  Forall (fun chunk => estimatedTokens chunk <= maxTokensPerChunk) chunks ->
  splitOversizedChunks chunks maxTokensPerChunk = chunks.
Proof.
  unfold splitOversizedChunks.
  induction 1 as [|chunk l H _ IH]; simpl; [reflexivity|].
  rewrite splitChunk_fits, IH by exact H. reflexivity.
Qed.

(** A chunk above the ceiling whose markup has at most one section,
    article or div is returned as it is. *)
Lemma splitChunk_unsplit (maxTokensPerChunk : Z) (chunk : ContentChunk) :
  (length (select (loadMarkup (html chunk)) subSectionSelector) <= 1)%nat ->
  splitChunk maxTokensPerChunk chunk = [chunk].
Proof.
  intros H. unfold splitChunk.
  destruct (estimatedTokens chunk <=? maxTokensPerChunk); [reflexivity|].
  rewrite length_map.
  destruct (1 <? _)%nat eqn:E; [|reflexivity].
  apply Nat.ltb_lt in E. lia.
Qed.

(** The chunk of the sample page has its image, and exceeds a ceiling of 10
    tokens. *)
Lemma mainPage_chunks :
  map (fun c => (type c, map src (images c), estimatedTokens c))
    (chunks (chunkContent Samples.mainPage "" ""))
  = [(TyMain, ["a.png"%string], 21)].
Proof. vm_compute. reflexivity. Qed.

(** C8, the failing input. The chunk of the sample page is split at a
    ceiling of 10 tokens into the chunks of its two divs; the image, which
    stands beside them, is attached to neither. *)
Theorem splitOversizedChunks_loses_image :
  map (fun c => (htmlText c, map src (images c)))
    (splitOversizedChunks (chunks (chunkContent Samples.mainPage "" "")) 10)
  = [ ("<div>first part</div>"%string, []);
      ("<div>second part</div>"%string, []) ].
Proof. vm_compute. reflexivity. Qed.

End SplitProofs.

(** * Conservation of images *)

Module ConservationProofs.

Import Dom ContentChunker ChunkerSpec DomSpec DomProofs.











(** *** The extraction of sections *)

Lemma extractSections_unfold (cssGiven : bool) (sel : selector)
    (detached : bool) (anc : list node) (name : string)
    (attribs : list (string * string)) (kids : list node) :
  extractSections cssGiven sel detached anc (Element name attribs kids)
  = let n := Element name attribs kids in
    if matchesSelector sel n anc then
      let section :=
        if detached then Element name attribs (withoutElements kids) else n in
      if Str.len (outerHTML section) <? 50 then
        let (ss, kids') :=
          extractSectionsList cssGiven sel detached (n :: anc) kids in
        (ss, [Element name attribs kids'])
      else
        let (ss, _) :=
          extractSectionsList cssGiven sel (detached || cssGiven) (n :: anc)
            kids in
        (section :: ss, [])
    else
      let (ss, kids') :=
        extractSectionsList cssGiven sel detached (n :: anc) kids in
      (ss, [Element name attribs kids']).
Proof. reflexivity. Qed.

Lemma extractSectionsList_cons (cssGiven : bool) (sel : selector)
    (detached : bool) (anc : list node) (k : node) (l : list node) :
  extractSectionsList cssGiven sel detached anc (k :: l)
  = let (s1, k') := extractSections cssGiven sel detached anc k in
    let (s2, l') := extractSectionsList cssGiven sel detached anc l in
    (s1 ++ s2, k' ++ l').
Proof. reflexivity. Qed.




(** *** Flat pages *)












(** *** The markup around a flat body *)

Section AroundTheBody.

Variables (top : list node) (htmlAttribs : list (string * string)).
Variables (before : list node) (bodyAttribs : list (string * string)).
Variables (after bottom : list node).

Hypothesis top_bare : bare top.
Hypothesis after_bare : bare after.
Hypothesis bottom_bare : bare bottom.
Hypothesis html_plain : isSection (Element "html" htmlAttribs []) = false.
Hypothesis body_plain : isSection (Element "body" bodyAttribs []) = false.
Hypothesis before_shell :
  Forall (fun d => isShell d = true) (flat_map subtree before).






(** *** Counting the images of a flat page *)








Lemma Forall_filter {A} (P : A -> Prop) (p : A -> bool) (l : list A) :
  Forall P l -> Forall P (List.filter p l).
Proof.
  induction 1 as [|x l Hx _ IH]; simpl; [constructor|].
  destruct (p x); [constructor; assumption | exact IH].
Qed.



End AroundTheBody.





(** The page made of the body alone is flat when its body is. *)
Lemma loadMarkup_flat (body : list node) :
  flatBody body -> flatPage (loadMarkup body).
Proof.
  intros H. exists [], [], [Element "head" [] []], [], body, [], [].
  split; [reflexivity|].
  split; [constructor|]. split; [constructor|]. split; [constructor|].
  split; [reflexivity|]. split; [reflexivity|].
  split; [repeat constructor | exact H].
Qed.

(** Where the body is itself a section the image of a section inside it is
    attached twice, to the chunk of the body and to the chunk of the
    section: the page is not flat. *)
Lemma section_body_counts_twice :
  attachedImages (chunks (chunkContent Samples.mainBodyPage "" "")) = 2 /\
  count (analyzeImages Samples.mainBodyPage) = 1.
Proof. vm_compute. split; reflexivity. Qed.



End ConservationProofs.

(** * The content optimizer keeps the image sources *)

Module OptimizerProofs.

Import Dom ContentOptimizer DomSpec OptimizerSpec DomProofs.

(** *** Blank strings *)

Lemma trimEnd_empty (s : string) :
  Str.isEmpty (Str.trimEnd s) = allSpace s.
Proof.
  induction s as [|c s IH]; [reflexivity|].
  cbn [Str.trimEnd allSpace]. rewrite <- IH.
  destruct (Str.trimEnd s); cbn [Str.isEmpty].
  - destruct (Str.isSpace c); reflexivity.
  - rewrite andb_false_r. reflexivity.
Qed.

Lemma trimStart_allSpace (s : string) :
  allSpace (Str.trimStart s) = allSpace s.
Proof.
  induction s as [|c s IH]; [reflexivity|].
  cbn [Str.trimStart allSpace].
  destruct (Str.isSpace c) eqn:E; [exact IH|].
  cbn [allSpace]. rewrite E. reflexivity.
Qed.

(** [!s.trim()] holds of the strings of white space. *)
Lemma trim_empty (s : string) : Str.isEmpty (Str.trim s) = allSpace s.
Proof. unfold Str.trim. rewrite trimEnd_empty. apply trimStart_allSpace. Qed.

Lemma append_cons (c : ascii) (s t : string) :
  String c s +:+ t = String c (s +:+ t).
Proof. reflexivity. Qed.

Lemma allSpace_app (s t : string) :
  allSpace (s +:+ t) = allSpace s && allSpace t.
Proof.
  induction s as [|c s IH]; [reflexivity|].
  rewrite append_cons. cbn [allSpace]. rewrite IH. apply andb_assoc.
Qed.

Lemma append_empty (s : string) : s +:+ EmptyString = s.
Proof.
  induction s as [|c s IH]; [reflexivity|].
  rewrite append_cons, IH. reflexivity.
Qed.

Lemma concat_cons (s : string) (l : list string) :
  String.concat "" (s :: l) = s +:+ String.concat "" l.
Proof.
  destruct l as [|t l].
  - cbn [String.concat]. symmetry. apply append_empty.
  - reflexivity.
Qed.

Lemma allSpace_concat (l : list string) :
  allSpace (String.concat "" l) = forallb allSpace l.
Proof.
  induction l as [|s l IH]; [reflexivity|].
  rewrite concat_cons, allSpace_app, IH. reflexivity.
Qed.

Lemma allSpace_text (name : string) (attribs : list (string * string))
    (kids : list node) :
  allSpace (textContent (Element name attribs kids))
  = forallb (fun k => allSpace (textContent k)) kids.
Proof.
  cbn [textContent]. rewrite allSpace_concat.
  induction kids as [|k kids IH]; [reflexivity|].
  cbn [map forallb]. rewrite IH. reflexivity.
Qed.

(** *** Images in a tree *)

Lemma isImg_name (name : string) (attribs : list (string * string))
    (kids : list node) :
  isImg (Element name attribs kids) = String.eqb name "img".
Proof. unfold isImg, hasTag. cbn. apply orb_false_r. Qed.

Lemma existsb_flat_map {A B} (f : B -> bool) (g : A -> list B) (l : list A) :
  existsb f (flat_map g l) = existsb (fun x => existsb f (g x)) l.
Proof.
  induction l as [|x l IH]; [reflexivity|].
  cbn [flat_map existsb]. rewrite existsb_app, IH. reflexivity.
Qed.

Lemma hasImage_element (name : string) (attribs : list (string * string))
    (kids : list node) :
  hasImage (Element name attribs kids)
  = String.eqb name "img" || existsb hasImage kids.
Proof.
  unfold hasImage. cbn [subtree existsb].
  rewrite isImg_name, existsb_flat_map. reflexivity.
Qed.

Lemma reachableImage_hasImage (n : node) :
  reachableImage n = true -> hasImage n = true.
Proof.
  induction n as [data|data|name attribs kids IH] using node_induction;
    try discriminate.
  cbn [reachableImage]. rewrite hasImage_element. intros H.
  apply andb_prop in H. destruct H as [_ H].
  apply orb_prop in H. destruct H as [H|H]; [rewrite H; reflexivity|].
  apply orb_true_intro. right.
  apply existsb_exists in H. destruct H as (k & Hk & Hr).
  apply existsb_exists. exists k. split; [exact Hk|].
  rewrite List.Forall_forall in IH. apply IH; assumption.
Qed.

(** Where no image stands below a script, every image can be reached. *)
Lemma hasImage_reachable (n : node) :
  Forall (fun m => hasTag ["script"%string] m = true ->
                   Forall (fun d => isImg d = false) (descendants m))
    (subtree n) ->
  hasImage n = true -> reachableImage n = true.
Proof.
  induction n as [data|data|name attribs kids IH] using node_induction;
    try discriminate.
  intros HS. rewrite hasImage_element. cbn [reachableImage].
  cbn [subtree] in HS. apply Forall_cons_iff in HS. destruct HS as [Hn Hkids].
  intros H.
  destruct (String.eqb name "script") eqn:Es.
  - exfalso.
    assert (Hd : Forall (fun d => isImg d = false)
                   (descendants (Element name attribs kids))).
    { apply Hn. unfold hasTag. cbn. rewrite Es. reflexivity. }
    apply orb_prop in H. destruct H as [H|H].
    + apply String.eqb_eq in Es. subst name. discriminate H.
    + apply existsb_exists in H. destruct H as (k & Hk & Hi).
      unfold hasImage in Hi. apply existsb_exists in Hi.
      destruct Hi as (d & Hd1 & Hd2).
      rewrite List.Forall_forall in Hd.
      rewrite Hd in Hd2; [discriminate Hd2|].
      unfold descendants. cbn [childNodes]. apply in_flat_map.
      exists k. split; assumption.
  - cbn [negb andb].
    apply orb_prop in H. destruct H as [H|H]; [rewrite H; reflexivity|].
    apply orb_true_intro. right.
    apply existsb_exists in H. destruct H as (k & Hk & Hi).
    apply existsb_exists. exists k. split; [exact Hk|].
    rewrite List.Forall_forall in IH. apply IH; [exact Hk| |exact Hi].
    rewrite List.Forall_forall in Hkids |- *. intros m Hm. apply Hkids.
    apply in_flat_map. exists k. split; assumption.
Qed.

(** *** Nodes that are no elements *)

Lemma bare_removeWhere (p : node -> list node -> bool) (anc l : list node) :
  bare l -> flat_map (removeWhere p anc) l = l.
Proof.
  induction 1 as [|n l Hn _ IH]; [reflexivity|].
  destruct n; try discriminate Hn; cbn [flat_map removeWhere app];
    rewrite IH; reflexivity.
Qed.

Lemma bare_replaceWhere (p : node -> list node -> bool)
    (replacement anc l : list node) :
  bare l -> flat_map (replaceWhere p replacement anc) l = l.
Proof.
  induction 1 as [|n l Hn _ IH]; [reflexivity|].
  destruct n; try discriminate Hn; cbn [flat_map replaceWhere app];
    rewrite IH; reflexivity.
Qed.

Lemma bare_appendWhere (p : node -> list node -> bool)
    (extra anc l : list node) :
  bare l -> map (appendWhere p extra anc) l = l.
Proof.
  induction 1 as [|n l Hn _ IH]; [reflexivity|].
  destruct n; try discriminate Hn; cbn [map appendWhere];
    rewrite IH; reflexivity.
Qed.

Lemma bare_reachable (l : list node) :
  bare l -> existsb reachableImage l = false.
Proof.
  induction 1 as [|n l Hn _ IH]; [reflexivity|].
  destruct n; try discriminate Hn; exact IH.
Qed.

Lemma bare_hasImage (l : list node) : bare l -> existsb hasImage l = false.
Proof.
  induction 1 as [|n l Hn _ IH]; [reflexivity|].
  destruct n; try discriminate Hn; exact IH.
Qed.

(** *** Removals that spare the images *)

Section Removal.

Variable p : node -> list node -> bool.
Hypothesis p_spares :
  forall n anc, p n anc = true -> reachableImage n = false.

Lemma removeWhere_reachable (n : node) :
  forall anc, reachableImage n = true ->
              existsb reachableImage (removeWhere p anc n) = true.
Proof.
  induction n as [data|data|name attribs kids IH] using node_induction;
    intros anc H; try discriminate H.
  cbn [removeWhere].
  destruct (p (Element name attribs kids) anc) eqn:E.
  - rewrite (p_spares _ _ E) in H. discriminate H.
  - cbn [existsb]. rewrite orb_false_r.
    cbn [reachableImage] in H |- *.
    apply andb_prop in H. destruct H as [H1 H2]. rewrite H1. cbn [andb].
    apply orb_prop in H2. destruct H2 as [H2|H2]; [rewrite H2; reflexivity|].
    apply orb_true_intro. right. rewrite existsb_flat_map.
    apply existsb_exists in H2. destruct H2 as (k & Hk & Hr).
    apply existsb_exists. exists k. split; [exact Hk|].
    rewrite List.Forall_forall in IH. apply IH; assumption.
Qed.

Lemma removeWhere_reachable_list (anc : list node) (l : list node) :
  existsb reachableImage l = true ->
  existsb reachableImage (flat_map (removeWhere p anc) l) = true.
Proof.
  intros H. rewrite existsb_flat_map.
  apply existsb_exists in H. destruct H as (k & Hk & Hr).
  apply existsb_exists. exists k. split; [exact Hk|].
  apply removeWhere_reachable, Hr.
Qed.

(** A page whose body has an image keeps its [html] and its [body], and
    the body keeps an image. *)
Lemma removeWhere_page (top : list node)
    (htmlAttribs : list (string * string)) (before : list node)
    (bodyAttribs : list (string * string)) (body after bottom : list node) :
  bare top -> bare after -> bare bottom ->
  existsb reachableImage body = true ->
  exists before' body',
    onDocument (removeWhere p)
      (page top htmlAttribs before bodyAttribs body after bottom)
    = page top htmlAttribs before' bodyAttribs body' after bottom /\
    existsb reachableImage body' = true.
Proof.
  intros Htop Hafter Hbottom H.
  assert (Hb : reachableImage (Element "body" bodyAttribs body) = true).
  { cbn [reachableImage]. rewrite H. reflexivity. }
  assert (Hh : reachableImage
                 (Element "html" htmlAttribs
                    (before ++ Element "body" bodyAttribs body :: after))
               = true).
  { cbn [reachableImage]. rewrite existsb_app. cbn [existsb].
    rewrite Hb, orb_true_r. reflexivity. }
  unfold onDocument, page. rewrite flat_map_app. cbn [flat_map].
  rewrite (bare_removeWhere p [] top Htop),
    (bare_removeWhere p [] bottom Hbottom).
  cbn [removeWhere].
  destruct (p (Element "html" htmlAttribs _) []) eqn:E1;
    [rewrite (p_spares _ _ E1) in Hh; discriminate Hh|].
  rewrite flat_map_app. cbn [flat_map].
  rewrite (bare_removeWhere p _ after Hafter).
  cbn [removeWhere].
  destruct (p (Element "body" bodyAttribs body) _) eqn:E2;
    [rewrite (p_spares _ _ E2) in Hb; discriminate Hb|].
  eexists _, _. split; [reflexivity|].
  apply removeWhere_reachable_list, H.
Qed.

End Removal.

(** *** The four removals *)

Lemma irrelevant_spares (sel : selector) (n : node) (anc : list node) :
  irrelevant sel n anc = true -> reachableImage n = false.
Proof.
  unfold irrelevant. intros H.
  apply andb_prop in H. destruct H as [H H3].
  apply andb_prop in H. destruct H as [H1 H2].
  apply matchesSelector_element in H1.
  destruct (reachableImage n) eqn:E; [|reflexivity].
  apply reachableImage_hasImage in E. unfold hasImage in E.
  destruct n as [data|data|name attribs kids]; try discriminate H1.
  cbn [subtree existsb] in E.
  apply negb_true_iff in H2. apply negb_true_iff in H3.
  unfold descendants in H3. cbn [childNodes] in H3.
  change (hasTag ["img"%string] (Element name attribs kids)
          || existsb (hasTag ["img"%string]) (flat_map subtree kids) = true)
    in E.
  rewrite H2, H3 in E. discriminate E.
Qed.

Lemma isAnalyticsScript_spares (n : node) (anc : list node) :
  isAnalyticsScript n anc = true -> reachableImage n = false.
Proof.
  unfold isAnalyticsScript. intros H.
  apply andb_prop in H. destruct H as [H _].
  destruct n as [data|data|name attribs kids]; try reflexivity.
  unfold hasTag in H. cbn in H. rewrite orb_false_r in H.
  cbn [reachableImage]. rewrite H. reflexivity.
Qed.

Lemma irrelevantSelectors_page (sels : list selector) (top : list node)
    (htmlAttribs bodyAttribs : list (string * string))
    (after bottom : list node) :
  bare top -> bare after -> bare bottom ->
  forall before body,
    existsb reachableImage body = true ->
    exists before' body',
      fold_left (fun d sel => onDocument (removeWhere (irrelevant sel)) d)
        sels (page top htmlAttribs before bodyAttribs body after bottom)
      = page top htmlAttribs before' bodyAttribs body' after bottom /\
      existsb reachableImage body' = true.
Proof.
  intros Htop Hafter Hbottom.
  induction sels as [|sel sels IH]; intros before body H.
  - exists before, body. split; [reflexivity | exact H].
  - cbn [fold_left].
    destruct (removeWhere_page (irrelevant sel) (irrelevant_spares sel)
                top htmlAttribs before bodyAttribs body after bottom
                Htop Hafter Hbottom H)
      as (before1 & body1 & -> & H1).
    apply IH, H1.
Qed.

(** After the heavy graphics are replaced the body has an image or a text
    that is not blank. *)
Lemma replaceWhere_alive (n : node) :
  forall anc, reachableImage n = true ->
    let r := replaceWhere isHeavySvg svgPlaceholder anc n in
    existsb hasImage r = true \/ blankText r = false.
Proof.
  induction n as [data|data|name attribs kids IH] using node_induction;
    intros anc H; try discriminate H.
  cbn zeta. cbn [replaceWhere].
  destruct (isHeavySvg (Element name attribs kids) anc); [right; reflexivity|].
  cbn [existsb]. unfold blankText. cbn [forallb].
  rewrite orb_false_r, andb_true_r, hasImage_element, allSpace_text.
  cbn [reachableImage] in H. apply andb_prop in H. destruct H as [_ H].
  apply orb_prop in H. destruct H as [H|H]; [left; rewrite H; reflexivity|].
  apply existsb_exists in H. destruct H as (k & Hk & Hr).
  rewrite List.Forall_forall in IH.
  destruct (IH k Hk (Element name attribs kids :: anc) Hr) as [Hi|Ht].
  - left. apply orb_true_intro. right. rewrite existsb_flat_map.
    apply existsb_exists. exists k. split; [exact Hk | exact Hi].
  - right. apply not_true_is_false. intros Hall.
    rewrite forallb_forall in Hall.
    unfold blankText in Ht. apply not_true_iff_false in Ht. apply Ht.
    apply forallb_forall. intros m Hm. apply Hall.
    apply in_flat_map. exists k. split; assumption.
Qed.

Lemma replaceWhere_alive_list (anc : list node) (l : list node) :
  existsb reachableImage l = true ->
  let r := flat_map (replaceWhere isHeavySvg svgPlaceholder anc) l in
  existsb hasImage r = true \/ blankText r = false.
Proof.
  intros H. cbn zeta.
  apply existsb_exists in H. destruct H as (k & Hk & Hr).
  destruct (replaceWhere_alive k anc Hr) as [Hi|Ht].
  - left. rewrite existsb_flat_map. apply existsb_exists.
    exists k. split; [exact Hk | exact Hi].
  - right. apply not_true_is_false. intros Hall.
    unfold blankText in Hall, Ht. rewrite forallb_forall in Hall.
    apply not_true_iff_false in Ht. apply Ht.
    apply forallb_forall. intros m Hm. apply Hall.
    apply in_flat_map. exists k. split; assumption.
Qed.

Lemma replaceWhere_page (top : list node)
    (htmlAttribs : list (string * string)) (before : list node)
    (bodyAttribs : list (string * string)) (body after bottom : list node) :
  bare top -> bare after -> bare bottom ->
  existsb reachableImage body = true ->
  exists before' body',
    onDocument (replaceWhere isHeavySvg svgPlaceholder)
      (page top htmlAttribs before bodyAttribs body after bottom)
    = page top htmlAttribs before' bodyAttribs body' after bottom /\
    (existsb hasImage body' = true \/ blankText body' = false).
Proof.
  intros Htop Hafter Hbottom H.
  unfold onDocument, page. rewrite flat_map_app. cbn [flat_map].
  rewrite (bare_replaceWhere _ _ [] top Htop),
    (bare_replaceWhere _ _ [] bottom Hbottom).
  cbn [replaceWhere].
  change (isHeavySvg (Element "html" htmlAttribs _) []) with false.
  cbn iota. rewrite flat_map_app. cbn [flat_map].
  rewrite (bare_replaceWhere _ _ _ after Hafter).
  cbn [replaceWhere].
  change (isHeavySvg (Element "body" bodyAttribs body) _) with false.
  cbn iota. eexists _, _. split; [reflexivity|].
  apply replaceWhere_alive_list, H.
Qed.

(** An element with an image or with text is not empty. *)
Lemma isEmptyElement_alive (name : string) (attribs : list (string * string))
    (kids anc : list node) :
  existsb hasImage kids = true \/ blankText kids = false ->
  isEmptyElement (Element name attribs kids) anc = false.
Proof.
  intros H. unfold isEmptyElement.
  destruct H as [H|H].
  - apply andb_false_intro2. apply negb_false_iff.
    unfold descendants. cbn [childNodes]. rewrite existsb_flat_map.
    apply existsb_exists in H. destruct H as (k & Hk & Hi).
    apply existsb_exists. exists k. split; [exact Hk|].
    unfold hasImage in Hi. apply existsb_exists in Hi.
    destruct Hi as (d & Hd & Hi). apply existsb_exists. exists d.
    split; [exact Hd|].
    unfold isImg, hasTag in Hi |- *. apply andb_prop in Hi.
    destruct Hi as [H1 H2]. rewrite H1. cbn [andb existsb] in H2 |- *.
    rewrite orb_false_r in H2. rewrite H2. reflexivity.
  - apply andb_false_intro1, andb_false_intro2.
    rewrite trim_empty, allSpace_text. exact H.
Qed.

Lemma removeEmpty_page (top : list node)
    (htmlAttribs : list (string * string)) (before : list node)
    (bodyAttribs : list (string * string)) (body after bottom : list node) :
  bare top -> bare after -> bare bottom ->
  existsb hasImage body = true \/ blankText body = false ->
  exists before' body',
    onDocument (removeWhere isEmptyElement)
      (page top htmlAttribs before bodyAttribs body after bottom)
    = page top htmlAttribs before' bodyAttribs body' after bottom.
Proof.
  intros Htop Hafter Hbottom H.
  unfold onDocument, page. rewrite flat_map_app. cbn [flat_map].
  rewrite (bare_removeWhere _ [] top Htop),
    (bare_removeWhere _ [] bottom Hbottom).
  cbn [removeWhere].
  rewrite isEmptyElement_alive.
  - rewrite flat_map_app. cbn [flat_map].
    rewrite (bare_removeWhere _ _ after Hafter).
    cbn [removeWhere]. rewrite (isEmptyElement_alive _ _ _ _ H).
    eexists _, _. reflexivity.
  - unfold blankText. rewrite existsb_app, forallb_app.
    cbn [existsb forallb]. rewrite hasImage_element, allSpace_text.
    destruct H as [H|H].
    + left. rewrite H. cbn. rewrite !orb_true_r. reflexivity.
    + right. unfold blankText in H. rewrite H. cbn.
      apply andb_false_r.
Qed.

(** The document after the four removals is a page still, if an image can
    be reached in its body. *)
Lemma cleaned_page (top : list node)
    (htmlAttribs : list (string * string)) (before : list node)
    (bodyAttribs : list (string * string)) (body after bottom : list node) :
  bare top -> bare after -> bare bottom ->
  existsb reachableImage body = true ->
  exists before' body',
    cleaned (page top htmlAttribs before bodyAttribs body after bottom)
    = page top htmlAttribs before' bodyAttribs body' after bottom.
Proof.
  intros Htop Hafter Hbottom H. unfold cleaned.
  destruct (irrelevantSelectors_page IRRELEVANT_SELECTORS
              top htmlAttribs bodyAttribs after bottom Htop Hafter Hbottom
              before body H)
    as (before1 & body1 & -> & H1).
  destruct (removeWhere_page isAnalyticsScript isAnalyticsScript_spares
              top htmlAttribs before1 bodyAttribs body1 after bottom
              Htop Hafter Hbottom H1)
    as (before2 & body2 & -> & H2).
  destruct (replaceWhere_page top htmlAttribs before2 bodyAttribs body2
              after bottom Htop Hafter Hbottom H2)
    as (before3 & body3 & -> & H3).
  apply removeEmpty_page; assumption.
Qed.

(** *** The sources of a document *)

Lemma matchesCompound_img (n : node) :
  matchesCompound [Tag "img"] n = isImg n.
Proof.
  destruct n as [data|data|name attribs kids]; reflexivity.
Qed.

Lemma imagesOf_subtree (doc : document) :
  imagesOf doc = List.filter isImg (flat_map subtree doc).
Proof.
  unfold imagesOf. rewrite select_self.
  apply filter_ext. exact matchesCompound_img.
Qed.

Lemma elem_of_sourcesOf (doc : document) (s : string) :
  s ∈ sourcesOf doc
  <-> exists u, In u (flat_map subtree doc) /\ isImg u = true /\
                attr u "src" = Some s /\ Str.isEmpty s = false.
Proof.
  unfold sourcesOf. rewrite elem_of_list_to_set, list_elem_of_In, in_flat_map.
  rewrite imagesOf_subtree. split.
  - intros (u & Hu & Hs). apply List.filter_In in Hu. destruct Hu as [Hu Hi].
    exists u. destruct (attr u "src") as [t|]; [|destruct Hs].
    destruct (Str.isEmpty t) eqn:E; [destruct Hs|].
    destruct Hs as [<-|[]]. repeat split; assumption.
  - intros (u & Hu & Hi & Ha & He). exists u. split.
    + apply List.filter_In. split; assumption.
    + rewrite Ha, He. left. reflexivity.
Qed.

(** [append] keeps every element, with its name and its attributes. *)
Lemma appendWhere_keeps (p : node -> list node -> bool) (extra : list node)
    (n : node) :
  forall anc u, In u (subtree n) ->
    exists u', In u' (subtree (appendWhere p extra anc n)) /\
               isImg u' = isImg u /\ attr u' "src" = attr u "src".
Proof.
  induction n as [data|data|name attribs kids IH] using node_induction;
    intros anc u Hu; try destruct Hu.
  - subst u. eexists. split; [left; reflexivity|].
    rewrite !isImg_name. split; reflexivity.
  - apply in_flat_map in H. destruct H as (k & Hk & Hu).
    rewrite List.Forall_forall in IH.
    destruct (IH k Hk (Element name attribs kids :: anc) u Hu)
      as (u' & Hu' & Hi & Ha).
    exists u'. split; [|split; assumption].
    cbn [appendWhere subtree]. right.
    rewrite flat_map_app. apply in_or_app. left.
    apply in_flat_map. exists (appendWhere p extra
                                 (Element name attribs kids :: anc) k).
    split; [apply in_map, Hk | exact Hu'].
Qed.

Lemma appendWhere_keeps_list (p : node -> list node -> bool)
    (extra : list node) (anc : list node) (l : list node) (u : node) :
  In u (flat_map subtree l) ->
  exists u', In u' (flat_map subtree (map (appendWhere p extra anc) l)) /\
             isImg u' = isImg u /\ attr u' "src" = attr u "src".
Proof.
  intros Hu. apply in_flat_map in Hu. destruct Hu as (k & Hk & Hu).
  destruct (appendWhere_keeps p extra k anc u Hu) as (u' & Hu' & H).
  exists u'. split; [|exact H].
  apply in_flat_map. exists (appendWhere p extra anc k).
  split; [apply in_map, Hk | exact Hu'].
Qed.

(** What is appended to the body of a page stands in the page. *)
Lemma appendWhere_page (top : list node)
    (htmlAttribs : list (string * string)) (before : list node)
    (bodyAttribs : list (string * string))
    (body after bottom extra : list node) (v : node) :
  In v extra -> isImg v = true ->
  In v (flat_map subtree
          (map (appendWhere isBody extra [])
             (page top htmlAttribs before bodyAttribs body after bottom))).
Proof.
  intros Hv Hi. unfold page.
  rewrite map_app, flat_map_app. apply in_or_app. right.
  cbn [map appendWhere flat_map subtree].
  apply in_or_app. left. right.
  rewrite app_nil_r, map_app, flat_map_app.
  apply in_or_app. right.
  cbn [map appendWhere flat_map subtree].
  apply in_or_app. left. right.
  rewrite flat_map_app. apply in_or_app. right.
  change (isBody (Element "body" bodyAttribs body) _) with true. cbn iota.
  apply in_flat_map. exists v. split; [exact Hv|].
  destruct v; try discriminate Hi. left. reflexivity.
Qed.

(** C10. For a document as the parser builds it, every source of an image
    of the document is the source of an image of the document that
    [removeIrrelevantContent] returns. *)
Theorem sources_preserved (doc : document) :
  parsed doc ->
  sourcesOf doc ⊆ sourcesOf (removeIrrelevantContent doc).
Proof.
  intros [Hshape Hscripts] s Hs.
  pose proof Hs as Hs0.
  apply elem_of_sourcesOf in Hs. destruct Hs as (u & Hu & Hi & Ha & He).
  destruct Hshape
    as [(top & htmlAttribs & before & bodyAttribs & body & after & bottom
         & -> & Htop & Hafter & Hbottom & Hbefore) | Hnone].
  2:{ rewrite List.Forall_forall in Hnone. rewrite (Hnone u Hu) in Hi.
      discriminate Hi. }
  set (doc := page top htmlAttribs before bodyAttribs body after bottom) in *.
  pose proof (subtree_page top htmlAttribs before bodyAttribs body after
                bottom Htop Hafter Hbottom) as Hdoc.
  fold doc in Hdoc.
  (* the image stands in the body, where it can be reached *)
  assert (Hbody : In u (flat_map subtree body)).
  { rewrite Hdoc in Hu.
    destruct Hu as [<-|Hu]; [discriminate Hi|].
    apply in_app_or in Hu. destruct Hu as [Hu|Hu].
    - rewrite List.Forall_forall in Hbefore. rewrite (Hbefore u Hu) in Hi.
      discriminate Hi.
    - destruct Hu as [<-|Hu]; [discriminate Hi | exact Hu]. }
  assert (Hreach : existsb reachableImage body = true).
  { apply in_flat_map in Hbody. destruct Hbody as (k & Hk & Hku).
    apply existsb_exists. exists k. split; [exact Hk|].
    apply hasImage_reachable.
    - rewrite List.Forall_forall in Hscripts |- *. intros m Hm.
      apply Hscripts. rewrite Hdoc. right.
      apply in_or_app. right. right.
      apply in_flat_map. exists k. split; assumption.
    - unfold hasImage. apply existsb_exists. exists u. split; assumption. }
  destruct (cleaned_page top htmlAttribs before bodyAttribs body after bottom
              Htop Hafter Hbottom Hreach) as (before' & body' & Hclean).
  fold doc in Hclean.
  unfold removeIrrelevantContent.
  destruct (decide (s ∈ sourcesOf (cleaned doc))) as [Hin|Hout].
  - (* the source is still there *)
    apply elem_of_sourcesOf in Hin.
    destruct Hin as (w & Hw & Hwi & Hwa & _).
    destruct (appendWhere_keeps_list isBody
                (lostImages (imagesOf doc) (sourcesOf (cleaned doc))) []
                (cleaned doc) w Hw) as (w' & Hw' & Hwi' & Hwa').
    apply elem_of_sourcesOf. exists w'.
    split; [exact Hw'|]. rewrite Hwi', Hwa'. repeat split; assumption.
  - (* the image is restored *)
    apply elem_of_sourcesOf. exists u.
    split; [|repeat split; assumption].
    rewrite Hclean. apply appendWhere_page; [|exact Hi].
    unfold lostImages. apply List.filter_In. split.
    + rewrite imagesOf_subtree. apply List.filter_In. split; assumption.
    + rewrite Ha, He. cbn [negb andb]. rewrite <- Hclean.
      apply bool_decide_eq_true. exact Hout.
Qed.

(** On the sample page the graphic is replaced, with the image in it, and
    the image is appended to the body again. *)
Lemma svgPage_restored :
  map tagName (flat_map subtree (cleaned Samples.svgPage))
    = ["html"; "body"; "div"]%string /\
  map tagName (flat_map subtree (removeIrrelevantContent Samples.svgPage))
    = ["html"; "body"; "div"; "img"]%string.
Proof. vm_compute. split; reflexivity. Qed.

(** The page as it is written is a document as the parser builds it. *)
Lemma typicalPage_parsed : parsed Samples.typicalPage.
Proof.
  split.
  - left.
    exists [Comment "DOCTYPE html"], [("lang", "en")]%string,
      [Element "head" [] [Element "title" [] [Text "Shop"]];
       Text (String (ascii_of_nat 10) EmptyString)],
      [("class", "home")]%string,
      [Samples.heavySvg; Element "p" [] [Text "Hello"]],
      [Comment " a "], [Comment " b "].
    split; [reflexivity|].
    repeat split; repeat constructor.
  - unfold Samples.typicalPage, Samples.heavySvg. cbn [flat_map subtree app].
    repeat (apply List.Forall_cons; [intros H; discriminate H|]).
    apply List.Forall_nil.
Qed.

(** On that page too the graphic is replaced and its image appended to the
    body again; the nodes outside the body stay. *)
Lemma typicalPage_restored :
  map tagName (flat_map subtree (removeIrrelevantContent Samples.typicalPage))
  = ["html"; "head"; "title"; "body"; "div"; "p"; "img"]%string.
Proof. vm_compute. reflexivity. Qed.

Lemma sources_preserved_witness :
  sourcesOf Samples.typicalPage
  ⊆ sourcesOf (removeIrrelevantContent Samples.typicalPage).
Proof.
  apply (sources_preserved Samples.typicalPage). exact typicalPage_parsed.
Defined.

End OptimizerProofs.
(** * Laws of the token bucket *)

Module TokenBucketLaws.

Import TokenBucket LimiterSpec LimiterHistory.

(** ** What each method returns and leaves *)

Lemma getAvailableTokens_run (now : Z) (b : TokenBucket.t) :
  getAvailableTokens now b
  = (Z.max 0 (maxTokens (config b) - usage (inWindow now b)),
     withHistory (inWindow now b) b).
Proof.
  unfold getAvailableTokens, bind, cleanOldUsage, getCurrentUsage, get, gets,
    modify, ret. simpl.
  rewrite TokenBucketProofs.fold_usage. reflexivity.
Qed.

Lemma waitTimeForTokens_run (now tokens : Z) (b : TokenBucket.t) :
  waitTimeForTokens now tokens b
  = if usage (inWindow now b) + tokens <=? maxTokens (config b)
    then (0, withHistory (inWindow now b) b)
    else (foundWait now tokens b,
          set_waitTimes (waitTimes b ++ [foundWait now tokens b])
            (withHistory (inWindow now b) b)).
Proof.
  unfold waitTimeForTokens, bind at 1.
  rewrite TokenBucketProofs.canProcess_run.
  destruct (usage (inWindow now b) + tokens <=? maxTokens (config b)) eqn:E;
    [reflexivity|].
  unfold bind.
  rewrite TokenBucketProofs.cleanOldUsage_run,
    TokenBucketProofs.getCurrentUsage_run.
  unfold get, foundWait.
  cbn [usageHistory withHistory set_usageHistory config].
  fold (withHistory (inWindow now b) b).
  rewrite TokenBucketProofs.inWindow_idem.
  cbn [usageHistory withHistory set_usageHistory config].
  destruct (walkUsage _ _ _ _ _); reflexivity.
Qed.

Lemma getMetrics_exec (now : Z) (b : TokenBucket.t) :
  execM (getMetrics now) b = withHistory (inWindow now b) b.
Proof.
  unfold execM, getMetrics, bind.
  rewrite TokenBucketProofs.cleanOldUsage_run. unfold get.
  rewrite TokenBucketProofs.getCurrentUsage_run, getAvailableTokens_run.
  cbn [snd]. fold (withHistory (inWindow now b) b).
  rewrite TokenBucketProofs.inWindow_idem.
  destruct b; reflexivity.
Qed.

(** ** Sums over filtered histories *)

Lemma usage_nonneg (h : list UsageRecord) : nonNegative h -> 0 <= usage h.
Proof. induction 1 as [|r h Hr _ IH]; simpl; lia. Qed.

Lemma nonNegative_filter (p : UsageRecord -> bool) (h : list UsageRecord) :
  nonNegative h -> nonNegative (List.filter p h).
Proof.
  induction 1 as [|r h Hr _ IH]; simpl; [constructor|].
  destruct (p r); [constructor; assumption | exact IH].
Qed.

(** A weaker filter keeps at least as many tokens. *)
Lemma usage_filter_le (p q : UsageRecord -> bool) (h : list UsageRecord) :
  nonNegative h -> (forall r, In r h -> p r = true -> q r = true) ->
  usage (List.filter p h) <= usage (List.filter q h).
Proof.
  induction 1 as [|r h Hr Hh IH]; intros Hpq; simpl; [lia|].
  assert (IH' : usage (List.filter p h) <= usage (List.filter q h)).
  { apply IH. intros x Hx. apply Hpq. right. exact Hx. }
  specialize (Hpq r (or_introl eq_refl)).
  destruct (p r) eqn:Ep.
  - rewrite Hpq by reflexivity. simpl. lia.
  - destruct (q r); simpl; lia.
Qed.

Lemma usage_filter_all (p : UsageRecord -> bool) (h : list UsageRecord) :
  nonNegative h -> usage (List.filter p h) <= usage h.
Proof.
  induction 1 as [|r h Hr _ IH]; simpl; [lia|].
  destruct (p r); simpl; lia.
Qed.

Lemma filter_none {A} (p : A -> bool) (l : list A) :
  Forall (fun x => p x = false) l -> List.filter p l = [].
Proof.
  induction 1 as [|x l Hx _ IH]; simpl; [reflexivity|].
  rewrite Hx. exact IH.
Qed.

Lemma filter_all {A} (p : A -> bool) (l : list A) :
  Forall (fun x => p x = true) l -> List.filter p l = l.
Proof.
  induction 1 as [|x l Hx _ IH]; simpl; [reflexivity|].
  rewrite Hx, IH. reflexivity.
Qed.

Lemma chronological_filter (p : UsageRecord -> bool) (h : list UsageRecord) :
  chronological h -> chronological (List.filter p h).
Proof.
  induction 1 as [|r h Hs IH Hr]; simpl; [constructor|].
  destruct (p r); [|exact IH].
  constructor; [exact IH|].
  apply ConservationProofs.Forall_filter, Hr.
Qed.

(** A chronological history around one of its records. *)
Lemma chronological_split (l1 l2 : list UsageRecord) (r : UsageRecord) :
  chronological (l1 ++ r :: l2) ->
  Forall (fun x => timestamp x <= timestamp r) l1 /\
  Forall (fun x => timestamp r <= timestamp x) l2.
Proof.
  induction l1 as [|x l1 IH]; simpl; intros H.
  - apply StronglySorted_inv in H. split; [constructor | apply H].
  - apply StronglySorted_inv in H. destruct H as [Hs Hx].
    destruct (IH Hs) as [H1 H2]. split; [|exact H2].
    constructor; [|exact H1].
    rewrite List.Forall_forall in Hx. apply Hx.
    apply in_or_app. right. left. reflexivity.
Qed.

(** ** The walk of [waitTimeForTokens] *)

(** A walk that ends at a record: the running total is below the excess
    before the record and reaches it there. *)
Lemma walkUsage_found (now window excess : Z) (h : list UsageRecord)
    (cum w : Z) :
  cum < excess ->
  walkUsage now window excess cum h = Some w ->
  exists l1 r l2,
    h = l1 ++ r :: l2 /\
    w = Z.max 0 (timestamp r + window - now) /\
    cum + usage l1 < excess <= cum + usage l1 + tokensUsed r.
Proof.
  revert cum. induction h as [|x h IH]; intros cum Hc H; [discriminate H|].
  cbn [walkUsage] in H.
  destruct (excess <=? cum + tokensUsed x) eqn:E.
  - injection H as <-. apply Z.leb_le in E.
    exists [], x, h. simpl. repeat split; lia.
  - apply Z.leb_gt in E.
    destruct (IH _ E H) as (l1 & r & l2 & -> & -> & Hb).
    exists (x :: l1), r, l2. simpl. repeat split; lia.
Qed.

(** A walk that runs to the end: the whole history is below the excess. *)
Lemma walkUsage_missed (now window excess : Z) (h : list UsageRecord)
    (cum : Z) :
  cum < excess ->
  walkUsage now window excess cum h = None -> cum + usage h < excess.
Proof.
  revert cum. induction h as [|x h IH]; intros cum Hc H; simpl; [lia|].
  cbn [walkUsage] in H.
  destruct (excess <=? cum + tokensUsed x) eqn:E; [discriminate H|].
  apply Z.leb_gt in E. specialize (IH _ E H). lia.
Qed.

Lemma walkUsage_never (now window excess : Z) (h : list UsageRecord)
    (cum : Z) :
  nonNegative h -> cum + usage h < excess ->
  walkUsage now window excess cum h = None.
Proof.
  intros Hn. revert cum.
  induction Hn as [|x h Hx Hh IH]; intros cum Hc; [reflexivity|].
  simpl in Hc. cbn [walkUsage].
  pose proof (usage_nonneg h Hh) as Hu.
  destruct (excess <=? cum + tokensUsed x) eqn:E;
    [apply Z.leb_le in E; lia|].
  apply IH. lia.
Qed.

(** ** Admission and the tokens that are left *)

(** X1. A request for a positive number of tokens is admitted exactly when
    it asks for no more than [getAvailableTokens] reports. *)
Theorem canProcess_iff_available (now tokens : Z) (b : TokenBucket.t) :
  0 < tokens ->
  evalM (canProcess now tokens) b = true
  <-> tokens <= evalM (getAvailableTokens now) b.
Proof.
  intros Hpos. unfold evalM.
  rewrite TokenBucketProofs.canProcess_run, getAvailableTokens_run.
  cbn [fst]. rewrite Z.leb_le. lia.
Qed.

Lemma canProcess_iff_available_witness :
  evalM (canProcess 0 100) Samples.sampleBucket = true
  <-> 100 <= evalM (getAvailableTokens 0) Samples.sampleBucket.
Proof.
  apply (canProcess_iff_available 0 100 Samples.sampleBucket). lia.
Defined.

(** X2. With a positive window, consuming tokens that are available
    lowers what [getAvailableTokens] reports by just that number. *)
Theorem consumeTokens_lowers_available (now tokens : Z) (b : TokenBucket.t) :
  0 < windowSize (config b) ->
  0 <= tokens <= evalM (getAvailableTokens now) b ->
  evalM (getAvailableTokens now) (execM (consumeTokens now tokens) b)
  = evalM (getAvailableTokens now) b - tokens.
Proof.
  intros HW Ht. unfold evalM, execM in *.
  rewrite TokenBucketProofs.consumeTokens_run. cbn [snd].
  rewrite !getAvailableTokens_run in *. cbn [fst] in *.
  rewrite TokenBucketProofs.inWindow_app, TokenBucketProofs.inWindow_idem.
  rewrite TokenBucketProofs.usage_app.
  assert (E : inWindow now
                (withHistory [{| timestamp := now; tokensUsed := tokens |}] b)
              = [{| timestamp := now; tokensUsed := tokens |}]).
  { unfold inWindow.
    cbn [withHistory set_usageHistory usageHistory config List.filter
         timestamp].
    replace (now - windowSize (config b) <? now) with true
      by (symmetry; apply Z.ltb_lt; lia).
    reflexivity. }
  rewrite E.
  cbn [usage tokensUsed withHistory set_usageHistory config]. lia.
Qed.

Lemma consumeTokens_lowers_available_witness :
  evalM (getAvailableTokens 0)
    (execM (consumeTokens 0 60) Samples.sampleBucket)
  = evalM (getAvailableTokens 0) Samples.sampleBucket - 60.
Proof.
  apply (consumeTokens_lowers_available 0 60 Samples.sampleBucket).
  - reflexivity.
  - vm_compute. split; discriminate.
Defined.

(** ** Waiting *)

(** X3. In a chronological history without negative records, a request
    within the quota is admitted once the wait that [waitTimeForTokens]
    returns has passed, if nothing is consumed in between. *)
Theorem waitTimeForTokens_suffices (now tokens : Z) (b : TokenBucket.t) :
  chronological (usageHistory b) -> nonNegative (usageHistory b) ->
  tokens <= maxTokens (config b) ->
  let wait := evalM (waitTimeForTokens now tokens) b in
  let b' := execM (waitTimeForTokens now tokens) b in
  evalM (canProcess (now + wait) tokens) b' = true.
Proof.
  intros Hc Hn Ht wait b'. subst wait b'. unfold evalM, execM.
  rewrite waitTimeForTokens_run.
  set (h := inWindow now b).
  assert (Hch : chronological h) by (apply chronological_filter, Hc).
  assert (Hnh : nonNegative h) by (apply nonNegative_filter, Hn).
  destruct (usage h + tokens <=? maxTokens (config b)) eqn:E; cbn [fst snd].
  - rewrite TokenBucketProofs.canProcess_run. cbn [fst].
    rewrite Z.add_0_r. subst h.
    rewrite TokenBucketProofs.inWindow_idem. exact E.
  - apply Z.leb_gt in E.
    rewrite TokenBucketProofs.canProcess_run. cbn [fst].
    apply Z.leb_le.
    unfold inWindow.
    cbn [set_waitTimes withHistory set_usageHistory usageHistory config].
    fold h. unfold foundWait. fold h.
    destruct (walkUsage _ _ _ _ _) as [w|] eqn:Hw.
    + apply walkUsage_found in Hw; [|lia].
      destruct Hw as (l1 & r & l2 & Hh & -> & Hb).
      rewrite Hh in Hch. apply chronological_split in Hch.
      destruct Hch as [H1 _].
      rewrite Hh, List.filter_app. cbn [List.filter].
      set (cutoff := now + Z.max 0 (timestamp r + windowSize (config b) - now)
                     - windowSize (config b)).
      assert (Hcut : timestamp r <= cutoff) by (subst cutoff; lia).
      rewrite (filter_none _ l1).
      2:{ eapply List.Forall_impl; [|exact H1]. simpl. intros x Hx.
          apply Z.ltb_ge. lia. }
      replace (cutoff <? timestamp r) with false
        by (symmetry; apply Z.ltb_ge; exact Hcut).
      cbn [app].
      rewrite Hh in Hnh. apply List.Forall_app in Hnh.
      destruct Hnh as [_ Hnh]. apply List.Forall_cons_iff in Hnh.
      destruct Hnh as [_ Hn2].
      pose proof (usage_filter_all (fun r0 => cutoff <? timestamp r0) l2 Hn2)
        as Hle.
      rewrite Hh, TokenBucketProofs.usage_app in E, Hb.
      cbn [usage] in E, Hb. lia.
    + apply walkUsage_missed in Hw; lia.
Qed.

Lemma waitTimeForTokens_suffices_witness :
  evalM (canProcess (1000 + evalM (waitTimeForTokens 1000 200)
                              Samples.sampleBucket) 200)
    (execM (waitTimeForTokens 1000 200) Samples.sampleBucket) = true.
Proof.
  apply (waitTimeForTokens_suffices 1000 200 Samples.sampleBucket).
  - repeat constructor.
  - repeat constructor. simpl. lia.
  - simpl. lia.
Defined.

(** X4. In a chronological history without negative records, when the
    request is still refused at the second reading of the clock, where
    [waitTimeForTokens] purges the history again, it stays refused at
    every time before the wait that is returned has passed since the last
    reading: the wait is the least one. *)
Theorem waitTimeForTokens_least (now1 now2 now3 now' tokens : Z)
    (b : TokenBucket.t) :
  chronological (usageHistory b) -> nonNegative (usageHistory b) ->
  now1 <= now2 ->
  evalM (canProcess now2 tokens) b = false ->
  let wait := evalM (waitTimeForTokensAt now1 now2 now3 tokens) b in
  let b' := execM (waitTimeForTokensAt now1 now2 now3 tokens) b in
  0 < wait -> now' < now3 + wait ->
  evalM (canProcess now' tokens) b' = false.
Proof.
  intros Hc Hn Hle H2 wait b'. subst wait b'. unfold evalM, execM in *.
  rewrite TokenBucketProofs.canProcess_run in H2. cbn [fst] in H2.
  rewrite (TokenBucketProofs.waitTimeForTokensAt_run _ _ _ _ _ Hle).
  set (h := inWindow now2 b) in *.
  assert (Hch : chronological h) by (apply chronological_filter, Hc).
  assert (Hnh : nonNegative h) by (apply nonNegative_filter, Hn).
  destruct (usage (inWindow now1 b) + tokens <=? maxTokens (config b));
    cbn [fst snd]; [lia|].
  intros Hpos Hnow. apply Z.leb_gt in H2.
  rewrite TokenBucketProofs.canProcess_run. cbn [fst].
  apply Z.leb_gt.
  unfold inWindow.
  cbn [set_waitTimes withHistory set_usageHistory usageHistory config].
  fold h. unfold foundWaitAt in Hnow, Hpos. fold h in Hnow, Hpos.
  destruct (walkUsage _ _ _ _ _) as [w|] eqn:Hw.
  - apply walkUsage_found in Hw; [|lia].
    destruct Hw as (l1 & r & l2 & Hh & -> & Hb).
    rewrite Hh in Hch. apply chronological_split in Hch.
    destruct Hch as [_ Hafter].
    rewrite Hh, List.filter_app. cbn [List.filter].
    replace (now' - windowSize (config b) <? timestamp r) with true
      by (symmetry; apply Z.ltb_lt; lia).
    rewrite (filter_all _ l2).
    2:{ eapply List.Forall_impl; [|exact Hafter]. simpl. intros x Hx.
        apply Z.ltb_lt. lia. }
    rewrite Hh in Hnh. apply List.Forall_app in Hnh.
    destruct Hnh as [Hn1 _].
    pose proof (usage_nonneg _
      (nonNegative_filter
         (fun r0 => now' - windowSize (config b) <? timestamp r0) l1 Hn1))
      as Hge.
    rewrite TokenBucketProofs.usage_app.
    rewrite Hh, TokenBucketProofs.usage_app in H2, Hb.
    cbn [usage] in *. lia.
  - apply walkUsage_missed in Hw; [|lia].
    pose proof (usage_nonneg _
      (nonNegative_filter
         (fun r0 => now' - windowSize (config b) <? timestamp r0) h Hnh))
      as Hge.
    lia.
Qed.

Lemma waitTimeForTokens_least_witness :
  evalM (canProcess 59999 200)
    (execM (waitTimeForTokensAt 1000 1000 1001 200) Samples.sampleBucket)
  = false.
Proof.
  apply (waitTimeForTokens_least 1000 1000 1001 59999 200
           Samples.sampleBucket).
  - repeat constructor.
  - repeat constructor. simpl. lia.
  - lia.
  - reflexivity.
  - reflexivity.
  - vm_compute. reflexivity.
Defined.

(** X5. A request for more tokens than the quota is refused at every
    time, whatever the history without negative records, and
    [waitTimeForTokens] answers it with a full window. *)
Theorem oversized_request_never_admitted (now tokens : Z)
    (b : TokenBucket.t) :
  nonNegative (usageHistory b) ->
  maxTokens (config b) < tokens ->
  evalM (canProcess now tokens) b = false /\
  evalM (waitTimeForTokens now tokens) b = windowSize (config b).
Proof.
  intros Hn Ht.
  pose proof (usage_nonneg _
    (nonNegative_filter
       (fun r => now - windowSize (config b) <? timestamp r) _ Hn)) as Hu.
  fold (inWindow now b) in Hu.
  assert (E : (usage (inWindow now b) + tokens <=? maxTokens (config b))
              = false)
    by (apply Z.leb_gt; lia).
  unfold evalM. rewrite TokenBucketProofs.canProcess_run,
    waitTimeForTokens_run, E. cbn [fst].
  split; [reflexivity|].
  unfold foundWait. rewrite walkUsage_never; [reflexivity | | lia].
  apply nonNegative_filter, Hn.
Qed.

Lemma oversized_request_never_admitted_witness :
  evalM (canProcess 70000 1001) Samples.sampleBucket = false /\
  evalM (waitTimeForTokens 70000 1001) Samples.sampleBucket = 60000.
Proof.
  apply (oversized_request_never_admitted 70000 1001 Samples.sampleBucket).
  - repeat constructor. simpl. lia.
  - simpl. lia.
Defined.

(** X6. While nothing is consumed, a request that is admitted stays
    admitted: [canProcess] at a later time answers true as well. *)
Theorem canProcess_stays_true (now now' tokens : Z) (b : TokenBucket.t) :
  nonNegative (usageHistory b) -> now <= now' ->
  evalM (canProcess now tokens) b = true ->
  evalM (canProcess now' tokens) b = true.
Proof.
  intros Hn Hle. unfold evalM.
  rewrite !TokenBucketProofs.canProcess_run. cbn [fst].
  rewrite !Z.leb_le. intros H.
  assert (Hu : usage (inWindow now' b) <= usage (inWindow now b)).
  { apply usage_filter_le; [exact Hn|].
    intros r _. rewrite !Z.ltb_lt. lia. }
  lia.
Qed.

Lemma canProcess_stays_true_witness :
  evalM (canProcess 5 100) Samples.sampleBucket = true.
Proof.
  apply (canProcess_stays_true 0 5 100 Samples.sampleBucket).
  - repeat constructor. simpl. lia.
  - lia.
  - reflexivity.
Defined.

(** ** Calls that observe *)

Lemma canProcess_history (now tokens : Z) (b b' : TokenBucket.t) :
  config b' = config b ->
  inWindow now b' = inWindow now b ->
  evalM (canProcess now tokens) b' = evalM (canProcess now tokens) b.
Proof.
  intros Hc Hh. unfold evalM.
  rewrite !TokenBucketProofs.canProcess_run. cbn [fst].
  rewrite Hc, Hh. reflexivity.
Qed.

(** A call that observes keeps the configuration and, from its time on,
    the records of every window. *)
Lemma observer_window (now now' : Z) (c : call) (b : TokenBucket.t) :
  observes c = true -> now <= now' ->
  config (perform now c b) = config b /\
  inWindow now' (perform now c b) = inWindow now' b.
Proof.
  intros Hc Hle.
  destruct c; try discriminate Hc; unfold perform, execM; split.
  - rewrite TokenBucketProofs.canProcess_run. reflexivity.
  - rewrite TokenBucketProofs.canProcess_run. apply TokenBucketProofs.inWindow_later, Hle.
  - rewrite getAvailableTokens_run. reflexivity.
  - rewrite getAvailableTokens_run. apply TokenBucketProofs.inWindow_later, Hle.
  - rewrite waitTimeForTokens_run. destruct (_ <=? _); reflexivity.
  - rewrite waitTimeForTokens_run.
    destruct (_ <=? _); cbn [snd]; apply (TokenBucketProofs.inWindow_later now now' b Hle).
  - reflexivity.
  - reflexivity.
  - reflexivity.
  - reflexivity.
  - reflexivity.
  - reflexivity.
  - fold (execM (getMetrics now) b). rewrite getMetrics_exec. reflexivity.
  - fold (execM (getMetrics now) b). rewrite getMetrics_exec.
    apply TokenBucketProofs.inWindow_later, Hle.
Qed.

(** X7. No method but [consumeTokens] and [reset] changes what
    [canProcess] answers afterwards: the purge that a call makes removes
    only records that every later call would remove as well. *)
Theorem observers_do_not_interfere (now now' tokens : Z) (c : call)
    (b : TokenBucket.t) :
  observes c = true -> now <= now' ->
  evalM (canProcess now' tokens) (perform now c b)
  = evalM (canProcess now' tokens) b.
Proof.
  intros Hc Hle.
  destruct (observer_window now now' c b Hc Hle) as [H1 H2].
  apply canProcess_history; assumption.
Qed.

Lemma observers_do_not_interfere_witness :
  evalM (canProcess 61000 200)
    (perform 1000 (WaitTimeForTokens 200) Samples.sampleBucket)
  = evalM (canProcess 61000 200) Samples.sampleBucket.
Proof.
  apply (observers_do_not_interfere 1000 61000 200 (WaitTimeForTokens 200)
           Samples.sampleBucket).
  - reflexivity.
  - lia.
Defined.

(** ** The states that a bucket reaches *)

Lemma consumeTokensAt_run (now1 now2 tokens : Z) (b : TokenBucket.t) :
  consumeTokensAt now1 now2 tokens b
  = (tt, withHistory
           (inWindow now1 b
            ++ [{| timestamp := now2; tokensUsed := tokens |}]) b).
Proof. reflexivity. Qed.

Lemma getMetricsAt_exec (now1 now2 : Z) (b : TokenBucket.t) :
  now1 <= now2 ->
  execM (getMetricsAt now1 now2) b = withHistory (inWindow now2 b) b.
Proof.
  intros Hle. unfold execM, getMetricsAt, bind.
  rewrite TokenBucketProofs.cleanOldUsage_run. unfold get.
  rewrite TokenBucketProofs.getCurrentUsage_run, getAvailableTokens_run.
  cbn [snd]. fold (withHistory (inWindow now1 b) b).
  rewrite (TokenBucketProofs.inWindow_later now1 now2 b Hle).
  destruct b; reflexivity.
Qed.

Lemma sound_later (now now' : Z) (b : TokenBucket.t) :
  sound now b -> now <= now' -> sound now' b.
Proof.
  intros (Hwf & Hrest) Hle. split; [|exact Hrest].
  apply (TokenBucketProofs.wellFormed_later now now' b Hwf Hle).
Qed.

(** A purge, whatever its time, keeps the state sound. *)
Lemma sound_cleaned (now t : Z) (b : TokenBucket.t) :
  sound now b -> sound now (withHistory (inWindow t b) b).
Proof.
  intros ([HW HF] & Hc & Hn & Hq & He & Hw).
  split; [split|split; [|split; [|split; [|split]]]];
    cbn [withHistory set_usageHistory usageHistory config queuedRequests
         errors429Count waitTimes]; try assumption.
  - apply ConservationProofs.Forall_filter, HF.
  - apply chronological_filter, Hc.
  - apply nonNegative_filter, Hn.
Qed.

(** The wait of a refused request lies between 0 and a window when the
    records lie in the past. *)
Lemma foundWaitAt_bounds (now2 now3 tokens : Z) (b : TokenBucket.t) :
  wellFormed now3 b ->
  0 <= foundWaitAt now2 now3 tokens b <= windowSize (config b).
Proof.
  intros [HW HF]. unfold foundWaitAt.
  set (excess := usage (inWindow now2 b) + tokens - maxTokens (config b)).
  assert (H : forall h cum w,
    Forall (fun r => timestamp r <= now3) h ->
    walkUsage now3 (windowSize (config b)) excess cum h = Some w ->
    0 <= w <= windowSize (config b)).
  { induction h as [|r h IH]; intros cum w Hh Hwalk; [discriminate Hwalk|].
    cbn [walkUsage] in Hwalk.
    apply List.Forall_cons_iff in Hh. destruct Hh as [Hr Hh].
    destruct (excess <=? cum + tokensUsed r).
    - injection Hwalk as <-. lia.
    - apply (IH _ _ Hh Hwalk). }
  destruct (walkUsage _ _ _ _ _) as [w|] eqn:Hw; [|lia].
  apply (H _ _ _ (ConservationProofs.Forall_filter _ _ _ HF) Hw).
Qed.

(** One call keeps the state sound as the clock moves on. *)
Lemma sound_performAt (now : Z) (r : readings) (c : call)
    (b : TokenBucket.t) :
  sound now b -> now <= read1 r -> steady r -> consumesTokens (r, c) ->
  sound (read3 r) (performAt r c b).
Proof.
  intros Hs Hle [H12 H23] Hc.
  assert (Hs3 : sound (read3 r) b) by (apply (sound_later now); [exact Hs | lia]).
  destruct c; unfold performAt, execM.
  - rewrite TokenBucketProofs.canProcess_run. apply sound_cleaned, Hs3.
  - rewrite consumeTokensAt_run. cbn [snd].
    pose proof (sound_cleaned now (read1 r) b Hs) as Hcl.
    destruct Hcl as ([HW HF] & Hch & Hn & Hq & He & Hw).
    cbn [withHistory set_usageHistory usageHistory config queuedRequests
         errors429Count waitTimes] in *.
    split; [split|split; [|split; [|split; [|split]]]];
      cbn [withHistory set_usageHistory usageHistory config queuedRequests
           errors429Count waitTimes]; try assumption.
    + apply List.Forall_app. split.
      * eapply List.Forall_impl; [|exact HF]. simpl. intros x Hx. lia.
      * constructor; [simpl; lia | constructor].
    + unfold chronological.
      induction (inWindow (read1 r) b) as [|x h IH]; simpl.
      * constructor; constructor.
      * apply StronglySorted_inv in Hch. destruct Hch as [Hch Hx].
        apply List.Forall_cons_iff in HF. destruct HF as [Hx' HF].
        apply List.Forall_cons_iff in Hn. destruct Hn as [_ Hn].
        constructor; [apply IH; assumption|].
        apply List.Forall_app. split; [exact Hx|].
        constructor; [simpl; lia | constructor].
    + apply List.Forall_app. split; [exact Hn|].
      constructor; [exact Hc | constructor].
  - rewrite getAvailableTokens_run. apply sound_cleaned, Hs3.
  - rewrite (TokenBucketProofs.waitTimeForTokensAt_run _ _ _ _ _ H12).
    destruct (_ <=? _); cbn [snd]; [apply sound_cleaned, Hs3|].
    pose proof (foundWaitAt_bounds (read2 r) (read3 r) tokenCount b
                  (proj1 Hs3)) as Hb.
    destruct (sound_cleaned (read3 r) (read2 r) b Hs3)
      as (Hwf & Hch & Hn & Hq & He & Hw).
    split; [exact Hwf|]. split; [exact Hch|]. split; [exact Hn|].
    split; [exact Hq|]. split; [exact He|].
    cbn [set_waitTimes withHistory set_usageHistory usageHistory config
         waitTimes] in *.
    apply List.Forall_app. split; [exact Hw|].
    constructor; [exact Hb | constructor].
  - destruct Hs3 as (Hwf & Hch & Hn & Hq & He & Hw).
    split; [exact Hwf|]. split; [exact Hch|]. split; [exact Hn|].
    split; [exact Hq|]. split; [simpl; lia | exact Hw].
  - destruct Hs3 as (Hwf & Hch & Hn & Hq & He & Hw).
    split; [exact Hwf|]. split; [exact Hch|]. split; [exact Hn|].
    split; [simpl; lia|]. split; [exact He | exact Hw].
  - destruct Hs3 as (Hwf & Hch & Hn & Hq & He & Hw).
    split; [exact Hwf|]. split; [exact Hch|]. split; [exact Hn|].
    split; [simpl; lia|]. split; [exact He | exact Hw].
  - fold (execM (getMetricsAt (read1 r) (read2 r)) b).
    rewrite (getMetricsAt_exec _ _ _ H12). apply sound_cleaned, Hs3.
  - destruct Hs as ([HW _] & _).
    split; [split; [exact HW | constructor]|].
    split; [constructor|]. split; [constructor|].
    split; [simpl; lia|]. split; [simpl; lia | constructor].
Qed.

Lemma performAt_config (r : readings) (c : call) (b : TokenBucket.t) :
  read1 r <= read2 r -> config (performAt r c b) = config b.
Proof.
  intros H12. destruct c; unfold performAt, execM.
  - rewrite TokenBucketProofs.canProcess_run. reflexivity.
  - reflexivity.
  - rewrite getAvailableTokens_run. reflexivity.
  - rewrite (TokenBucketProofs.waitTimeForTokensAt_run _ _ _ _ _ H12).
    destruct (_ <=? _); reflexivity.
  - reflexivity.
  - reflexivity.
  - reflexivity.
  - fold (execM (getMetricsAt (read1 r) (read2 r)) b).
    rewrite (getMetricsAt_exec _ _ _ H12). reflexivity.
  - reflexivity.
Qed.

Lemma sound_performAll (calls : list (readings * call)) (now t : Z)
    (b : TokenBucket.t) :
  sound now b -> now <= t ->
  clockwise calls ->
  Forall (fun rc => now <= read1 (fst rc)) calls ->
  Forall consumesTokens calls ->
  Forall (fun rc => read3 (fst rc) <= t) calls ->
  config (performAll calls b) = config b /\ sound t (performAll calls b).
Proof.
  revert now b. induction calls as [|[r c] calls IH];
    intros now b Hs Hle [Hsteady Hsorted] Hfirst Hcons Hlast;
    cbn [performAll fold_left].
  - split; [reflexivity|]. apply (sound_later now t b Hs Hle).
  - apply List.Forall_cons_iff in Hsteady. destruct Hsteady as [Hr Hsteady].
    apply StronglySorted_inv in Hsorted. destruct Hsorted as [Hsorted Hnext].
    apply List.Forall_cons_iff in Hfirst. destruct Hfirst as [Hr1 _].
    apply List.Forall_cons_iff in Hcons. destruct Hcons as [Hc Hcons].
    apply List.Forall_cons_iff in Hlast. destruct Hlast as [Hr3 Hlast].
    cbn [fst snd] in *.
    assert (Hs' : sound (read3 r) (performAt r c b))
      by (apply (sound_performAt now r c b Hs Hr1 Hr Hc)).
    destruct (IH (read3 r) (performAt r c b) Hs' Hr3
                (conj Hsteady Hsorted) Hnext Hcons Hlast) as [IHc IHs].
    fold (performAll calls (performAt r c b)).
    split; [|exact IHs].
    rewrite IHc. apply performAt_config. apply Hr.
Qed.

(** X8. Every state that a new bucket with a positive window reaches by
    calls whose clock does not run backwards, during a call or between
    two, and which consume no negative number of tokens is sound: its
    records lie in the past in the order of their times, none is negative,
    its counters are not negative, every wait it has recorded lies between
    0 and a window, and its configuration is the one it was made with. *)
Theorem reachable_states_sound (c : TokenBucketConfig)
    (calls : list (readings * call)) (now : Z) :
  0 < windowSize c ->
  clockwise calls -> Forall consumesTokens calls ->
  Forall (fun rc => read3 (fst rc) <= now) calls ->
  let b := performAll calls (TokenBucket.new c) in
  config b = c /\ sound now b.
Proof.
  intros HW Hclock Hcons Hnow b. subst b.
  assert (Hnew : forall t, sound t (TokenBucket.new c)).
  { intros t. split; [apply TokenBucketProofs.wellFormed_new, HW|].
    split; [constructor|]. split; [constructor|].
    split; [simpl; lia|]. split; [simpl; lia | constructor]. }
  destruct calls as [|[r0 call0] calls].
  - split; [reflexivity | apply Hnew].
  - pose proof Hclock as [Hsteady Hsorted].
    apply List.Forall_cons_iff in Hsteady. destruct Hsteady as [Hr0 Hsteady].
    apply StronglySorted_inv in Hsorted. destruct Hsorted as [_ Hnext].
    pose proof Hnow as Hnow'.
    apply List.Forall_cons_iff in Hnow'. destruct Hnow' as [Hr3 _].
    cbn [fst] in *. destruct Hr0 as [H12 H23].
    apply (sound_performAll ((r0, call0) :: calls) (read1 r0) now
             (TokenBucket.new c) (Hnew _)); try assumption.
    + lia.
    + constructor; [cbn [fst]; lia|].
      eapply List.Forall_impl; [|exact Hnext]. cbn [fst]. intros x Hx. lia.
Qed.

Lemma reachable_states_sound_witness :
  let b :=
    performAll
      [({| read1 := 0; read2 := 0; read3 := 0 |}, ConsumeTokens 900);
       ({| read1 := 59999; read2 := 59999; read3 := 60000 |},
        WaitTimeForTokens 200);
       ({| read1 := 60000; read2 := 60000; read3 := 60000 |},
        IncrementQueuedRequests);
       ({| read1 := 60001; read2 := 60001; read3 := 60001 |},
        CanProcess 200);
       ({| read1 := 60001; read2 := 60002; read3 := 60002 |}, GetMetrics)]
      (TokenBucket.new {| maxTokens := 1000; refillRate := 16;
                          windowSize := 60000 |}) in
  waitTimes b = [0] /\
  config b = {| maxTokens := 1000; refillRate := 16; windowSize := 60000 |} /\
  sound 70000 b.
Proof.
  split; [reflexivity|].
  apply (reachable_states_sound
           {| maxTokens := 1000; refillRate := 16; windowSize := 60000 |}
           [({| read1 := 0; read2 := 0; read3 := 0 |}, ConsumeTokens 900);
            ({| read1 := 59999; read2 := 59999; read3 := 60000 |},
             WaitTimeForTokens 200);
            ({| read1 := 60000; read2 := 60000; read3 := 60000 |},
             IncrementQueuedRequests);
            ({| read1 := 60001; read2 := 60001; read3 := 60001 |},
             CanProcess 200);
            ({| read1 := 60001; read2 := 60002; read3 := 60002 |},
             GetMetrics)] 70000).
  - reflexivity.
  - split.
    + repeat (apply List.Forall_cons; [unfold steady; simpl; lia|]).
      apply List.Forall_nil.
    + repeat (apply SSorted_cons;
              [|repeat (apply List.Forall_cons; [simpl; lia|]);
                apply List.Forall_nil]).
      apply SSorted_nil.
  - repeat (apply List.Forall_cons;
            [unfold consumesTokens; simpl; lia || exact I|]).
    apply List.Forall_nil.
  - repeat (apply List.Forall_cons; [simpl; lia|]). apply List.Forall_nil.
Defined.

(** ** The metrics *)

Lemma getMetricsAt_eval (now1 now2 : Z) (b : TokenBucket.t) :
  now1 <= now2 ->
  evalM (getMetricsAt now1 now2) b
  = {| metricsTokensUsed := usage (inWindow now1 b);
       tokensAvailable :=
         Z.max 0 (maxTokens (config b) - usage (inWindow now2 b));
       requestsQueued := queuedRequests b;
       errorsCount := errors429Count b;
       averageWaitTime :=
         if (0 <? length (waitTimes b))%nat
         then {| total := fold_left (fun sum time => sum + time)
                            (waitTimes b) 0;
                 samples := Z.of_nat (length (waitTimes b)) |}
         else {| total := 0; samples := 1 |} |}.
Proof.
  intros Hle. unfold evalM, getMetricsAt, bind.
  rewrite TokenBucketProofs.cleanOldUsage_run. unfold get.
  rewrite TokenBucketProofs.getCurrentUsage_run, getAvailableTokens_run.
  cbn [fst ret]. fold (withHistory (inWindow now1 b) b).
  rewrite (TokenBucketProofs.inWindow_later now1 now2 b Hle).
  reflexivity.
Qed.

Lemma waits_total (window : Z) (waits : list Z) (acc : Z) :
  Forall (fun w => 0 <= w <= window) waits ->
  acc <= fold_left (fun sum time => sum + time) waits acc
      <= acc + window * Z.of_nat (length waits).
Proof.
  intros H. revert acc.
  induction H as [|w l Hw _ IH]; intros acc; cbn [fold_left length].
  - lia.
  - specialize (IH (acc + w)). lia.
Qed.

(** X12. What [getMetrics] reports in a sound state, the clock read at
    [now1] for [tokensUsed] and at [now2] for [tokensAvailable]: the tokens
    available are those that [getAvailableTokens] answers at [now2], where
    a request for a positive number of tokens is admitted exactly when it
    asks for no more; the tokens used are those of the window at [now1];
    used and available tokens add up to at least the quota, and to the
    quota or the tokens used, whichever is more, when the clock does not
    move between the two readings. The average wait lies between 0 and a
    window. *)
Theorem getMetrics_consistent (now1 now2 t : Z) (b : TokenBucket.t) :
  sound t b -> now1 <= now2 ->
  let metrics := evalM (getMetricsAt now1 now2) b in
  tokensAvailable metrics = evalM (getAvailableTokens now2) b /\
  metricsTokensUsed metrics = usage (inWindow now1 b) /\
  (forall tokens, 0 < tokens ->
     (evalM (canProcess now2 tokens) b = true
      <-> tokens <= tokensAvailable metrics)) /\
  Z.max (maxTokens (config b)) (metricsTokensUsed metrics)
  <= metricsTokensUsed metrics + tokensAvailable metrics /\
  (now2 = now1 ->
   metricsTokensUsed metrics + tokensAvailable metrics
   = Z.max (maxTokens (config b)) (metricsTokensUsed metrics)) /\
  0 < samples (averageWaitTime metrics) /\
  0 <= total (averageWaitTime metrics)
    <= windowSize (config b) * samples (averageWaitTime metrics).
Proof.
  intros ([HW _] & _ & Hn & _ & _ & Hw) Hle metrics. subst metrics.
  rewrite (getMetricsAt_eval _ _ _ Hle).
  cbn [tokensAvailable metricsTokensUsed averageWaitTime].
  unfold evalM. rewrite getAvailableTokens_run. cbn [fst].
  assert (Hu : usage (inWindow now2 b) <= usage (inWindow now1 b)).
  { apply usage_filter_le; [exact Hn|].
    intros r _. rewrite !Z.ltb_lt. lia. }
  split; [reflexivity|]. split; [reflexivity|].
  split; [|split; [lia|split; [intros ->; lia|]]].
  - intros tokens Hpos. rewrite TokenBucketProofs.canProcess_run. cbn [fst].
    rewrite Z.leb_le. lia.
  - pose proof (waits_total (windowSize (config b)) (waitTimes b) 0 Hw) as Ht.
    destruct (waitTimes b) as [|w l]; cbn [length Nat.ltb Nat.leb].
    + cbn [total samples]. lia.
    + cbn [total samples length] in *. lia.
Qed.

Lemma getMetrics_consistent_witness :
  let metrics := evalM (getMetricsAt 59999 60001) Samples.sampleBucket in
  metricsTokensUsed metrics = 900 /\
  tokensAvailable metrics = 1000 /\
  Z.max (maxTokens (config Samples.sampleBucket)) (metricsTokensUsed metrics)
  <= metricsTokensUsed metrics + tokensAvailable metrics.
Proof.
  intros metrics. split; [reflexivity|]. split; [reflexivity|].
  apply (getMetrics_consistent 59999 60001 0 Samples.sampleBucket).
  - split; [split; [reflexivity | repeat constructor; simpl; lia]|].
    split; [repeat constructor|].
    split; [repeat constructor; simpl; lia|].
    split; [simpl; lia|]. split; [simpl; lia|]. constructor.
  - lia.
Defined.

End TokenBucketLaws.
(** * Laws of the rate limiter manager *)

Module RateLimiterManagerLaws.

Import RateLimiterManager ManagerSpec.

Lemma onBucket_other {A} (model other : string) (bucket : TokenBucket.t)
    (m : M TokenBucket.t A) (buckets : gmap string TokenBucket.t) :
  model <> other ->
  (snd (onBucket model bucket m buckets) : gmap string TokenBucket.t) !! other
  = buckets !! other.
Proof.
  intros Hne. unfold onBucket. destruct (m bucket) as [a bucket'].
  cbn [snd]. apply lookup_insert_ne, Hne.
Qed.

Lemma onBucket_same {A} (model : string) (bucket : TokenBucket.t)
    (m : M TokenBucket.t A) (buckets : gmap string TokenBucket.t) :
  onBucket model bucket m buckets
  = (fst (m bucket), <[ model := snd (m bucket) ]> buckets).
Proof. unfold onBucket. destruct (m bucket); reflexivity. Qed.

(** X9. A call made for one model leaves the bucket of every other model
    as it is, so that what the manager answers for a model never depends
    on the calls made for the others. *)
Theorem buckets_are_isolated (now tokens : Z) (model other : string)
    (c : TokenBucket.TokenBucketConfig) (buckets : RateLimiterManager.t) :
  model <> other ->
  untouched other (canProcess now tokens model) buckets /\
  untouched other (consumeTokens now tokens model) buckets /\
  untouched other (getAvailableTokens now model) buckets /\
  untouched other (waitTimeForTokens now tokens model) buckets /\
  untouched other (recordRateLimitError model) buckets /\
  untouched other (incrementQueuedRequests model) buckets /\
  untouched other (decrementQueuedRequests model) buckets /\
  untouched other (getMetrics now model) buckets /\
  untouched other (configureBucket model c) buckets.
Proof.
  intros Hne.
  unfold untouched, execM, canProcess, consumeTokens, getAvailableTokens,
    waitTimeForTokens, recordRateLimitError, incrementQueuedRequests,
    decrementQueuedRequests, getMetrics, configureBucket, bind, get, ret,
    modify, RateLimiterManager.t in *.
  repeat split;
    try (destruct (buckets !! model) as [bucket|]; [|reflexivity]);
    try (apply onBucket_other, Hne).
  - rewrite onBucket_same. cbn [fst snd]. apply lookup_insert_ne, Hne.
  - rewrite onBucket_same. cbn [fst snd]. apply lookup_insert_ne, Hne.
  - cbn [snd]. apply lookup_insert_ne, Hne.
Qed.

Lemma buckets_are_isolated_witness :
  untouched "gpt-4o" (consumeTokens 0 25000 "gpt-5") RateLimiterManager.new.
Proof.
  apply (buckets_are_isolated 0 25000 "gpt-5" "gpt-4o"
           {| TokenBucket.maxTokens := 0; TokenBucket.refillRate := 0;
              TokenBucket.windowSize := 0 |} RateLimiterManager.new).
  discriminate.
Defined.

(** The answers of the manager for a model whose bucket is new. *)
Lemma fresh_bucket (now tokens : Z) (model : string)
    (c : TokenBucket.TokenBucketConfig)
    (buckets : gmap string TokenBucket.t) :
  buckets !! model = Some (TokenBucket.new c) ->
  freshAnswers now tokens model c buckets.
Proof.
  intros H.
  unfold freshAnswers, evalM, canProcess, getAvailableTokens,
    waitTimeForTokens, bind, get, ret, RateLimiterManager.t.
  rewrite H, !onBucket_same. cbn [fst].
  rewrite TokenBucketProofs.canProcess_run,
    TokenBucketLaws.getAvailableTokens_run,
    TokenBucketLaws.waitTimeForTokens_run.
  unfold LimiterHistory.foundWait.
  change (LimiterSpec.inWindow now (TokenBucket.new c)) with (@nil TokenBucket.UsageRecord).
  cbn [LimiterSpec.usage TokenBucket.walkUsage TokenBucket.config
       TokenBucket.new fst].
  rewrite Z.add_0_l, Z.sub_0_r.
  repeat split.
  destruct (tokens <=? TokenBucket.maxTokens c); reflexivity.
Qed.

(** X10. [configureBucket] gives the model a new bucket: whatever was
    consumed before, a request is admitted exactly when it is within the
    new quota, all of the quota is available, and a request beyond it is
    told to wait a full window. *)
Theorem configureBucket_forgets_usage (now tokens : Z) (model : string)
    (c : TokenBucket.TokenBucketConfig) (buckets : RateLimiterManager.t) :
  freshAnswers now tokens model c (execM (configureBucket model c) buckets).
Proof.
  apply fresh_bucket. unfold execM, configureBucket, modify. cbn [snd].
  apply lookup_insert_eq.
Qed.

(** X11. [resetAllMetrics] keeps the models and their configurations, and
    leaves every bucket as new: what was consumed and counted before is
    forgotten. *)
Theorem resetAllMetrics_forgets_usage (now tokens : Z) (model : string)
    (bucket : TokenBucket.t) (buckets : RateLimiterManager.t) :
  (buckets : gmap string TokenBucket.t) !! model = Some bucket ->
  let buckets' := execM resetAllMetrics buckets in
  dom (buckets' : gmap string TokenBucket.t)
  = dom (buckets : gmap string TokenBucket.t) /\
  (buckets' : gmap string TokenBucket.t) !! model
  = Some (TokenBucket.new (TokenBucket.config bucket)) /\
  freshAnswers now tokens model (TokenBucket.config bucket) buckets'.
Proof.
  unfold execM, resetAllMetrics, modify, RateLimiterManager.t. cbn [snd].
  intros H.
  assert (E : (execM TokenBucket.reset <$> buckets) !! model
              = Some (TokenBucket.new (TokenBucket.config bucket))).
  { rewrite lookup_fmap, H. reflexivity. }
  split; [apply dom_fmap_L|].
  split; [exact E | apply fresh_bucket, E].
Qed.

Lemma resetAllMetrics_forgets_usage_witness :
  let used := execM (consumeTokens 0 25000 "gpt-5") RateLimiterManager.new in
  let buckets' := execM resetAllMetrics used in
  dom (buckets' : gmap string TokenBucket.t)
  = dom (used : gmap string TokenBucket.t) /\
  (buckets' : gmap string TokenBucket.t) !! "gpt-5"%string
  = Some (TokenBucket.new
            {| TokenBucket.maxTokens := 30000; TokenBucket.refillRate := 500;
               TokenBucket.windowSize := 60000 |}) /\
  freshAnswers 10 6000 "gpt-5"
    {| TokenBucket.maxTokens := 30000; TokenBucket.refillRate := 500;
       TokenBucket.windowSize := 60000 |} buckets'.
Proof.
  apply (resetAllMetrics_forgets_usage 10 6000 "gpt-5"
           (execM (TokenBucket.consumeTokens 0 25000)
              (TokenBucket.new
                 {| TokenBucket.maxTokens := 30000;
                    TokenBucket.refillRate := 500;
                    TokenBucket.windowSize := 60000 |}))
           (execM (consumeTokens 0 25000 "gpt-5") RateLimiterManager.new)).
  reflexivity.
Defined.

(** [getAllMetrics] reports for each model what [getMetrics] reports for
    it and leaves its bucket in the same state; a model without a bucket
    has no entry, as [getMetrics] answers [null] for it. *)
Lemma getAllMetrics_agrees (now : Z) (model : string)
    (buckets : RateLimiterManager.t) :
  (evalM (getAllMetrics now) buckets
     : gmap string TokenBucket.RateLimitMetrics) !! model
  = evalM (getMetrics now model) buckets /\
  (execM (getAllMetrics now) buckets : gmap string TokenBucket.t) !! model
  = (execM (getMetrics now model) buckets : gmap string TokenBucket.t)
      !! model.
Proof.
  unfold evalM, execM, getAllMetrics, getMetrics, bind, get, ret,
    RateLimiterManager.t in *.
  cbn [fst snd]. rewrite !lookup_fmap.
  destruct (buckets !! model) as [bucket|] eqn:E;
    cbn [fmap option_fmap option_map].
  - rewrite onBucket_same. cbn [fst snd].
    rewrite lookup_insert_eq. split; reflexivity.
  - cbn [fst snd]. rewrite E. split; reflexivity.
Qed.

End RateLimiterManagerLaws.
(** * Laws of the content chunker *)

Module ChunkerLaws.

Import Dom ContentChunker.

(** ** Lengths and estimates *)

Lemma len_nonneg (s : string) : 0 <= Str.len s.
Proof. unfold Str.len. lia. Qed.

Lemma length_trimStart (s : string) :
  (String.length (Str.trimStart s) <= String.length s)%nat.
Proof.
  induction s as [|c s IH]; simpl; [lia|].
  destruct (Str.isSpace c); simpl; lia.
Qed.

Lemma length_trimEnd (s : string) :
  (String.length (Str.trimEnd s) <= String.length s)%nat.
Proof.
  induction s as [|c s IH]; simpl; [lia|].
  destruct (Str.trimEnd s) as [|d r]; simpl in *.
  - destruct (Str.isSpace c); simpl; lia.
  - lia.
Qed.

Lemma len_trim (s : string) : Str.len (Str.trim s) <= Str.len s.
Proof.
  unfold Str.len, Str.trim.
  pose proof (length_trimEnd (Str.trimStart s)).
  pose proof (length_trimStart s). lia.
Qed.

(** [Math.ceil(a / b)] is the least integer [q] with [a <= b * q]. *)
Lemma ceilDiv_spec (a b : Z) :
  0 < b -> b * (Str.ceilDiv a b - 1) < a <= b * Str.ceilDiv a b.
Proof.
  intros Hb. unfold Str.ceilDiv.
  pose proof (Z.mul_div_le (- a) b Hb).
  pose proof (Z.mul_succ_div_gt (- a) b Hb). nia.
Qed.

Lemma ceilDiv_lower (a b q : Z) :
  0 < b -> b * (q - 1) < a -> q <= Str.ceilDiv a b.
Proof.
  intros Hb Ha. pose proof (ceilDiv_spec a b Hb). nia.
Qed.

Lemma estimateImageTokens_nonneg (src context : string) :
  0 <= estimateImageTokens src context.
Proof.
  unfold estimateImageTokens.
  pose proof (len_nonneg src). pose proof (len_nonneg context).
  destruct (Str.startsWith src "data:image/");
    apply ceilDiv_lower; lia.
Qed.

Lemma sumBy_nonneg {A} (f : A -> Z) (l : list A) :
  Forall (fun x => 0 <= f x) l -> 0 <= JsArray.sumBy f l.
Proof.
  induction 1 as [|x l Hx _ IH].
  - unfold JsArray.sumBy. simpl. lia.
  - rewrite JsArrayProofs.sumBy_cons. lia.
Qed.

Lemma length_substring (n : nat) (s : string) :
  (String.length (String.substring 0 n s) <= n)%nat.
Proof.
  revert s. induction n as [|n IH]; intros [|c s]; simpl; try lia.
  specialize (IH s). lia.
Qed.

(** ** The images of an analysis *)

(** What holds of every record that [analyzeImages] makes. *)
Lemma analyzeImage_record (img : handle) (r : ImageInfo) :
  In r (analyzeImage img) ->
  src r <> EmptyString /\ Str.len (context r) <= 200 /\ 0 <= imageTokens r.
Proof.
  unfold analyzeImage.
  destruct (Str.isEmpty (attrOrEmpty (self img) "src")) eqn:E;
    [intros []|].
  intros [<-|[]]. cbn [src context imageTokens]. split; [|split].
  - intros H. rewrite H in E. discriminate E.
  - unfold Str.len.
    pose proof (length_substring 200
      match closest img contextSelector with
      | Some el => innerHTML (self el)
      | None => EmptyString
      end). lia.
  - apply estimateImageTokens_nonneg.
Qed.

Lemma detectedImages_record (doc : document) (r : ImageInfo) :
  In r (detectedImages doc) ->
  src r <> EmptyString /\ Str.len (context r) <= 200 /\ 0 <= imageTokens r.
Proof.
  unfold detectedImages. rewrite in_flat_map.
  intros (img & _ & H). eapply analyzeImage_record, H.
Qed.

(** The four lists of the analysis hold the detected images, each in the
    list of its importance. *)
Lemma knownImages_perm (doc : document) :
  Permutation (knownImages (analyzeImages doc)) (detectedImages doc).
Proof.
  unfold knownImages, analyzeImages.
  cbn [criticalImages productImages heroImages decorativeImages].
  induction (detectedImages doc) as [|r l IH]; [reflexivity|].
  cbn [List.filter].
  assert (E : forall i, hasImportance i r = Importance_eqb (importance r) i)
    by reflexivity.
  rewrite !E. destruct (importance r); cbn [Importance_eqb app].
  - apply perm_skip, IH.
  - rewrite <- Permutation_middle. apply perm_skip, IH.
  - rewrite app_assoc, <- Permutation_middle, <- app_assoc.
    apply perm_skip, IH.
  - rewrite !app_assoc, <- Permutation_middle, <- !app_assoc.
    apply perm_skip, IH.
Qed.

Lemma knownImages_record (doc : document) (r : ImageInfo) :
  In r (knownImages (analyzeImages doc)) ->
  src r <> EmptyString /\ Str.len (context r) <= 200 /\ 0 <= imageTokens r.
Proof.
  intros H. apply detectedImages_record with (doc := doc).
  eapply Permutation_in; [apply knownImages_perm | exact H].
Qed.

(** X13. [analyzeImages] puts every image it detects into exactly one of
    its four lists, the one of its importance; [count] is the number of
    these images and [totalEstimatedTokens] the sum of their estimates;
    every record has a source that is not empty, a context of at most 200
    characters and an estimate that is not negative. *)
Theorem analyzeImages_partition (doc : document) :
  let analysis := analyzeImages doc in
  Permutation (knownImages analysis) (detectedImages doc) /\
  count analysis = Z.of_nat (length (knownImages analysis)) /\
  totalEstimatedTokens analysis
  = JsArray.sumBy imageTokens (knownImages analysis) /\
  Forall (fun r => importance r = ImpCritical) (criticalImages analysis) /\
  Forall (fun r => importance r = ImpProduct) (productImages analysis) /\
  Forall (fun r => importance r = ImpHero) (heroImages analysis) /\
  Forall (fun r => importance r = ImpDecorative)
    (decorativeImages analysis) /\
  Forall (fun r => src r <> EmptyString /\ Str.len (context r) <= 200 /\
                   0 <= imageTokens r) (knownImages analysis).
Proof.
  intros analysis. pose proof (knownImages_perm doc) as Hp.
  fold analysis in Hp.
  assert (Hi : forall i,
    Forall (fun r => importance r = i)
      (List.filter (hasImportance i) (detectedImages doc))).
  { intros i. rewrite List.Forall_forall. intros r Hr.
    apply List.filter_In in Hr. destruct Hr as [_ Hr].
    unfold hasImportance in Hr.
    destruct (importance r), i; (reflexivity || discriminate Hr). }
  split; [exact Hp|]. split; [|split; [|split; [|split; [|split; [|split]]]]].
  - rewrite (Permutation_length Hp). reflexivity.
  - rewrite (JsArrayProofs.sumBy_perm imageTokens _ _ Hp). reflexivity.
  - apply Hi.
  - apply Hi.
  - apply Hi.
  - apply Hi.
  - rewrite List.Forall_forall. intros r Hr.
    apply (knownImages_record doc r Hr).
Qed.

(** ** The sections that are extracted *)

Lemma extractSections_long (cssGiven : bool) (sel : selector) (n : node) :
  forall detached anc,
    Forall (fun s => 50 <= Str.len (outerHTML s))
      (fst (extractSections cssGiven sel detached anc n)).
Proof.
  induction n as [data|data|name attribs kids IH] using DomProofs.node_induction;
    intros detached anc; [constructor | constructor |].
  assert (Hkids : forall flag anc',
    Forall (fun s => 50 <= Str.len (outerHTML s))
      (fst (extractSectionsList cssGiven sel flag anc' kids))).
  { intros flag anc'.
    induction IH as [|k kids Hk _ IHkids]; [constructor|].
    rewrite ConservationProofs.extractSectionsList_cons.
    specialize (Hk flag anc').
    destruct (extractSections cssGiven sel flag anc' k) as [s1 k'].
    destruct (extractSectionsList cssGiven sel flag anc' kids) as [s2 l'].
    cbn [fst] in *. apply List.Forall_app. split; assumption. }
  rewrite ConservationProofs.extractSections_unfold. cbn zeta.
  destruct (matchesSelector sel _ anc).
  - destruct (Str.len _ <? 50) eqn:E.
    + specialize (Hkids detached (Element name attribs kids :: anc)).
      destruct (extractSectionsList _ _ _ _ _) as [ss kids']. exact Hkids.
    + specialize (Hkids (detached || cssGiven)
                    (Element name attribs kids :: anc)).
      destruct (extractSectionsList _ _ _ _ _) as [ss kids'].
      cbn [fst] in *. constructor; [apply Z.ltb_ge, E | exact Hkids].
  - specialize (Hkids detached (Element name attribs kids :: anc)).
    destruct (extractSectionsList _ _ _ _ _) as [ss kids']. exact Hkids.
Qed.

Lemma extractSectionsList_long (cssGiven : bool) (sel : selector)
    (detached : bool) (anc : list node) (l : list node) :
  Forall (fun s => 50 <= Str.len (outerHTML s))
    (fst (extractSectionsList cssGiven sel detached anc l)).
Proof.
  induction l as [|k l IH]; [constructor|].
  rewrite ConservationProofs.extractSectionsList_cons.
  pose proof (extractSections_long cssGiven sel k detached anc) as Hk.
  destruct (extractSections cssGiven sel detached anc k) as [s1 k'].
  destruct (extractSectionsList cssGiven sel detached anc l) as [s2 l'].
  cbn [fst] in *. apply List.Forall_app. split; assumption.
Qed.

(** ** What holds of every chunk that is made *)

Section Produced.

Variables (css javascript : string) (analysis : ImageAnalysis).
Variable P : ContentChunk -> Prop.

Hypothesis section_chunk :
  forall ty k section,
    In ty sectionTypes -> 50 <= Str.len (outerHTML section) ->
    P (sectionChunk css javascript analysis ty k section).

Hypothesis mixed_chunk :
  forall st m, In m (mixedChunk css javascript analysis st) -> P m.

Lemma numberChunks_Forall (ty : SectionType) (sections : list node) :
  In ty sectionTypes ->
  Forall (fun s => 50 <= Str.len (outerHTML s)) sections ->
  forall k,
    Forall P (numberChunks (sectionChunk css javascript analysis ty) k
                sections).
Proof.
  intros Hty. induction 1 as [|s l Hs _ IH]; intros k; simpl; constructor.
  - apply section_chunk; assumption.
  - apply IH.
Qed.

Lemma extractType_Forall (st : ChunkerState) (ty : SectionType) :
  In ty sectionTypes -> Forall P (made st) ->
  Forall P (made (extractType css javascript analysis st ty)).
Proof.
  intros Hty Hst. unfold extractType.
  pose proof (extractSectionsList_long (negb (Str.isEmpty css))
                (SECTION_SELECTORS ty) false [] (dom st)) as Hlong.
  destruct (extractSectionsList _ _ _ _ _) as [sections rest].
  cbn [made fst] in *. apply List.Forall_app. split; [exact Hst|].
  apply numberChunks_Forall; assumption.
Qed.

Lemma extractAllTypes_Forall (doc : document) :
  Forall P (made (extractAllTypes css javascript analysis doc)).
Proof.
  unfold extractAllTypes.
  assert (H : forall types st,
    Forall (fun ty => In ty sectionTypes) types -> Forall P (made st) ->
    Forall P (made (fold_left (extractType css javascript analysis) types st))).
  { induction types as [|ty types IH]; intros st Ht Hst; simpl; [exact Hst|].
    apply List.Forall_cons_iff in Ht. destruct Ht as [Hty Ht].
    apply IH; [exact Ht|]. apply extractType_Forall; assumption. }
  apply H; [|constructor].
  rewrite List.Forall_forall. intros ty Hty. exact Hty.
Qed.

End Produced.

(** A property of the chunks of a section and of the chunk of type mixed
    holds of every chunk that [chunkContent] returns. *)
Lemma chunkContent_Forall (doc : document) (css javascript : string)
    (P : ContentChunk -> Prop) :
  (forall ty k section,
     In ty sectionTypes -> 50 <= Str.len (outerHTML section) ->
     P (sectionChunk css javascript (analyzeImages doc) ty k section)) ->
  (forall st m,
     In m (mixedChunk css javascript (analyzeImages doc) st) -> P m) ->
  Forall P (chunks (chunkContent doc css javascript)).
Proof.
  intros Hs Hm. unfold chunkContent. cbn [chunks].
  rewrite List.Forall_forall. intros c Hc.
  apply JsArrayProofs.sort_In in Hc. unfold unsortedChunks in Hc.
  apply in_app_or in Hc. destruct Hc as [Hc|Hc].
  - pose proof (extractAllTypes_Forall css javascript (analyzeImages doc) P
                  Hs doc) as H.
    rewrite List.Forall_forall in H. apply H, Hc.
  - eapply Hm, Hc.
Qed.

(** ** The images of a chunk *)

Lemma lookupImage_known (analysis : ImageAnalysis) (img : node)
    (r : ImageInfo) :
  In r (lookupImage analysis img) -> In r (knownImages analysis).
Proof.
  unfold lookupImage. destruct (Str.isEmpty _); [intros []|].
  destruct (List.find _ _) as [x|] eqn:E; [|intros []].
  intros [<-|[]]. apply find_some in E. apply E.
Qed.

Lemma sectionImagesOf_known (analysis : ImageAnalysis) (section : node)
    (r : ImageInfo) :
  In r (sectionImagesOf analysis section) -> In r (knownImages analysis).
Proof.
  unfold sectionImagesOf. rewrite in_flat_map.
  intros (img & _ & H). eapply lookupImage_known, H.
Qed.

Lemma mixedChunk_cases (css javascript : string) (analysis : ImageAnalysis)
    (st : ChunkerState) (m : ContentChunk) :
  In m (mixedChunk css javascript analysis st) ->
  100 < Str.len (Str.trim (renderAll (bodyContent (dom st)))) /\
  type m = TyMixed /\ priority m = PrioLow /\ preserveOrder m = false /\
  id m = chunkName (chunkId st) /\
  images m
  = List.filter
      (fun img => Str.includes (renderAll (bodyContent (dom st))) (src img))
      (decorativeImages analysis) /\
  estimatedTokens m
  = Str.ceilDiv (Str.len (renderAll (bodyContent (dom st)))) 4
    + JsArray.sumBy imageTokens (images m).
Proof.
  unfold mixedChunk.
  destruct (100 <? Str.len _) eqn:E; [|intros []].
  intros [<-|[]]. apply Z.ltb_lt in E. repeat split. exact E.
Qed.

Lemma decorativeImages_known (doc : document) (r : ImageInfo) :
  In r (decorativeImages (analyzeImages doc)) ->
  In r (knownImages (analyzeImages doc)) /\ importance r = ImpDecorative.
Proof.
  intros H. split.
  - unfold knownImages. rewrite !in_app_iff. right. right. right. exact H.
  - unfold analyzeImages in H. cbn [decorativeImages] in H.
    apply List.filter_In in H. destruct H as [_ H].
    unfold hasImportance in H.
    destruct (importance r); (reflexivity || discriminate H).
Qed.

(** X14. In every chunk that [chunkContent] returns the markup counts for
    at least 13 tokens and the estimates of the images are not negative:
    [estimatedTokens] is positive, and the share of the image tokens in it,
    which the router computes, lies between 0 and 1. *)
Theorem chunk_tokens_bounds (doc : document) (css javascript : string) :
  Forall (fun chunk =>
            0 <= JsArray.sumBy imageTokens (images chunk) /\
            13 + JsArray.sumBy imageTokens (images chunk)
            <= estimatedTokens chunk)
    (chunks (chunkContent doc css javascript)).
Proof.
  apply chunkContent_Forall.
  - intros ty k section _ Hlen.
    cbn [sectionChunk images estimatedTokens].
    assert (Hi : 0 <= JsArray.sumBy imageTokens
                        (sectionImagesOf (analyzeImages doc) section)).
    { apply sumBy_nonneg. rewrite List.Forall_forall. intros r Hr.
      apply sectionImagesOf_known, knownImages_record in Hr. apply Hr. }
    split; [exact Hi|].
    assert (13 <= Str.ceilDiv (Str.len (outerHTML section)) 4)
      by (apply ceilDiv_lower; lia).
    lia.
  - intros st m Hm.
    apply mixedChunk_cases in Hm.
    destruct Hm as (Hlen & _ & _ & _ & _ & Hi & Ht).
    assert (H0 : 0 <= JsArray.sumBy imageTokens (images m)).
    { apply sumBy_nonneg. rewrite Hi, List.Forall_forall. intros r Hr.
      apply List.filter_In in Hr. destruct Hr as [Hr _].
      apply decorativeImages_known in Hr. destruct Hr as [Hr _].
      apply knownImages_record in Hr. apply Hr. }
    split; [exact H0|]. rewrite Ht.
    pose proof (len_trim (renderAll (bodyContent (dom st)))).
    assert (13 <= Str.ceilDiv (Str.len (renderAll (bodyContent (dom st)))) 4)
      by (apply ceilDiv_lower; lia).
    lia.
Qed.

(** X15. In every chunk that [chunkContent] returns the priority is
    critical exactly when the chunk holds an image of importance critical
    or product, which is exactly when [RoutingUtils.requiresGPT5] is
    true. *)
Theorem critical_priority_iff_critical_image (doc : document)
    (css javascript : string) :
  Forall (fun chunk =>
            (priority chunk = PrioCritical
             <-> existsb isCriticalOrProduct (images chunk) = true) /\
            RoutingUtils.requiresGPT5 chunk
            = existsb isCriticalOrProduct (images chunk))
    (chunks (chunkContent doc css javascript)).
Proof.
  apply chunkContent_Forall.
  - intros ty k section _ _. unfold RoutingUtils.requiresGPT5.
    cbn [sectionChunk images priority]. unfold sectionPriority.
    destruct (existsb isCriticalOrProduct _); [split; [tauto | reflexivity]|].
    destruct (existsb (hasImportance ImpHero) _ || SectionType_eqb ty TyHero);
      [split; [split; discriminate | reflexivity]|].
    destruct (SectionType_eqb ty TyFooter || SectionType_eqb ty TyNav);
      split; (split; discriminate) || reflexivity.
  - intros st m Hm. apply mixedChunk_cases in Hm.
    destruct Hm as (_ & _ & Hp & _ & _ & Hi & _).
    assert (E : existsb isCriticalOrProduct (images m) = false).
    { rewrite Hi. apply not_true_is_false. intros H.
      apply existsb_exists in H. destruct H as (r & Hr & Hc).
      apply List.filter_In in Hr. destruct Hr as [Hr _].
      apply decorativeImages_known in Hr. destruct Hr as [_ Hr].
      unfold isCriticalOrProduct, hasImportance in Hc. rewrite Hr in Hc.
      discriminate Hc. }
    unfold RoutingUtils.requiresGPT5. rewrite E, Hp.
    split; [split; discriminate | reflexivity].
Qed.

(** ** The total and the names *)

(** X16. [chunkContent] returns the chunks it has made, each once, and
    [totalEstimatedTokens] is the sum of their estimates. *)
Theorem totalEstimatedTokens_is_sum (doc : document)
    (css javascript : string) :
  let result := chunkContent doc css javascript in
  Permutation (chunks result) (unsortedChunks doc css javascript) /\
  totalTokens result = JsArray.sumBy estimatedTokens (chunks result).
Proof.
  cbn zeta. unfold chunkContent. cbn [chunks totalTokens].
  pose proof (JsArrayProofs.sort_perm compareChunks
                (unsortedChunks doc css javascript)) as Hp.
  split; [exact Hp|].
  symmetry. apply JsArrayProofs.sumBy_perm, Hp.
Qed.

Lemma to_uint_not_nil (n : nat) : Nat.to_uint n <> Decimal.Nil.
Proof.
  intros H. pose proof (DecimalNat.Unsigned.of_to n) as E.
  rewrite H in E. simpl in E. subst n. discriminate H.
Qed.

Lemma chunkName_inj (a b : nat) : chunkName a = chunkName b -> a = b.
Proof.
  unfold chunkName. intros H.
  assert (E : NilZero.string_of_uint (Nat.to_uint a)
              = NilZero.string_of_uint (Nat.to_uint b)).
  { rewrite !OptimizerProofs.append_cons in H.
    injection H as H. exact H. }
  apply (f_equal NilZero.uint_of_string) in E.
  rewrite !NilZero.usu in E by apply to_uint_not_nil.
  injection E as E. apply DecimalNat.Unsigned.to_uint_inj, E.
Qed.

Lemma numberChunks_id (mk : nat -> node -> ContentChunk) (k : nat)
    (sections : list node) :
  (forall j s, id (mk j s) = chunkName j) ->
  map id (numberChunks mk k sections)
  = map chunkName (seq k (length sections)).
Proof.
  intros Hmk. revert k.
  induction sections as [|s l IH]; intros k; simpl; [reflexivity|].
  rewrite Hmk, IH. reflexivity.
Qed.

Lemma extractAllTypes_id (css javascript : string) (analysis : ImageAnalysis)
    (doc : document) :
  let st := extractAllTypes css javascript analysis doc in
  map id (made st) = map chunkName (seq 1 (length (made st))) /\
  chunkId st = S (length (made st)).
Proof.
  unfold extractAllTypes.
  assert (H : forall types st,
    map id (made st) = map chunkName (seq 1 (length (made st))) /\
    chunkId st = S (length (made st)) ->
    let st' := fold_left (extractType css javascript analysis) types st in
    map id (made st') = map chunkName (seq 1 (length (made st'))) /\
    chunkId st' = S (length (made st'))).
  { induction types as [|ty types IH]; intros st Hst; simpl; [exact Hst|].
    apply IH. destruct Hst as [H1 H2]. unfold extractType.
    destruct (extractSectionsList _ _ _ _ _) as [sections rest].
    cbn [made chunkId].
    assert (Hn : length (numberChunks
                           (sectionChunk css javascript analysis ty)
                           (chunkId st) sections) = length sections).
    { generalize (chunkId st).
      induction sections as [|s l IHl]; intros k; simpl;
        [|rewrite IHl]; reflexivity. }
    rewrite map_app, length_app, Hn, seq_app, map_app, H1.
    rewrite numberChunks_id by reflexivity.
    rewrite H2. split; [reflexivity | lia]. }
  apply H. split; reflexivity.
Qed.

(** X17. The chunks that [chunkContent] returns are named chunk-1 to
    chunk-n, each name once: no two chunks have the same [id]. *)
Theorem chunk_ids_distinct (doc : document) (css javascript : string) :
  let result := chunkContent doc css javascript in
  Permutation (map id (chunks result))
    (map chunkName (seq 1 (length (chunks result)))) /\
  List.NoDup (map id (chunks result)).
Proof.
  cbn zeta.
  assert (Hu : map id (unsortedChunks doc css javascript)
               = map chunkName
                   (seq 1 (length (unsortedChunks doc css javascript)))).
  { unfold unsortedChunks.
    destruct (extractAllTypes_id css javascript (analyzeImages doc) doc)
      as [H1 H2].
    set (st := extractAllTypes css javascript (analyzeImages doc) doc) in *.
    rewrite map_app, length_app, seq_app, map_app, H1. f_equal.
    unfold mixedChunk. destruct (100 <? _); [|reflexivity].
    cbn [map id length seq]. rewrite H2. reflexivity. }
  pose proof (JsArrayProofs.sort_perm compareChunks
                (unsortedChunks doc css javascript)) as Hp.
  unfold chunkContent. cbn [chunks].
  assert (Hids : Permutation
            (map id (sortChunksByPriority (unsortedChunks doc css javascript)))
            (map chunkName
               (seq 1 (length (sortChunksByPriority
                                 (unsortedChunks doc css javascript)))))).
  { unfold sortChunksByPriority.
    rewrite (Permutation_length Hp), <- Hu. apply Permutation_map, Hp. }
  split; [exact Hids|].
  eapply Permutation_NoDup; [symmetry; exact Hids|].
  generalize (seq_NoDup
                (length (sortChunksByPriority
                           (unsortedChunks doc css javascript))) 1).
  generalize (seq 1 (length (sortChunksByPriority
                               (unsortedChunks doc css javascript)))).
  induction 1 as [|k l Hk _ IH]; simpl; constructor; [|exact IH].
  intros Hin. apply in_map_iff in Hin. destruct Hin as (j & Hj & Hin).
  apply chunkName_inj in Hj. subst j. exact (Hk Hin).
Qed.

(** ** Splitting *)

Lemma splitAlong_Forall (P : ContentChunk -> Prop) (chunk : ContentChunk)
    (maxTokensPerChunk : Z) (subSections : list node) :
  (forall k subSection tokens imgs,
     tokens <= maxTokensPerChunk ->
     tokens = estimateTokens (outerHTML subSection) ->
     imgs = List.filter
              (fun img => Str.includes (outerHTML subSection) (src img))
              (images chunk) ->
     P {| id := id chunk +:+ "-sub-" +:+
                NilZero.string_of_uint (Nat.to_uint k);
          type := type chunk;
          html := [subSection];
          css := css chunk;
          javascript := javascript chunk;
          images := imgs;
          estimatedTokens := tokens;
          priority := priority chunk;
          preserveOrder := preserveOrder chunk |}) ->
  forall k, Forall P (splitAlong chunk maxTokensPerChunk k subSections).
Proof.
  intros HP. induction subSections as [|s l IH]; intros k; simpl;
    [constructor|].
  destruct (estimateTokens (outerHTML s) <=? maxTokensPerChunk) eqn:E.
  - constructor; [|apply IH].
    apply HP; [apply Z.leb_le, E | reflexivity | reflexivity].
  - apply IH.
Qed.

(** X18. Every chunk that [splitOversizedChunks] returns is a chunk of
    the input, kept above the ceiling only when its markup has at most one
    section, article or div, or it is a part within the ceiling, whose
    estimate counts its markup alone. It has the type, the priority, the
    style sheet and the script of a chunk of the input, and no image that
    this chunk does not have. *)
Theorem splitOversizedChunks_result (chunks : list ContentChunk)
    (maxTokensPerChunk : Z) :
  Forall (fun c =>
            ((In c chunks /\
              (maxTokensPerChunk < estimatedTokens c ->
               (length (select (loadMarkup (html c)) subSectionSelector)
                <= 1)%nat)) \/
             (estimatedTokens c <= maxTokensPerChunk /\
              estimatedTokens c = estimateTokens (htmlText c))) /\
            exists parent,
              In parent chunks /\
              type c = type parent /\ priority c = priority parent /\
              css c = css parent /\ javascript c = javascript parent /\
              preserveOrder c = preserveOrder parent /\
              incl (images c) (images parent))
    (splitOversizedChunks chunks maxTokensPerChunk).
Proof.
  unfold splitOversizedChunks. rewrite List.Forall_forall. intros c Hc.
  apply in_flat_map in Hc. destruct Hc as (parent & Hp & Hc).
  assert (Hsame : c = parent ->
    exists parent,
      In parent chunks /\
      type c = type parent /\ priority c = priority parent /\
      css c = css parent /\ javascript c = javascript parent /\
      preserveOrder c = preserveOrder parent /\
      incl (images c) (images parent)).
  { intros ->. exists parent. repeat split; try reflexivity; try exact Hp.
    apply incl_refl. }
  unfold splitChunk in Hc.
  destruct (estimatedTokens parent <=? maxTokensPerChunk) eqn:E.
  { destruct Hc as [<-|[]]. split; [|apply Hsame; reflexivity].
    left. split; [exact Hp|]. apply Z.leb_le in E. lia. }
  destruct (1 <? length _)%nat eqn:E1.
  2:{ destruct Hc as [<-|[]]. split; [|apply Hsame; reflexivity].
      left. split; [exact Hp|]. intros _.
      rewrite length_map in E1. apply Nat.ltb_ge in E1. exact E1. }
  clear Hsame. revert c Hc. apply List.Forall_forall.
  apply splitAlong_Forall.
  intros k subSection tokens imgs Ht Hest ->.
  cbn [estimatedTokens type priority css javascript preserveOrder images].
  split.
  - right. split; [exact Ht|]. rewrite Hest. unfold htmlText, renderAll.
    cbn [html map String.concat]. reflexivity.
  - exists parent. repeat split; try reflexivity; try exact Hp.
    intros r Hr. apply List.filter_In in Hr. apply Hr.
Qed.

Lemma splitChunk_fixed (maxTokensPerChunk : Z) (chunk c : ContentChunk) :
  In c (splitChunk maxTokensPerChunk chunk) ->
  splitChunk maxTokensPerChunk c = [c].
Proof.
  intros Hc. unfold splitChunk in Hc.
  destruct (estimatedTokens chunk <=? maxTokensPerChunk) eqn:E.
  - destruct Hc as [<-|[]]. unfold splitChunk. rewrite E. reflexivity.
  - destruct (1 <? length _)%nat eqn:E1.
    + revert c Hc. apply List.Forall_forall. apply splitAlong_Forall.
      intros k subSection tokens imgs Ht _ _.
      apply SplitProofs.splitChunk_fits. exact Ht.
    + destruct Hc as [<-|[]]. unfold splitChunk. rewrite E, E1. reflexivity.
Qed.

(** X19. [splitOversizedChunks] changes nothing in a list that
    [validateChunkSizes] accepts, and nothing in its own result: a second
    pass splits no further. *)
Theorem splitOversizedChunks_idempotent (chunks : list ContentChunk)
    (maxTokensPerChunk : Z) :
  (validateChunkSizes chunks maxTokensPerChunk = true ->
   splitOversizedChunks chunks maxTokensPerChunk = chunks) /\
  splitOversizedChunks (splitOversizedChunks chunks maxTokensPerChunk)
    maxTokensPerChunk
  = splitOversizedChunks chunks maxTokensPerChunk.
Proof.
  assert (Hfix : forall l,
    Forall (fun c => splitChunk maxTokensPerChunk c = [c]) l ->
    splitOversizedChunks l maxTokensPerChunk = l).
  { unfold splitOversizedChunks.
    induction 1 as [|c l Hc _ IH]; simpl; [reflexivity|].
    rewrite Hc, IH. reflexivity. }
  split.
  - intros Hv. apply Hfix. unfold validateChunkSizes in Hv.
    rewrite forallb_forall in Hv. rewrite List.Forall_forall.
    intros c Hc. apply SplitProofs.splitChunk_fits, Z.leb_le, Hv, Hc.
  - apply Hfix. rewrite List.Forall_forall. intros c Hc.
    unfold splitOversizedChunks in Hc. apply in_flat_map in Hc.
    destruct Hc as (chunk & _ & Hc).
    eapply splitChunk_fixed, Hc.
Qed.

Lemma splitOversizedChunks_idempotent_witness :
  splitOversizedChunks [Samples.criticalChunk] 100 = [Samples.criticalChunk].
Proof.
  apply (proj1 (splitOversizedChunks_idempotent [Samples.criticalChunk] 100)).
  reflexivity.
Defined.

End ChunkerLaws.
(** * Laws of the model router *)

Module ModelRouterLaws.

Import ContentChunker ModelRouter.

(** ** The entries of the routing map *)

Lemma admission_selection (now : Z) (chunk : ContentChunk) (m : Model)
    (limiter : RateLimiterManager.t) :
  let selection := fst (admission now chunk m limiter) in
  model selection = m /\
  selectionTokens selection = estimatedTokens chunk /\
  (canProcess selection = true -> waitTime selection = 0).
Proof.
  unfold admission, bind.
  destruct (RateLimiterManager.canProcess _ _ _ _) as [ok limiter'].
  destruct ok.
  - repeat split.
  - destruct (RateLimiterManager.waitTimeForTokens _ _ _ _) as [w limiter''].
    repeat split. discriminate.
Qed.

(** The model of a turn of the loop is gpt-5 or gpt-4o. *)
Lemma chooseModel_models (strategy : RoutingStrategy) (st : RoutingState)
    (chunk : ContentChunk) :
  let m := fst (fst (chooseModel strategy st chunk)) in
  m = Gpt5 \/ m = Gpt4o.
Proof.
  unfold chooseModel.
  repeat match goal with
         | |- context [if ?b then _ else _] => destruct b
         end; cbn; auto.
Qed.

Lemma chooseModel_no_images (strategy : RoutingStrategy) (st : RoutingState)
    (chunk : ContentChunk) :
  images chunk = [] -> fst (fst (chooseModel strategy st chunk)) = Gpt4o.
Proof.
  intros H. unfold chooseModel, analyzeChunkForRouting.
  cbn [hasCriticalImages hasProductImages hasHeroImages imageCount].
  rewrite H. cbn [existsb length orb andb Z.of_nat].
  destruct (_ <=? _); reflexivity.
Qed.

Lemma routeOne_entry (strategy : RoutingStrategy) (now : Z)
    (st : RoutingState) (chunk : ContentChunk)
    (limiter : RateLimiterManager.t) :
  routingMap (fst (routeOne strategy now st chunk limiter))
  = routingMap st ++
    [(chunk,
      fst (admission now chunk (fst (fst (chooseModel strategy st chunk)))
             limiter))].
Proof.
  unfold routeOne.
  destruct (chooseModel strategy st chunk) as [[m g5] g4o]. unfold bind.
  cbn [fst]. destruct (admission now chunk m limiter) as [selection limiter'].
  reflexivity.
Qed.

(** What holds of the entry of every turn holds of every entry of the
    map. *)
Lemma forEach_entries (P : ContentChunk * ModelSelection -> Prop)
    (strategy : RoutingStrategy) (now : Z) :
  (forall st chunk limiter,
     P (chunk,
        fst (admission now chunk (fst (fst (chooseModel strategy st chunk)))
               limiter))) ->
  forall l st limiter,
    Forall P (routingMap st) ->
    Forall P (routingMap (fst (forEach (routeOne strategy now) l st limiter))).
Proof.
  intros HP. induction l as [|chunk l IH]; intros st limiter Hst; simpl;
    [exact Hst|].
  unfold bind.
  pose proof (routeOne_entry strategy now st chunk limiter) as E.
  destruct (routeOne strategy now st chunk limiter) as [st1 limiter1].
  cbn [fst] in E. apply IH. rewrite E.
  apply List.Forall_app. split; [exact Hst|].
  constructor; [apply HP | constructor].
Qed.

Lemma routeMultipleChunks_Forall (P : ContentChunk * ModelSelection -> Prop)
    (strategy : RoutingStrategy) (now : Z) (chunks : list ContentChunk)
    (limiter : RateLimiterManager.t) :
  (forall st chunk limiter',
     P (chunk,
        fst (admission now chunk (fst (fst (chooseModel strategy st chunk)))
               limiter'))) ->
  Forall P (evalM (routeMultipleChunks strategy now chunks) limiter).
Proof.
  intros HP. unfold evalM, routeMultipleChunks, bind.
  pose proof (forEach_entries P strategy now HP
                (JsArray.sort
                   (fun a b => getNumericPriority a - getNumericPriority b)
                   chunks)
                {| routingMap := []; gpt5TokensUsed := 0;
                   gpt4oTokensUsed := 0 |} limiter) as H.
  destruct (forEach _ _ _ _) as [st limiter']. cbn [fst] in *.
  apply H. constructor.
Qed.

(** X20. The map that [routeMultipleChunks] returns has one entry for
    each chunk, and lists the chunks in the order of their priority,
    critical first. *)
Theorem routing_covers_chunks_by_priority (strategy : RoutingStrategy)
    (now : Z) (chunks : list ContentChunk) (limiter : RateLimiterManager.t) :
  let routing := evalM (routeMultipleChunks strategy now chunks) limiter in
  Permutation (map fst routing) chunks /\
  StronglySorted
    (fun a b => priorityOrder (priority a) <= priorityOrder (priority b))
    (map fst routing).
Proof.
  unfold evalM, routeMultipleChunks, bind, ret.
  set (cmp := fun a b => getNumericPriority a - getNumericPriority b).
  pose proof (ModelRouterProofs.forEach_routeOne strategy now
                (JsArray.sort cmp chunks)
                {| routingMap := []; gpt5TokensUsed := 0;
                   gpt4oTokensUsed := 0 |} limiter) as [H _].
  destruct (forEach _ _ _ _) as [st limiter']. cbn [fst routingMap map app] in *.
  rewrite H. split; [apply JsArrayProofs.sort_perm|].
  assert (E : forall c, getNumericPriority c = priorityOrder (priority c)).
  { intros c. unfold getNumericPriority. destruct (priority c); reflexivity. }
  apply JsArrayProofs.sort_sorted.
  - intros x y z. lia.
  - intros x y. unfold cmp. rewrite !E. lia.
  - intros x y. unfold cmp. rewrite !E. lia.
Qed.

(** X21. Every selection that [routeMultipleChunks] makes names gpt-5 or
    gpt-4o, never gpt-4-turbo or gpt-4, carries the estimate of its chunk,
    and has no wait when the rate limiter admits the chunk; so does the
    selection of [routeContentChunk]. *)
Theorem selections_are_consistent (strategy : RoutingStrategy) (now : Z)
    (chunks : list ContentChunk) (chunk : ContentChunk)
    (limiter : RateLimiterManager.t) :
  let consistent (entry : ContentChunk * ModelSelection) :=
    (model (snd entry) = Gpt5 \/ model (snd entry) = Gpt4o) /\
    selectionTokens (snd entry) = estimatedTokens (fst entry) /\
    (canProcess (snd entry) = true -> waitTime (snd entry) = 0) in
  Forall consistent (evalM (routeMultipleChunks strategy now chunks) limiter)
  /\ consistent (chunk, evalM (routeContentChunk now chunk) limiter).
Proof.
  cbn zeta. split.
  - apply routeMultipleChunks_Forall. intros st c limiter'. cbn [fst snd].
    destruct (admission_selection now c
                (fst (fst (chooseModel strategy st c))) limiter')
      as (Hm & Ht & Hw).
    rewrite Hm. split; [apply chooseModel_models|]. split; assumption.
  - unfold evalM, routeContentChunk. cbn [fst snd].
    destruct (admission_selection now chunk
                (selectOptimalModel (analyzeChunkForRouting chunk)) limiter)
      as (Hm & Ht & Hw).
    rewrite Hm. split; [|split; assumption].
    unfold selectOptimalModel.
    repeat match goal with
           | |- context [if ?b then _ else _] => destruct b
           end; auto.
Qed.

(** X22. A chunk without images is given to gpt-4o by
    [routeMultipleChunks], whatever its priority and whatever the budgets;
    [routeContentChunk] gives it to gpt-5 when its priority is high, and to
    gpt-4o otherwise. *)
Theorem chunk_without_images_routing (strategy : RoutingStrategy) (now : Z)
    (chunks : list ContentChunk) (chunk : ContentChunk)
    (limiter : RateLimiterManager.t) :
  Forall (fun entry => images (fst entry) = [] -> model (snd entry) = Gpt4o)
    (evalM (routeMultipleChunks strategy now chunks) limiter) /\
  (images chunk = [] ->
   model (evalM (routeContentChunk now chunk) limiter)
   = if isHigh (priority chunk) then Gpt5 else Gpt4o).
Proof.
  split.
  - apply routeMultipleChunks_Forall. intros st c limiter'. cbn [fst snd].
    intros H.
    rewrite (proj1 (admission_selection now c _ limiter')).
    apply chooseModel_no_images, H.
  - intros H. unfold evalM, routeContentChunk.
    rewrite (proj1 (admission_selection now chunk _ limiter)).
    unfold selectOptimalModel, analyzeChunkForRouting.
    cbn [hasCriticalImages hasProductImages hasHeroImages imageCount
         isImageHeavy isTextHeavy chunkType chunkPriority].
    rewrite H. cbn [existsb length orb andb Z.of_nat Z.ltb Z.compare].
    destruct (isHigh (priority chunk)); [reflexivity|].
    rewrite andb_false_r. destruct (_ || _); reflexivity.
Qed.

Lemma chunk_without_images_routing_witness :
  let text :=
    {| id := "chunk-2"; type := TyHero; html := [Samples.longParagraph];
       css := ""; javascript := ""; images := [];
       estimatedTokens := 30; priority := PrioHigh;
       preserveOrder := false |} in
  images text = [] /\
  model (evalM (routeContentChunk 0 text) RateLimiterManager.new) = Gpt5.
Proof.
  intros text. split; [reflexivity|].
  apply (proj2 (chunk_without_images_routing getDefaultStrategy 0 [text] text
                  RateLimiterManager.new)).
  reflexivity.
Defined.

(** ** The metrics of a routing *)

Lemma sumBy_map {A B} (f : B -> Z) (g : A -> B) (l : list A) :
  JsArray.sumBy (fun x => f (g x)) l = JsArray.sumBy f (map g l).
Proof.
  induction l as [|x l IH]; [reflexivity|].
  cbn [map]. rewrite !JsArrayProofs.sumBy_cons, IH. reflexivity.
Qed.

Lemma sumBy_ext {A} (f g : A -> Z) (l : list A) :
  Forall (fun x => f x = g x) l -> JsArray.sumBy f l = JsArray.sumBy g l.
Proof.
  induction 1 as [|x l Hx _ IH]; [reflexivity|].
  rewrite !JsArrayProofs.sumBy_cons, Hx, IH. reflexivity.
Qed.

Lemma sumBy_le {A} (f g : A -> Z) (l : list A) :
  (forall x, f x <= g x) -> JsArray.sumBy f l <= JsArray.sumBy g l.
Proof.
  intros H. induction l as [|x l IH].
  - unfold JsArray.sumBy. simpl. lia.
  - rewrite !JsArrayProofs.sumBy_cons. specialize (H x). lia.
Qed.

(** What the loop of [analyzeRoutingMetrics] adds to its variables. *)
Lemma countEntry_fold (routing : list (ContentChunk * ModelSelection))
    (st0 : MetricsState) :
  let st := fold_left countEntry routing st0 in
  countGpt5Chunks st + countGpt4oChunks st
  = countGpt5Chunks st0 + countGpt4oChunks st0 + Z.of_nat (length routing) /\
  gpt5Tokens st + gpt4oTokens st
  = gpt5Tokens st0 + gpt4oTokens st0
    + JsArray.sumBy (fun e => selectionTokens (snd e)) routing /\
  criticalImageCount st
  = criticalImageCount st0
    + JsArray.sumBy
        (fun e => Z.of_nat (length (List.filter isCriticalOrProduct
                                      (images (fst e))))) routing /\
  totalImages st
  = totalImages st0
    + JsArray.sumBy (fun e => Z.of_nat (length (images (fst e)))) routing /\
  maxWaitTime st0 <= maxWaitTime st.
Proof.
  revert st0. induction routing as [|[chunk selection] l IH]; intros st0.
  - unfold JsArray.sumBy. simpl. lia.
  - cbn [fold_left]. set (st1 := countEntry st0 (chunk, selection)).
    specialize (IH st1). cbn zeta in IH |- *.
    destruct IH as (H1 & H2 & H3 & H4 & H5).
    rewrite !JsArrayProofs.sumBy_cons. cbn [fst snd length].
    assert (E1 : countGpt5Chunks st1 + countGpt4oChunks st1
                 = countGpt5Chunks st0 + countGpt4oChunks st0 + 1)
      by (subst st1; cbn; destruct (isGpt5 (model selection)); lia).
    assert (E2 : gpt5Tokens st1 + gpt4oTokens st1
                 = gpt5Tokens st0 + gpt4oTokens st0 + selectionTokens selection)
      by (subst st1; cbn; destruct (isGpt5 (model selection)); lia).
    assert (E3 : criticalImageCount st1
                 = criticalImageCount st0
                   + Z.of_nat (length (List.filter isCriticalOrProduct
                                         (images chunk))))
      by reflexivity.
    assert (E4 : totalImages st1
                 = totalImages st0 + Z.of_nat (length (images chunk)))
      by reflexivity.
    assert (E5 : maxWaitTime st0 <= maxWaitTime st1)
      by (subst st1; cbn; lia).
    repeat split; lia.
Qed.

Lemma filter_length_le {A} (p : A -> bool) (l : list A) :
  (length (List.filter p l) <= length l)%nat.
Proof.
  induction l as [|x l IH]; simpl; [lia|]. destruct (p x); simpl; lia.
Qed.

(** X23. For the map that [routeMultipleChunks] returns,
    [analyzeRoutingMetrics] counts every chunk once, under gpt-5 or under
    gpt-4o, and its two token totals add up to the estimates of the
    chunks. The counts it calls preserved are the counts of the images,
    and of the critical and product images, of the chunks it is given:
    they do not depend on the routing. *)
Theorem routing_metrics_account (strategy : RoutingStrategy) (now : Z)
    (chunks : list ContentChunk) (limiter : RateLimiterManager.t) :
  let routing := evalM (routeMultipleChunks strategy now chunks) limiter in
  let metrics := analyzeRoutingMetrics strategy chunks routing in
  gpt5Chunks metrics + gpt4oChunks metrics = totalChunks metrics /\
  gpt5Used metrics + gpt4oUsed metrics
  = JsArray.sumBy estimatedTokens chunks /\
  totalImagesPreserved metrics
  = JsArray.sumBy (fun c => Z.of_nat (length (images c))) chunks /\
  criticalImagesPreserved metrics
  = JsArray.sumBy
      (fun c => Z.of_nat (length (List.filter isCriticalOrProduct (images c))))
      chunks /\
  0 <= criticalImagesPreserved metrics <= totalImagesPreserved metrics /\
  0 <= estimatedProcessingTime metrics.
Proof.
  intros routing metrics.
  destruct (ModelRouterProofs.routeMultipleChunks_entries strategy now chunks
              limiter) as [Hp _]. fold routing in Hp.
  pose proof (routeMultipleChunks_Forall
                (fun e => selectionTokens (snd e) = estimatedTokens (fst e))
                strategy now chunks limiter
                (fun st c limiter' =>
                   proj1 (proj2 (admission_selection now c _ limiter'))))
    as Hc.
  fold routing in Hc.
  pose proof (countEntry_fold routing
    {| countGpt5Chunks := 0; countGpt4oChunks := 0; gpt5Tokens := 0;
       gpt4oTokens := 0; criticalImageCount := 0; totalImages := 0;
       maxWaitTime := 0 |}) as H.
  cbn zeta in H. destruct H as (H1 & H2 & H3 & H4 & H5).
  cbn [countGpt5Chunks countGpt4oChunks gpt5Tokens gpt4oTokens
       criticalImageCount totalImages maxWaitTime] in H1, H2, H3, H4, H5.
  subst metrics. unfold analyzeRoutingMetrics.
  cbn [gpt5Chunks gpt4oChunks totalChunks gpt5Used gpt4oUsed
       totalImagesPreserved criticalImagesPreserved estimatedProcessingTime].
  assert (E3 : JsArray.sumBy
                 (fun e => Z.of_nat (length (List.filter isCriticalOrProduct
                                               (images (fst e))))) routing
               = JsArray.sumBy
                   (fun c => Z.of_nat (length (List.filter isCriticalOrProduct
                                                 (images c)))) chunks).
  { rewrite (sumBy_map
               (fun c => Z.of_nat (length (List.filter isCriticalOrProduct
                                             (images c)))) fst).
    apply JsArrayProofs.sumBy_perm, Hp. }
  assert (E4 : JsArray.sumBy (fun e => Z.of_nat (length (images (fst e))))
                 routing
               = JsArray.sumBy (fun c => Z.of_nat (length (images c))) chunks).
  { rewrite (sumBy_map (fun c => Z.of_nat (length (images c))) fst).
    apply JsArrayProofs.sumBy_perm, Hp. }
  assert (E2 : JsArray.sumBy (fun e => selectionTokens (snd e)) routing
               = JsArray.sumBy estimatedTokens chunks).
  { rewrite (sumBy_ext _ (fun e => estimatedTokens (fst e))).
    - rewrite (sumBy_map estimatedTokens fst).
      apply JsArrayProofs.sumBy_perm, Hp.
    - exact Hc. }
  split; [rewrite H1, <- (Permutation_length Hp), length_map; lia|].
  split; [lia|]. split; [lia|]. split; [lia|]. split.
  - rewrite H3, H4, E3, E4. split.
    + apply ChunkerLaws.sumBy_nonneg. rewrite List.Forall_forall.
      intros c _. lia.
    + apply sumBy_le. intros c.
      pose proof (filter_length_le isCriticalOrProduct (images c)). lia.
  - apply ChunkerLaws.ceilDiv_lower; lia.
Qed.

(** ** Feasibility *)

(** X24. [validateRoutingFeasibility] finds the routing feasible exactly
    when the estimates of the chunks are within the two budgets together,
    those of the chunks with a critical or product image are within the
    budget of gpt-5, and [validateChunkSizes] accepts the chunks at 25 000
    tokens; it gives one recommendation for each issue. *)
Theorem feasibility_conditions (strategy : RoutingStrategy)
    (chunks : list ContentChunk) :
  let verdict := validateRoutingFeasibility strategy chunks in
  (feasible verdict = true <->
     JsArray.sumBy estimatedTokens chunks
     <= gpt5Budget strategy + gpt4oBudget strategy /\
     JsArray.sumBy estimatedTokens
       (List.filter (fun chunk => existsb isCriticalOrProduct (images chunk))
          chunks)
     <= gpt5Budget strategy /\
     validateChunkSizes chunks 25000 = true) /\
  (feasible verdict = true <-> issues verdict = []) /\
  length (issues verdict) = length (recommendations verdict).
Proof.
  cbn zeta. unfold validateRoutingFeasibility.
  cbn [feasible issues recommendations].
  set (overBudget := _ + _ <? JsArray.sumBy estimatedTokens chunks).
  set (overCritical := gpt5Budget strategy <? _).
  set (oversized := (0 <? length _)%nat).
  assert (Hv : validateChunkSizes chunks 25000 = negb oversized).
  { subst oversized. unfold validateChunkSizes.
    induction chunks as [|c l IH]; [reflexivity|].
    cbn [forallb List.filter]. rewrite IH.
    destruct (25000 <? estimatedTokens c) eqn:E.
    - apply Z.ltb_lt in E.
      replace (estimatedTokens c <=? 25000) with false
        by (symmetry; apply Z.leb_gt; exact E).
      reflexivity.
    - apply Z.ltb_ge in E.
      replace (estimatedTokens c <=? 25000) with true
        by (symmetry; apply Z.leb_le; exact E).
      reflexivity. }
  rewrite Hv.
  assert (Hb : overBudget = false
               <-> JsArray.sumBy estimatedTokens chunks
                   <= gpt5Budget strategy + gpt4oBudget strategy)
    by (subst overBudget; rewrite Z.ltb_ge; reflexivity).
  assert (Hc : overCritical = false
               <-> JsArray.sumBy estimatedTokens
                     (List.filter
                        (fun chunk => existsb isCriticalOrProduct
                                        (images chunk)) chunks)
                   <= gpt5Budget strategy)
    by (subst overCritical; rewrite Z.ltb_ge; reflexivity).
  rewrite <- Hb, <- Hc.
  destruct overBudget, overCritical, oversized; cbn;
    repeat split; intros; try discriminate; try reflexivity;
    repeat match goal with H : _ /\ _ |- _ => destruct H end;
    discriminate.
Qed.

(** ** The strategy suggested *)

(** X25. The budgets that [suggestOptimalStrategy] proposes always add up
    to 30 000 tokens with a buffer of 3 000, and give gpt-5 between 15 000
    and 25 000. For an empty list of chunks, where the share of the chunks
    with images is 0 / 0, they are the budgets of the default strategy;
    when every chunk has an image gpt-5 gets 25 000, and when none has one
    it gets 15 000. *)
Theorem suggested_budgets (chunks : list ContentChunk) :
  let suggested := suggestOptimalStrategy chunks in
  suggestedGpt5Budget suggested + suggestedGpt4oBudget suggested = 30000 /\
  suggestedBufferTokens suggested = 3000 /\
  15000 <= suggestedGpt5Budget suggested <= 25000 /\
  (chunks = [] ->
   suggestedGpt5Budget suggested = gpt5Budget getDefaultStrategy /\
   suggestedGpt4oBudget suggested = gpt4oBudget getDefaultStrategy) /\
  (chunks <> [] -> Forall (fun chunk => images chunk <> []) chunks ->
   suggestedGpt5Budget suggested = 25000) /\
  (chunks <> [] -> Forall (fun chunk => images chunk = []) chunks ->
   suggestedGpt5Budget suggested = 15000).
Proof.
  cbn zeta. unfold suggestOptimalStrategy.
  set (withImages := List.filter _ chunks).
  split; [|split; [|split; [|split; [|split]]]].
  - destruct (gtTenths _ 7); [reflexivity|].
    destruct (ltTenths _ 3); reflexivity.
  - destruct (gtTenths _ 7); [reflexivity|].
    destruct (ltTenths _ 3); reflexivity.
  - destruct (gtTenths _ 7); [cbn; lia|].
    destruct (ltTenths _ 3); cbn; lia.
  - intros ->. split; reflexivity.
  - intros Hne Hall.
    assert (E : withImages = chunks).
    { subst withImages. apply TokenBucketLaws.filter_all.
      eapply List.Forall_impl; [|exact Hall]. cbn beta. intros c Hc.
      destruct (images c); [contradiction | reflexivity]. }
    rewrite E. unfold gtTenths.
    destruct chunks as [|c l]; [contradiction|].
    replace (Z.of_nat (length (c :: l)) =? 0) with false
      by (symmetry; apply Z.eqb_neq; cbn [length]; lia).
    replace (0 <? Z.of_nat (length (c :: l))) with true
      by (symmetry; apply Z.ltb_lt; cbn [length]; lia).
    replace (7 * Z.of_nat (length (c :: l))
             <? 10 * Z.of_nat (length (c :: l))) with true
      by (symmetry; apply Z.ltb_lt; cbn [length]; lia).
    reflexivity.
  - intros Hne Hall.
    assert (E : withImages = []).
    { subst withImages. apply TokenBucketLaws.filter_none.
      eapply List.Forall_impl; [|exact Hall]. cbn beta. intros c Hc.
      rewrite Hc. reflexivity. }
    rewrite E. unfold gtTenths, ltTenths. cbn [length Z.of_nat].
    destruct chunks as [|c l]; [contradiction|].
    replace (Z.of_nat (length (c :: l)) =? 0) with false
      by (symmetry; apply Z.eqb_neq; cbn [length]; lia).
    replace (0 <? Z.of_nat (length (c :: l))) with true
      by (symmetry; apply Z.ltb_lt; cbn [length]; lia).
    replace (7 * Z.of_nat (length (c :: l)) <? 10 * 0) with false
      by (symmetry; apply Z.ltb_ge; cbn [length]; lia).
    replace (10 * 0 <? 3 * Z.of_nat (length (c :: l))) with true
      by (symmetry; apply Z.ltb_lt; cbn [length]; lia).
    reflexivity.
Qed.

Lemma suggested_budgets_witness :
  suggestedGpt5Budget (suggestOptimalStrategy [Samples.criticalChunk])
  = 25000.
Proof.
  apply (suggested_budgets [Samples.criticalChunk]).
  - discriminate.
  - repeat constructor. discriminate.
Defined.

End ModelRouterLaws.
(** * Laws of the choice between the two ways of processing *)

Module LlmServiceLaws.

Import LlmService.

Lemma len_append (s t : string) :
  Str.len (s +:+ t) = Str.len s + Str.len t.
Proof.
  unfold Str.len. induction s as [|c s IH].
  - reflexivity.
  - rewrite OptimizerProofs.append_cons. cbn [String.length].
    rewrite !Nat2Z.inj_succ, IH. lia.
Qed.

Lemma estimateTokenCount_spec (text : string) :
  4 * (estimateTokenCount text - 1) < Str.len text
  <= 4 * estimateTokenCount text.
Proof. apply ChunkerLaws.ceilDiv_spec. lia. Qed.

(** X26. In [shouldUseChunkedProcessing] the test on the estimated tokens
    decides nothing: an estimate above 20 000 tokens needs more than
    80 000 characters, which the test on the size of the content catches
    at 75 000. The answer is that of the three other tests. *)
Theorem token_test_decides_nothing (html css javascript : string) :
  let totalSize := Str.len html + Str.len css + Str.len javascript in
  let imageCount := countImgTags false html in
  shouldUseChunkedProcessing html css javascript
  = (75000 <? totalSize) || (8 <? imageCount)
    || ((50000 <? totalSize) && (5 <? imageCount)).
Proof.
  cbn zeta. unfold shouldUseChunkedProcessing.
  pose proof (estimateTokenCount_spec (html +:+ css +:+ javascript)) as H.
  rewrite !len_append in H.
  destruct (75000 <? Str.len html + Str.len css + Str.len javascript) eqn:E;
    [reflexivity|].
  apply Z.ltb_ge in E.
  replace (20000 <? estimateTokenCount (html +:+ css +:+ javascript))
    with false by (symmetry; apply Z.ltb_ge; lia).
  reflexivity.
Qed.

Lemma blobSize_bounds (content : string) :
  Str.len content <= ContentOptimizer.blobSize content
  <= 2 * Str.len content.
Proof.
  unfold Str.len. induction content as [|c s IH].
  - cbn. lia.
  - cbn [ContentOptimizer.blobSize String.length].
    rewrite Nat2Z.inj_succ. unfold ContentOptimizer.utf8Width.
    destruct (nat_of_ascii c <? 128)%nat; lia.
Qed.

(** X27. Content that [ContentOptimizer.needsOptimization] finds too large
    is always processed in chunks: when [shouldUseChunkedProcessing]
    answers false, so does [needsOptimization], and the traditional way of
    processing, taken then by [generateRedesign], never optimizes. *)
Theorem traditional_path_never_optimizes (html css javascript : string) :
  shouldUseChunkedProcessing html css javascript = false ->
  ContentOptimizer.needsOptimization html css javascript = false.
Proof.
  unfold shouldUseChunkedProcessing, ContentOptimizer.needsOptimization.
  pose proof (blobSize_bounds (html +:+ css +:+ javascript)) as H.
  rewrite !len_append in H.
  destruct (75000 <? Str.len html + Str.len css + Str.len javascript) eqn:E;
    [discriminate|].
  intros _. apply Z.ltb_ge in E. apply Z.ltb_ge. lia.
Qed.

Lemma traditional_path_never_optimizes_witness :
  ContentOptimizer.needsOptimization "<p>hello</p>" "p{}" "f()" = false.
Proof.
  apply (traditional_path_never_optimizes "<p>hello</p>" "p{}" "f()").
  reflexivity.
Defined.

End LlmServiceLaws.
(** * Routing and the rate limiter *)

Module AdmissionLaws.

Import ContentChunker ModelRouter ManagerSpec.

Lemma sameWindows_refl (now : Z) (l : RateLimiterManager.t) :
  sameWindows now l l.
Proof.
  unfold sameWindows, RateLimiterManager.t in *.
  intros model. destruct (l !! model); [|exact I].
  split; reflexivity.
Qed.

Lemma sameWindows_trans (now : Z) (l1 l2 l3 : RateLimiterManager.t) :
  sameWindows now l1 l2 -> sameWindows now l2 l3 -> sameWindows now l1 l3.
Proof.
  unfold sameWindows, RateLimiterManager.t in *.
  intros H12 H23 model. specialize (H12 model). specialize (H23 model).
  destruct (l1 !! model), (l2 !! model), (l3 !! model);
    try contradiction; try exact I.
  destruct H12 as [C12 W12], H23 as [C23 W23]. split; [congruence|].
  intros now' Hle. rewrite W12, W23 by exact Hle. reflexivity.
Qed.

(** A call that observes, made on the bucket of a model, leaves the
    windows as they are. *)
Lemma sameWindows_observer (now : Z) (model : string)
    (c : LimiterHistory.call) (bucket : TokenBucket.t)
    (buckets : gmap string TokenBucket.t) :
  LimiterHistory.observes c = true ->
  buckets !! model = Some bucket ->
  sameWindows now buckets
    (<[ model := LimiterHistory.perform now c bucket ]> buckets).
Proof.
  unfold sameWindows, RateLimiterManager.t in *.
  intros Hc Hb other.
  destruct (decide (model = other)) as [<-|Hne].
  - rewrite Hb, lookup_insert_eq. split.
    + symmetry. apply (TokenBucketLaws.observer_window now now c bucket Hc).
      lia.
    + intros now' Hle. symmetry.
      apply (TokenBucketLaws.observer_window now now' c bucket Hc Hle).
  - rewrite lookup_insert_ne by exact Hne.
    apply (sameWindows_refl now buckets other).
Qed.

Lemma canProcess_sameWindows (now : Z) (tokens : Z) (model : string)
    (limiter : RateLimiterManager.t) :
  sameWindows now limiter
    (execM (RateLimiterManager.canProcess now tokens model) limiter).
Proof.
  unfold execM, RateLimiterManager.canProcess, bind, get, ret,
    RateLimiterManager.t in *.
  destruct (limiter !! model) as [bucket|] eqn:E;
    [|apply sameWindows_refl].
  rewrite RateLimiterManagerLaws.onBucket_same. cbn [snd].
  apply (sameWindows_observer now model (LimiterHistory.CanProcess tokens)
           bucket limiter eq_refl E).
Qed.

Lemma waitTimeForTokens_sameWindows (now : Z) (tokens : Z) (model : string)
    (limiter : RateLimiterManager.t) :
  sameWindows now limiter
    (execM (RateLimiterManager.waitTimeForTokens now tokens model) limiter).
Proof.
  unfold execM, RateLimiterManager.waitTimeForTokens, bind, get, ret,
    RateLimiterManager.t in *.
  destruct (limiter !! model) as [bucket|] eqn:E;
    [|apply sameWindows_refl].
  rewrite RateLimiterManagerLaws.onBucket_same. cbn [snd].
  apply (sameWindows_observer now model
           (LimiterHistory.WaitTimeForTokens tokens) bucket limiter eq_refl E).
Qed.

Lemma admission_sameWindows (now : Z) (chunk : ContentChunk) (m : Model)
    (limiter : RateLimiterManager.t) :
  sameWindows now limiter (snd (admission now chunk m limiter)).
Proof.
  unfold admission, bind.
  pose proof (canProcess_sameWindows now (estimatedTokens chunk)
                (modelName m) limiter) as H1.
  unfold execM in H1.
  destruct (RateLimiterManager.canProcess _ _ _ _) as [ok limiter1].
  cbn [snd] in H1. destruct ok; [exact H1|].
  pose proof (waitTimeForTokens_sameWindows now (estimatedTokens chunk)
                (modelName m) limiter1) as H2.
  unfold execM in H2.
  destruct (RateLimiterManager.waitTimeForTokens _ _ _ _) as [w limiter2].
  cbn [snd] in *. eapply sameWindows_trans; eassumption.
Qed.

Lemma routeOne_sameWindows (strategy : RoutingStrategy) (now : Z)
    (st : RoutingState) (chunk : ContentChunk)
    (limiter : RateLimiterManager.t) :
  sameWindows now limiter (snd (routeOne strategy now st chunk limiter)).
Proof.
  unfold routeOne.
  destruct (chooseModel strategy st chunk) as [[m g5] g4o]. unfold bind.
  pose proof (admission_sameWindows now chunk m limiter) as H.
  destruct (admission now chunk m limiter) as [selection limiter'].
  exact H.
Qed.

Lemma forEach_sameWindows (strategy : RoutingStrategy) (now : Z)
    (l : list ContentChunk) (st : RoutingState)
    (limiter : RateLimiterManager.t) :
  sameWindows now limiter
    (snd (forEach (routeOne strategy now) l st limiter)).
Proof.
  revert st limiter. induction l as [|chunk l IH]; intros st limiter; simpl.
  - apply sameWindows_refl.
  - unfold bind.
    pose proof (routeOne_sameWindows strategy now st chunk limiter) as H.
    destruct (routeOne strategy now st chunk limiter) as [st1 limiter1].
    cbn [snd] in H. eapply sameWindows_trans; [exact H | apply IH].
Qed.

(** What the manager answers depends on the windows only. *)
Lemma sameWindows_answers (now now' tokens : Z) (model : string)
    (l1 l2 : RateLimiterManager.t) :
  sameWindows now l1 l2 -> now <= now' ->
  evalM (RateLimiterManager.canProcess now' tokens model) l1
  = evalM (RateLimiterManager.canProcess now' tokens model) l2 /\
  evalM (RateLimiterManager.getAvailableTokens now' model) l1
  = evalM (RateLimiterManager.getAvailableTokens now' model) l2 /\
  evalM (RateLimiterManager.waitTimeForTokens now' tokens model) l1
  = evalM (RateLimiterManager.waitTimeForTokens now' tokens model) l2.
Proof.
  unfold sameWindows. intros H Hle. specialize (H model).
  unfold evalM, RateLimiterManager.canProcess,
    RateLimiterManager.getAvailableTokens,
    RateLimiterManager.waitTimeForTokens, bind, get, ret,
    RateLimiterManager.t in *.
  destruct (l1 !! model) as [b1|], (l2 !! model) as [b2|];
    try contradiction; [|repeat split].
  destruct H as [Hc Hw]. specialize (Hw now' Hle).
  rewrite !RateLimiterManagerLaws.onBucket_same. cbn [fst].
  rewrite !TokenBucketProofs.canProcess_run,
    !TokenBucketLaws.getAvailableTokens_run,
    !TokenBucketLaws.waitTimeForTokens_run.
  unfold LimiterHistory.foundWait. rewrite Hc, Hw. cbn [fst].
  repeat split.
  destruct (_ <=? _); reflexivity.
Qed.

(** X28. Routing consumes nothing: after [routeContentChunk] or
    [routeMultipleChunks] the rate limiter answers every later question
    ([canProcess], [getAvailableTokens], [waitTimeForTokens], for every
    model) as it would have answered it before: no selection reserves
    tokens for its chunk. *)
Theorem routing_consumes_nothing (strategy : RoutingStrategy)
    (now now' tokens : Z) (model : string) (chunks : list ContentChunk)
    (chunk : ContentChunk) (limiter : RateLimiterManager.t) :
  now <= now' ->
  let unchanged (limiter' : RateLimiterManager.t) :=
    evalM (RateLimiterManager.canProcess now' tokens model) limiter'
    = evalM (RateLimiterManager.canProcess now' tokens model) limiter /\
    evalM (RateLimiterManager.getAvailableTokens now' model) limiter'
    = evalM (RateLimiterManager.getAvailableTokens now' model) limiter /\
    evalM (RateLimiterManager.waitTimeForTokens now' tokens model) limiter'
    = evalM (RateLimiterManager.waitTimeForTokens now' tokens model) limiter
  in
  unchanged (execM (routeMultipleChunks strategy now chunks) limiter) /\
  unchanged (execM (routeContentChunk now chunk) limiter).
Proof.
  intros Hle. cbn zeta.
  assert (H1 : sameWindows now
                 (execM (routeMultipleChunks strategy now chunks) limiter)
                 limiter).
  { unfold execM, routeMultipleChunks, bind, ret.
    pose proof (forEach_sameWindows strategy now
                  (JsArray.sort
                     (fun a b => getNumericPriority a - getNumericPriority b)
                     chunks)
                  {| routingMap := []; gpt5TokensUsed := 0;
                     gpt4oTokensUsed := 0 |} limiter) as H.
    destruct (forEach _ _ _ _) as [st limiter']. cbn [snd] in *.
    unfold sameWindows, RateLimiterManager.t in *.
    intros other. specialize (H other).
    destruct (limiter !! other), (limiter' !! other);
      try contradiction; try exact I.
    destruct H as [Hc Hw]. split; [congruence|].
    intros later Hlater. symmetry. apply Hw, Hlater. }
  assert (H2 : sameWindows now (execM (routeContentChunk now chunk) limiter)
                 limiter).
  { unfold execM, routeContentChunk.
    pose proof (admission_sameWindows now chunk
                  (selectOptimalModel (analyzeChunkForRouting chunk)) limiter)
      as H.
    set (limiter' := snd (admission now chunk
                            (selectOptimalModel (analyzeChunkForRouting chunk))
                            limiter)) in *.
    unfold sameWindows, RateLimiterManager.t in *.
    intros other. specialize (H other).
    destruct (limiter !! other), (limiter' !! other);
      try contradiction; try exact I.
    destruct H as [Hc Hw]. split; [congruence|].
    intros later Hlater. symmetry. apply Hw, Hlater. }
  split; apply (sameWindows_answers now now' tokens model); assumption.
Qed.

Lemma routing_consumes_nothing_witness :
  evalM (RateLimiterManager.canProcess 5 20000 "gpt-5")
    (execM (routeMultipleChunks getDefaultStrategy 0 [Samples.criticalChunk])
       RateLimiterManager.new)
  = evalM (RateLimiterManager.canProcess 5 20000 "gpt-5")
      RateLimiterManager.new.
Proof.
  apply (routing_consumes_nothing getDefaultStrategy 0 5 20000 "gpt-5"
           [Samples.criticalChunk] Samples.criticalChunk
           RateLimiterManager.new).
  lia.
Defined.

End AdmissionLaws.
(** * Laws of the content optimizer *)

Module OptimizerLaws.

Import Dom ContentOptimizer OptimizerSpec MarkupSpec.

(** ** Elements without elements below them *)

Lemma noElements_subtree (kids : list node) :
  Forall (fun k => isElement k = false) kids -> flat_map subtree kids = [].
Proof.
  induction 1 as [|k l Hk _ IH]; [reflexivity|].
  cbn [flat_map]. rewrite IH.
  destruct k; [reflexivity | reflexivity | discriminate Hk].
Qed.

Lemma noElements_removeWhere (p : node -> list node -> bool)
    (anc : list node) (kids : list node) :
  Forall (fun k => isElement k = false) kids ->
  flat_map (removeWhere p anc) kids = kids.
Proof.
  induction 1 as [|k l Hk _ IH]; [reflexivity|].
  cbn [flat_map]. rewrite IH.
  destruct k; [reflexivity | reflexivity | discriminate Hk].
Qed.

Lemma noElements_replaceWhere (p : node -> list node -> bool)
    (replacement : list node) (anc : list node) (kids : list node) :
  Forall (fun k => isElement k = false) kids ->
  flat_map (replaceWhere p replacement anc) kids = kids.
Proof.
  induction 1 as [|k l Hk _ IH]; [reflexivity|].
  cbn [flat_map]. rewrite IH.
  destruct k; [reflexivity | reflexivity | discriminate Hk].
Qed.

Lemma noElements_appendWhere (p : node -> list node -> bool)
    (extra : list node) (anc : list node) (kids : list node) :
  Forall (fun k => isElement k = false) kids ->
  map (appendWhere p extra anc) kids = kids.
Proof.
  induction 1 as [|k l Hk _ IH]; [reflexivity|].
  cbn [map]. rewrite IH.
  destruct k; [reflexivity | reflexivity | discriminate Hk].
Qed.

(** ** Properties that the rebuilding of the tree keeps *)

Lemma shallow_leafy : shallow leafy.
Proof.
  intros name attribs kids kids' Hk H Ht.
  assert (Ht' : isLeafTag (Element name attribs kids) = true) by exact Ht.
  rewrite (Hk Ht'). apply H, Ht'.
Qed.

Lemma shallow_clean : shallow clean.
Proof.
  intros name attribs kids kids' Hk H. unfold clean, isAnalyticsScript in *.
  destruct (hasTag ["script"%string] (Element name attribs kids')) eqn:Et;
    [|reflexivity].
  assert (Ht : isLeafTag (Element name attribs kids) = true).
  { unfold isLeafTag, hasTag in *. cbn [isElement tagName andb existsb] in *.
    destruct (String.eqb name "script"); [reflexivity | discriminate Et]. }
  rewrite (Hk Ht). rewrite (Hk Ht) in Et.
  rewrite Et in H. exact H.
Qed.

Lemma shallow_and (P Q : node -> Prop) :
  shallow P -> shallow Q -> shallow (fun n => P n /\ Q n).
Proof.
  intros HP HQ name attribs kids kids' Hk [H1 H2]. split.
  - eapply HP; eassumption.
  - eapply HQ; eassumption.
Qed.

Section Rebuilding.

Variable P : node -> Prop.
Hypothesis P_shallow : shallow P.

(** [remove] keeps a shallow property of the elements of a well-nested
    tree. *)
Lemma removeWhere_keeps (p : node -> list node -> bool) (n : node) :
  forall anc,
    Forall (fun m => leafy m /\ P m) (subtree n) ->
    Forall P (flat_map subtree (removeWhere p anc n)).
Proof.
  induction n as [data|data|name attribs kids IH] using DomProofs.node_induction;
    intros anc H; [constructor | constructor |].
  cbn [removeWhere].
  destruct (p (Element name attribs kids) anc); [constructor|].
  cbn [subtree] in H. apply List.Forall_cons_iff in H.
  destruct H as [[Hl Hn] Hkids].
  cbn [flat_map subtree]. rewrite app_nil_r. constructor.
  - eapply P_shallow; [|exact Hn].
    intros Ht. apply noElements_removeWhere, Hl, Ht.
  - clear Hl Hn. generalize (Element name attribs kids :: anc) as anc'.
    intros anc'. induction IH as [|k l Hk _ IHl]; [constructor|].
    cbn [flat_map] in *. apply List.Forall_app in Hkids.
    destruct Hkids as [H1 H2].
    rewrite flat_map_app. apply List.Forall_app. split.
    + apply Hk, H1.
    + apply IHl, H2.
Qed.

Lemma removeWhere_keeps_list (p : node -> list node -> bool)
    (anc : list node) (l : list node) :
  Forall (fun m => leafy m /\ P m) (flat_map subtree l) ->
  Forall P (flat_map subtree (flat_map (removeWhere p anc) l)).
Proof.
  induction l as [|k l IH]; intros H; [constructor|].
  cbn [flat_map] in *. apply List.Forall_app in H. destruct H as [H1 H2].
  rewrite flat_map_app. apply List.Forall_app. split.
  - apply removeWhere_keeps, H1.
  - apply IH, H2.
Qed.

(** So does [replaceWith], when what it puts in has the property. *)
Lemma replaceWhere_keeps (p : node -> list node -> bool)
    (replacement : list node) (n : node) :
  Forall P (flat_map subtree replacement) ->
  forall anc,
    Forall (fun m => leafy m /\ P m) (subtree n) ->
    Forall P (flat_map subtree (replaceWhere p replacement anc n)).
Proof.
  intros Hr.
  induction n as [data|data|name attribs kids IH] using DomProofs.node_induction;
    intros anc H; [constructor | constructor |].
  cbn [replaceWhere].
  destruct (p (Element name attribs kids) anc); [exact Hr|].
  cbn [subtree] in H. apply List.Forall_cons_iff in H.
  destruct H as [[Hl Hn] Hkids].
  cbn [flat_map subtree]. rewrite app_nil_r. constructor.
  - eapply P_shallow; [|exact Hn].
    intros Ht. apply noElements_replaceWhere, Hl, Ht.
  - clear Hl Hn. generalize (Element name attribs kids :: anc) as anc'.
    intros anc'. induction IH as [|k l Hk _ IHl]; [constructor|].
    cbn [flat_map] in *. apply List.Forall_app in Hkids.
    destruct Hkids as [H1 H2].
    rewrite flat_map_app. apply List.Forall_app. split.
    + apply Hk, H1.
    + apply IHl, H2.
Qed.

Lemma replaceWhere_keeps_list (p : node -> list node -> bool)
    (replacement : list node) (anc : list node) (l : list node) :
  Forall P (flat_map subtree replacement) ->
  Forall (fun m => leafy m /\ P m) (flat_map subtree l) ->
  Forall P (flat_map subtree (flat_map (replaceWhere p replacement anc) l)).
Proof.
  intros Hr. induction l as [|k l IH]; intros H; [constructor|].
  cbn [flat_map] in *. apply List.Forall_app in H. destruct H as [H1 H2].
  rewrite flat_map_app. apply List.Forall_app. split.
  - apply replaceWhere_keeps; assumption.
  - apply IH, H2.
Qed.

(** So does [append], when what it appends has the property and it
    appends to no [script] and to no [img]. *)
Lemma appendWhere_keeps_shallow (p : node -> list node -> bool)
    (extra : list node) (n : node) :
  (forall m anc, isLeafTag m = true -> p m anc = false) ->
  Forall P (flat_map subtree extra) ->
  forall anc,
    Forall (fun m => leafy m /\ P m) (subtree n) ->
    Forall P (subtree (appendWhere p extra anc n)).
Proof.
  intros Hp He.
  induction n as [data|data|name attribs kids IH] using DomProofs.node_induction;
    intros anc H; [constructor | constructor |].
  cbn [appendWhere subtree] in *. apply List.Forall_cons_iff in H.
  destruct H as [[Hl Hn] Hkids]. constructor.
  - eapply P_shallow; [|exact Hn].
    intros Ht. rewrite (Hp _ anc Ht), app_nil_r.
    apply noElements_appendWhere, Hl, Ht.
  - rewrite flat_map_app. apply List.Forall_app. split.
    + clear Hl Hn. generalize (Element name attribs kids :: anc) as anc'.
      intros anc'. induction IH as [|k l Hk _ IHl]; [constructor|].
      cbn [flat_map map] in *. apply List.Forall_app in Hkids.
      destruct Hkids as [H1 H2]. apply List.Forall_app. split.
      * apply Hk, H1.
      * apply IHl, H2.
    + destruct (p _ anc); [exact He | constructor].
Qed.

End Rebuilding.

(** ** The scripts that are left *)

(** The removal of the tracking scripts leaves none. *)
Lemma removeAnalytics_clean (n : node) :
  forall anc,
    Forall leafy (subtree n) ->
    Forall clean (flat_map subtree (removeWhere isAnalyticsScript anc n)).
Proof.
  induction n as [data|data|name attribs kids IH] using DomProofs.node_induction;
    intros anc H; [constructor | constructor |].
  cbn [removeWhere].
  destruct (isAnalyticsScript (Element name attribs kids) anc) eqn:E;
    [constructor|].
  cbn [subtree] in H. apply List.Forall_cons_iff in H.
  destruct H as [Hl Hkids].
  cbn [flat_map subtree]. rewrite app_nil_r. constructor.
  - eapply shallow_clean; [|exact E].
    intros Ht. apply noElements_removeWhere, Hl, Ht.
  - clear Hl E. generalize (Element name attribs kids :: anc) as anc'.
    intros anc'. induction IH as [|k l Hk _ IHl]; [constructor|].
    cbn [flat_map] in *. apply List.Forall_app in Hkids.
    destruct Hkids as [H1 H2].
    rewrite flat_map_app. apply List.Forall_app. split.
    + apply Hk, H1.
    + apply IHl, H2.
Qed.

Lemma Forall_and {A} (P Q : A -> Prop) (l : list A) :
  Forall P l -> Forall Q l -> Forall (fun x => P x /\ Q x) l.
Proof.
  induction 1 as [|x l Hx _ IH]; intros HQ; [constructor|].
  apply List.Forall_cons_iff in HQ. destruct HQ as [Hq HQ].
  constructor; [split; assumption | apply IH, HQ].
Qed.

Lemma Forall_self {A} (P : A -> Prop) (l : list A) :
  Forall P l -> Forall (fun x => P x /\ P x) l.
Proof. intros H. apply Forall_and; exact H. Qed.

Lemma wellNested_removeWhere (p : node -> list node -> bool)
    (d : document) :
  wellNested d -> wellNested (onDocument (removeWhere p) d).
Proof.
  intros H. unfold wellNested, onDocument.
  apply (removeWhere_keeps_list leafy shallow_leafy), Forall_self, H.
Qed.

Lemma wellNested_selectors (sels : list selector) (d : document) :
  wellNested d ->
  wellNested
    (fold_left (fun d sel => onDocument (removeWhere (irrelevant sel)) d)
       sels d).
Proof.
  revert d. induction sels as [|sel sels IH]; intros d H; [exact H|].
  cbn [fold_left]. apply IH, wellNested_removeWhere, H.
Qed.

(** After the four removals the document is well nested and holds no
    tracking script. *)
Lemma cleaned_clean (doc : document) :
  wellNested doc ->
  Forall (fun m => leafy m /\ clean m) (flat_map subtree (cleaned doc)).
Proof.
  intros H. unfold cleaned.
  set (d1 := fold_left _ IRRELEVANT_SELECTORS doc).
  assert (H1 : wellNested d1) by (apply wellNested_selectors, H).
  set (d2 := onDocument (removeWhere isAnalyticsScript) d1).
  assert (H2 : Forall (fun m => leafy m /\ clean m) (flat_map subtree d2)).
  { apply Forall_and.
    - apply wellNested_removeWhere, H1.
    - subst d2. unfold onDocument. clear -H1. unfold wellNested in H1.
      induction d1 as [|k l IH]; [constructor|].
      cbn [flat_map] in *. apply List.Forall_app in H1.
      destruct H1 as [Hk Hl].
      rewrite flat_map_app. apply List.Forall_app. split.
      + apply removeAnalytics_clean, Hk.
      + apply IH, Hl. }
  set (d3 := onDocument (replaceWhere isHeavySvg svgPlaceholder) d2).
  assert (H3 : Forall (fun m => leafy m /\ clean m) (flat_map subtree d3)).
  { subst d3. unfold onDocument.
    apply (replaceWhere_keeps_list (fun m => leafy m /\ clean m)
             (shallow_and _ _ shallow_leafy shallow_clean)).
    - repeat constructor; discriminate.
    - eapply List.Forall_impl; [|exact H2]. cbn beta. tauto. }
  unfold onDocument.
  apply (removeWhere_keeps_list (fun m => leafy m /\ clean m)
           (shallow_and _ _ shallow_leafy shallow_clean)).
  eapply List.Forall_impl; [|exact H3]. cbn beta. tauto.
Qed.

(** The images that are put back are images of the document, and hold no
    script. *)
Lemma lostImages_clean (doc : document) (current : gset string) :
  wellNested doc ->
  Forall (fun m => leafy m /\ clean m)
    (flat_map subtree (lostImages (imagesOf doc) current)).
Proof.
  intros H. unfold lostImages. rewrite OptimizerProofs.imagesOf_subtree.
  unfold wellNested in H. rewrite List.Forall_forall in H |- *.
  intros m Hm. apply in_flat_map in Hm. destruct Hm as (img & Himg & Hm).
  apply List.filter_In in Himg. destruct Himg as [Himg _].
  apply List.filter_In in Himg. destruct Himg as [Hin Hi].
  specialize (H img Hin).
  destruct img as [data|data|name attribs kids]; try discriminate Hi.
  assert (Ht : isLeafTag (Element name attribs kids) = true).
  { unfold isLeafTag, isImg, hasTag in *.
    cbn [isElement tagName andb existsb] in *.
    rewrite orb_false_r in Hi. rewrite Hi. apply orb_true_r. }
  specialize (H Ht). unfold noElements in H. cbn [childNodes] in H.
  cbn [subtree] in Hm. rewrite (noElements_subtree kids H) in Hm.
  destruct Hm as [<-|[]]. split.
  - intros _. exact H.
  - unfold clean, isAnalyticsScript, isImg, hasTag in *.
    cbn [isElement tagName andb existsb] in *.
    rewrite orb_false_r in Hi. apply String.eqb_eq in Hi. subst name.
    reflexivity.
Qed.

Lemma isBody_not_leaf (m : node) (anc : list node) :
  isLeafTag m = true -> isBody m anc = false.
Proof.
  destruct m as [data|data|name attribs kids]; try discriminate.
  unfold isLeafTag, isBody, hasTag, matchesSelector, matchesComplex,
    matchesCompound, matchesSimple.
  cbn [isElement tagName andb existsb rev app forallb orb].
  destruct (String.eqb name "script") eqn:E1.
  - apply String.eqb_eq in E1. subst name. reflexivity.
  - destruct (String.eqb name "img") eqn:E2; [|discriminate].
    apply String.eqb_eq in E2. subst name. reflexivity.
Qed.

(** X29. In a document whose [script] and [img] elements hold no element,
    as the parser builds every document, [removeIrrelevantContent] leaves
    no tracking script: no [script] of the result has a source or a
    content in which one of [ANALYTICS_PATTERNS] is found. *)
Theorem no_tracking_script_survives (doc : document) :
  wellNested doc ->
  Forall (fun n => isAnalyticsScript n [] = false)
    (flat_map subtree (removeIrrelevantContent doc)).
Proof.
  intros H. unfold removeIrrelevantContent.
  pose proof (cleaned_clean doc H) as Hc.
  pose proof (lostImages_clean doc (sourcesOf (cleaned doc)) H) as Hl.
  set (extra := lostImages (imagesOf doc) (sourcesOf (cleaned doc))) in *.
  assert (He : Forall clean (flat_map subtree extra))
    by (eapply List.Forall_impl; [|exact Hl]; cbn beta; tauto).
  clear Hl. clearbody extra. revert Hc.
  generalize (cleaned doc) as d. intros d Hc.
  induction d as [|k l IH]; [constructor|].
  cbn [flat_map map] in *. apply List.Forall_app in Hc.
  destruct Hc as [Hk Hc]. apply List.Forall_app. split.
  - apply (appendWhere_keeps_shallow clean shallow_clean isBody extra k
             isBody_not_leaf He [] Hk).
  - apply IH, Hc.
Qed.

Lemma no_tracking_script_survives_witness :
  Forall (fun n => isAnalyticsScript n [] = false)
    (flat_map subtree (removeIrrelevantContent MoreSamples.trackedPage)).
Proof.
  apply (no_tracking_script_survives MoreSamples.trackedPage).
  unfold wellNested. cbn [MoreSamples.trackedPage ContentChunker.loadMarkup
    flat_map subtree app].
  repeat (apply List.Forall_cons;
          [intros Ht;
           first [vm_compute in Ht; discriminate Ht | repeat constructor]|]).
  apply List.Forall_nil.
Defined.

End OptimizerLaws.
(** * Laws of the metrics collector *)

Module MetricsLaws.

Import MetricsCollector.

Lemma recordMetrics_step {T} (recorded : list (Z * T)) (entry : Z * T) :
  trimMetrics
    (skipn (length recorded - MAX_METRICS_STORED) recorded ++ [entry])
  = skipn (length (recorded ++ [entry]) - MAX_METRICS_STORED)
      (recorded ++ [entry]).
Proof.
  unfold trimMetrics.
  assert (HM : (1 <= MAX_METRICS_STORED)%nat)
    by (unfold MAX_METRICS_STORED; lia).
  revert HM. generalize MAX_METRICS_STORED as M. intros M HM.
  rewrite !length_app, length_skipn. cbn [length].
  destruct (Nat.lt_ge_cases (length recorded) M) as [Hlt|Hge].
  - replace (length recorded - M)%nat with 0%nat by lia.
    replace (length recorded + 1 - M)%nat with 0%nat by lia.
    rewrite Nat.sub_0_r.
    replace (M <? length recorded + 1)%nat with false
      by (symmetry; apply Nat.ltb_ge; lia).
    reflexivity.
  - replace (M <? length recorded - (length recorded - M) + 1)%nat with true
      by (symmetry; apply Nat.ltb_lt; lia).
    replace (length recorded - (length recorded - M) + 1 - M)%nat
      with 1%nat by lia.
    replace (length recorded + 1 - M)%nat
      with (1 + (length recorded - M))%nat by lia.
    rewrite !skipn_app, skipn_skipn, !length_skipn.
    replace (1 - (length recorded - (length recorded - M)))%nat
      with 0%nat by lia.
    replace (1 + (length recorded - M) - length recorded)%nat
      with 0%nat by lia.
    reflexivity.
Qed.

Lemma recordMetrics_all {T} (records recorded : list (Z * T)) :
  fold_left (fun array r => recordMetrics (fst r) (snd r) array) records
    (skipn (length recorded - MAX_METRICS_STORED) recorded)
  = skipn (length (recorded ++ records) - MAX_METRICS_STORED)
      (recorded ++ records).
Proof.
  revert recorded. induction records as [|[now metrics] l IH];
    intros recorded; cbn [fold_left].
  - rewrite app_nil_r. reflexivity.
  - unfold recordMetrics at 2. cbn [fst snd].
    rewrite recordMetrics_step, IH, <- app_assoc. reflexivity.
Qed.

(** X30. After any number of calls of [recordRequest] (or
    [recordRateLimit], or [recordQuality]) on an empty array, the array
    holds the last 1000 records, or all of them if there are fewer, in the
    order in which they were made: never more than 1000, the oldest
    dropped first, the newest always kept. *)
Theorem stored_metrics_are_the_latest {T} (records : list (Z * T)) :
  let stored :=
    fold_left (fun array r => recordMetrics (fst r) (snd r) array) records
      [] in
  stored = skipn (length records - MAX_METRICS_STORED) records /\
  length stored = Nat.min (length records) MAX_METRICS_STORED /\
  last stored = last records.
Proof.
  cbn zeta.
  pose proof (recordMetrics_all records []) as H.
  rewrite skipn_nil in H. cbn [app] in H. rewrite H.
  split; [reflexivity|]. split.
  - rewrite length_skipn. lia.
  - destruct (Nat.le_gt_cases (length records) MAX_METRICS_STORED)
      as [Hle|Hgt].
    + replace (length records - MAX_METRICS_STORED)%nat with 0%nat by lia.
      reflexivity.
    + set (k := (length records - MAX_METRICS_STORED)%nat).
      assert (Es : last records
                   = last (firstn k records ++ skipn k records))
        by (rewrite firstn_skipn; reflexivity).
      rewrite Es, last_app.
      destruct (last (skipn k records)) eqn:E; [reflexivity|]. subst k.
      apply last_None in E. apply (f_equal (@length _)) in E.
      rewrite length_skipn in E. cbn [length] in E.
      unfold MAX_METRICS_STORED in *. lia.
Qed.

End MetricsLaws.
